(** * pimp_my_ride: the emulation session and its remote-debug target

    A shallow embedding of [pimp_my_ride.py] (class [PimpMyRide]) and of
    [target/target.py], [target/emulated_target.py] (classes [Target] and
    [EmulatedTargetX86_64]), followed by the properties of the
    specification checked against them.

    Conventions of the embedding:
    - a Python integer is a [Z]; a Python 2 [str] (text or raw bytes) is a
      [string]; a [dict] is a [gmap]; a [list] is a [list];
    - an attribute that may be unset or [None] is an [option];
    - a method is a computation in the monad [M]: it threads the object,
      may raise an exception, and records what it asks of its collaborators
      (the engine, the disassembler, the registered callbacks) in a trace;
    - the engine and the disassembler are external: they are the
      operations of the classes [Unicorn] and [Capstone], and the ids of
      the engine's registers are the numbering [RegIds];
    - calls to the logger are left out, except where building the message
      itself raises. *)

From stdpp Require Import base option list gmap strings pretty.
From Stdlib Require Import ZArith Lia Ascii String.

Local Open Scope Z_scope.
Local Open Scope string_scope.
Local Open Scope list_scope.

(** ** Exceptions *)

Inductive exn : Type :=
| PimpMyRideException (msg : string)
| PimpMyRideException_of (err : exn)        (* PimpMyRideException(err) *)
| UcError (errno : Z)
| CsError (errno : Z)
| Exception (msg : string)
| NameError (name : string)
| UnboundLocalError (name : string)
| AttributeError (name : string)
| TypeError (msg : string)
| IndexError (msg : string)
| ZeroDivisionError (msg : string)
| struct_error (msg : string).

Definition is_UcError (e : exn) : bool :=
  match e with UcError _ => true | _ => false end.

Definition is_CsError (e : exn) : bool :=
  match e with CsError _ => true | _ => false end.

(** ** Callbacks

    A callback is a Python callable held by the session.  The bound
    method [Target.breakpoint_callback] is named by a constructor, and is
    run by the adapter that owns it ([dispatch] below); any other callable
    is opaque: it is identified by a number and either returns or raises
    when it is called with an address. *)

Inductive callback : Type :=
| bound_breakpoint_callback
| function (id : nat) (raises : Z -> option exn).

(** The callables installed as engine hooks: the session's own
    [__code_callback], or a function of the user. *)
Inductive hook_cb : Type :=
| bound___code_callback
| hook_function (id : nat).

(** ** What a method asks of its collaborators *)

Inductive event : Type :=
| uc_Uc (arch mode : Z)
| uc_mem_map (address size : Z) (perm : option Z)
| uc_mem_read (address size : Z)
| uc_mem_write (address : Z) (content : string)
| uc_reg_read (reg : Z)
| uc_reg_write (reg value : Z)
| uc_hook_add (hook : Z) (cb : hook_cb)
| uc_emu_start (begin until timeout count : Z)
| uc_emu_stop
| cs_Cs (arch mode : Z)
| cs_disasm (code : string) (offset : Z)
| call_callback (cb : callback) (address : Z)
| call_hook (id : nat) (address size : Z).

(** ** The monad of methods: state, exceptions, trace *)

Record outcome (S A : Type) : Type := Outcome {
  res : exn + A;
  final : S;
  trace : list event
}.
Arguments Outcome {S A} _ _ _.
Arguments res {S A} _.
Arguments final {S A} _.
Arguments trace {S A} _.

Definition M (S A : Type) : Type := S -> outcome S A.

Definition ret {S A} (a : A) : M S A := fun s => Outcome (inr a) s [].

Definition raise {S A} (e : exn) : M S A := fun s => Outcome (inl e) s [].

Definition bind {S A B} (m : M S A) (f : A -> M S B) : M S B :=
  fun s =>
    let o := m s in
    match res o with
    | inl e => Outcome (inl e) (final o) (trace o)
    | inr a =>
        let o' := f a (final o) in
        Outcome (res o') (final o') (trace o ++ trace o')
    end.

(** [try: m except handles: h] *)
Definition try_except {S A} (m : M S A) (handles : exn -> bool)
    (h : exn -> M S A) : M S A :=
  fun s =>
    let o := m s in
    match res o with
    | inl e =>
        if handles e then
          let o' := h e (final o) in
          Outcome (res o') (final o') (trace o ++ trace o')
        else o
    | inr _ => o
    end.

Definition gets {S A} (f : S -> A) : M S A := fun s => Outcome (inr (f s)) s [].

Definition modify {S} (f : S -> S) : M S unit := fun s => Outcome (inr tt) (f s) [].

Definition emit {S} (ev : event) : M S unit := fun s => Outcome (inr tt) s [ev].

(** An attribute read: [AttributeError] when it was never set. *)
Definition attr {S A} (name : string) (f : S -> option A) : M S A :=
  fun s =>
    match f s with
    | Some a => Outcome (inr a) s []
    | None => Outcome (inl (AttributeError name)) s []
    end.

Declare Scope py_scope.
Delimit Scope py_scope with py.
Notation "x <- m ;; k" := (bind m (fun x => k))
  (at level 100, m at next level, right associativity) : py_scope.
Notation "m ;; k" := (bind m (fun _ => k))
  (at level 100, right associativity) : py_scope.
Local Open Scope py_scope.

(** [for x in l: body x] *)
Fixpoint for_each {S A} (l : list A) (body : A -> M S unit) : M S unit :=
  match l with
  | [] => ret tt
  | x :: l' => body x ;; for_each l' body
  end.

(** ** Constants of the engine and of the disassembler

    The values of [unicorn_const.py] and of capstone's [__init__.py]. *)

Module uc.
Definition UC_ARCH_ARM : Z := 1.
Definition UC_ARCH_ARM64 : Z := 2.
Definition UC_ARCH_MIPS : Z := 3.
Definition UC_ARCH_X86 : Z := 4.
Definition UC_MODE_LITTLE_ENDIAN : Z := 0.
Definition UC_MODE_BIG_ENDIAN : Z := 1073741824.
Definition UC_MODE_ARM : Z := 0.
Definition UC_MODE_THUMB : Z := 16.
Definition UC_MODE_MIPS32 : Z := 4.
Definition UC_MODE_MIPS64 : Z := 8.
Definition UC_MODE_16 : Z := 2.
Definition UC_MODE_32 : Z := 4.
Definition UC_MODE_64 : Z := 8.
Definition UC_PROT_ALL : Z := 7.
Definition UC_HOOK_CODE : Z := 4.
End uc.

Module cs.
Definition CS_ARCH_ARM : Z := 0.
Definition CS_ARCH_ARM64 : Z := 1.
Definition CS_ARCH_MIPS : Z := 2.
Definition CS_ARCH_X86 : Z := 3.
Definition CS_MODE_LITTLE_ENDIAN : Z := 0.
Definition CS_MODE_BIG_ENDIAN : Z := 2147483648.
Definition CS_MODE_ARM : Z := 0.
Definition CS_MODE_16 : Z := 2.
Definition CS_MODE_32 : Z := 4.
Definition CS_MODE_64 : Z := 8.
Definition CS_MODE_MIPS32 : Z := 4.
End cs.

(** The register constants that [pimp_my_ride.py] takes from
    [unicorn.*_const].  Their numbers belong to the engine's binding:
    they are the numbering [RegIds], and a constant is read as its
    number wherever an integer is expected.  The source also names
    [UC_X86_REG_PC], which no module of the binding defines: where it is
    evaluated a [NameError] is raised. *)
Inductive uc_reg : Type :=
| UC_MIPS_REG_ZERO | UC_MIPS_REG_AT | UC_MIPS_REG_V0 | UC_MIPS_REG_V1
| UC_MIPS_REG_A0 | UC_MIPS_REG_A1 | UC_MIPS_REG_A2 | UC_MIPS_REG_A3
| UC_MIPS_REG_T0 | UC_MIPS_REG_T1 | UC_MIPS_REG_T2 | UC_MIPS_REG_T3
| UC_MIPS_REG_T4 | UC_MIPS_REG_T5 | UC_MIPS_REG_T6 | UC_MIPS_REG_T7
| UC_MIPS_REG_S0 | UC_MIPS_REG_S1 | UC_MIPS_REG_S2 | UC_MIPS_REG_S3
| UC_MIPS_REG_S4 | UC_MIPS_REG_S5 | UC_MIPS_REG_S6 | UC_MIPS_REG_S7
| UC_MIPS_REG_T8 | UC_MIPS_REG_T9 | UC_MIPS_REG_K0 | UC_MIPS_REG_K1
| UC_MIPS_REG_GP | UC_MIPS_REG_SP | UC_MIPS_REG_FP | UC_MIPS_REG_RA
| UC_MIPS_REG_HI | UC_MIPS_REG_LO | UC_MIPS_REG_PC | UC_MIPS_REG_CC7
| UC_ARM64_REG_X0 | UC_ARM64_REG_X1 | UC_ARM64_REG_X2 | UC_ARM64_REG_X3
| UC_ARM64_REG_X4 | UC_ARM64_REG_X5 | UC_ARM64_REG_X6 | UC_ARM64_REG_X7
| UC_ARM64_REG_X8 | UC_ARM64_REG_X9 | UC_ARM64_REG_X10 | UC_ARM64_REG_X11
| UC_ARM64_REG_X12 | UC_ARM64_REG_X13 | UC_ARM64_REG_X14 | UC_ARM64_REG_X15
| UC_ARM64_REG_X16 | UC_ARM64_REG_X17 | UC_ARM64_REG_X18 | UC_ARM64_REG_X19
| UC_ARM64_REG_X20 | UC_ARM64_REG_X21 | UC_ARM64_REG_X22 | UC_ARM64_REG_X23
| UC_ARM64_REG_X24 | UC_ARM64_REG_X25 | UC_ARM64_REG_X26 | UC_ARM64_REG_X27
| UC_ARM64_REG_X28 | UC_ARM64_REG_X29 | UC_ARM64_REG_X30
| UC_ARM64_REG_W0 | UC_ARM64_REG_W1 | UC_ARM64_REG_W2 | UC_ARM64_REG_W3
| UC_ARM64_REG_W4 | UC_ARM64_REG_W5 | UC_ARM64_REG_W6 | UC_ARM64_REG_W7
| UC_ARM64_REG_W8 | UC_ARM64_REG_W9 | UC_ARM64_REG_W10 | UC_ARM64_REG_W11
| UC_ARM64_REG_W12 | UC_ARM64_REG_W13 | UC_ARM64_REG_W14 | UC_ARM64_REG_W15
| UC_ARM64_REG_W16 | UC_ARM64_REG_W17 | UC_ARM64_REG_W18 | UC_ARM64_REG_W19
| UC_ARM64_REG_W20 | UC_ARM64_REG_W21 | UC_ARM64_REG_W22 | UC_ARM64_REG_W23
| UC_ARM64_REG_W24 | UC_ARM64_REG_W25 | UC_ARM64_REG_W26 | UC_ARM64_REG_W27
| UC_ARM64_REG_W28 | UC_ARM64_REG_W29 | UC_ARM64_REG_W30
| UC_ARM64_REG_SP | UC_ARM64_REG_PC | UC_ARM64_REG_LR
| UC_ARM_REG_PC | UC_ARM_REG_SP | UC_ARM_REG_LR
| UC_ARM_REG_R0 | UC_ARM_REG_R1 | UC_ARM_REG_R2 | UC_ARM_REG_R3
| UC_X86_REG_SP | UC_X86_REG_AX | UC_X86_REG_BX
| UC_X86_REG_CX | UC_X86_REG_DX | UC_X86_REG_SI | UC_X86_REG_DI
| UC_X86_REG_BP | UC_X86_REG_EFLAGS
| UC_X86_REG_EIP | UC_X86_REG_ESP | UC_X86_REG_EAX | UC_X86_REG_EBX
| UC_X86_REG_ECX | UC_X86_REG_EDX | UC_X86_REG_ESI | UC_X86_REG_EDI
| UC_X86_REG_EBP
| UC_X86_REG_RIP | UC_X86_REG_RSP | UC_X86_REG_RAX | UC_X86_REG_RBX
| UC_X86_REG_RCX | UC_X86_REG_RDX | UC_X86_REG_RSI | UC_X86_REG_RDI
| UC_X86_REG_RBP
| UC_X86_REG_R8 | UC_X86_REG_R9 | UC_X86_REG_R10 | UC_X86_REG_R11
| UC_X86_REG_R12 | UC_X86_REG_R13 | UC_X86_REG_R14 | UC_X86_REG_R15.

Class RegIds : Type := reg_id : uc_reg -> Z.
#[warning="-uniform-inheritance"]
Coercion reg_id : uc_reg >-> Z.


(** * [pimp_my_ride.py] *)

Module pimp_my_ride.

Definition PAGE_SIZE : Z := 0x1000.
Definition COMPILE_GCC : Z := 0.
Definition COMPILE_MSVC : Z := 1.

(** ** The session object: class [PimpMyRide] *)

(** The attributes written by [_setup_registers]; an attribute that a
    branch does not assign stays unset. *)
Record register_setup : Type := {
  pack_endian : option string;
  step : option Z;
  pack_format : option string;
  REG_PC : option Z;
  REG_SP : option Z;
  REG_RA : option Z;
  REG_RES : option Z;
  REG_ARGS : option (list Z)
}.

Definition no_setup : register_setup :=
  {| pack_endian := None; step := None; pack_format := None;
     REG_PC := None; REG_SP := None; REG_RA := None; REG_RES := None;
     REG_ARGS := None |}.

(** [E] is the type of an engine instance ([uc.Uc]); the disassembler
    instance ([cs.Cs]) is the pair of its architecture and mode. *)
Record PimpMyRide (E : Type) : Type := {
  __uc : option E;
  __cs : option (Z * Z);
  _code : option string;
  _start_address : option Z;
  _return_address : option Z;
  __memory_areas : list (Z * Z);
  __memory_contents : list (Z * string);
  stack : Z;
  stack_size : Z;
  compiler : Z;
  breakpoints : list Z;
  breakpoints_callback : list callback;
  _arch : option Z;
  _mode : option Z;
  _cs_arch : Z;
  _cs_mode : Z;
  __regs : gmap string Z;
  __hooks : gmap Z hook_cb;
  setup : register_setup
}.
Arguments __uc {E} _.
Arguments __cs {E} _.
Arguments _code {E} _.
Arguments _start_address {E} _.
Arguments _return_address {E} _.
Arguments __memory_areas {E} _.
Arguments __memory_contents {E} _.
Arguments stack {E} _.
Arguments stack_size {E} _.
Arguments compiler {E} _.
Arguments breakpoints {E} _.
Arguments breakpoints_callback {E} _.
Arguments _arch {E} _.
Arguments _mode {E} _.
Arguments _cs_arch {E} _.
Arguments _cs_mode {E} _.
Arguments __regs {E} _.
Arguments __hooks {E} _.
Arguments setup {E} _.

Section Assign.
Context {E : Type}.
Implicit Type s : PimpMyRide E.

Definition set___uc (v : option E) s : PimpMyRide E :=
  {| __uc := v; __cs := __cs s; _code := _code s;
     _start_address := _start_address s; _return_address := _return_address s;
     __memory_areas := __memory_areas s; __memory_contents := __memory_contents s;
     stack := stack s; stack_size := stack_size s; compiler := compiler s;
     breakpoints := breakpoints s; breakpoints_callback := breakpoints_callback s;
     _arch := _arch s; _mode := _mode s; _cs_arch := _cs_arch s;
     _cs_mode := _cs_mode s; __regs := __regs s; __hooks := __hooks s;
     setup := setup s |}.

Definition set___cs (v : option (Z * Z)) s : PimpMyRide E :=
  {| __uc := __uc s; __cs := v; _code := _code s;
     _start_address := _start_address s; _return_address := _return_address s;
     __memory_areas := __memory_areas s; __memory_contents := __memory_contents s;
     stack := stack s; stack_size := stack_size s; compiler := compiler s;
     breakpoints := breakpoints s; breakpoints_callback := breakpoints_callback s;
     _arch := _arch s; _mode := _mode s; _cs_arch := _cs_arch s;
     _cs_mode := _cs_mode s; __regs := __regs s; __hooks := __hooks s;
     setup := setup s |}.

Definition set_start_address (v : option Z) s : PimpMyRide E :=
  {| __uc := __uc s; __cs := __cs s; _code := _code s;
     _start_address := v; _return_address := _return_address s;
     __memory_areas := __memory_areas s; __memory_contents := __memory_contents s;
     stack := stack s; stack_size := stack_size s; compiler := compiler s;
     breakpoints := breakpoints s; breakpoints_callback := breakpoints_callback s;
     _arch := _arch s; _mode := _mode s; _cs_arch := _cs_arch s;
     _cs_mode := _cs_mode s; __regs := __regs s; __hooks := __hooks s;
     setup := setup s |}.

Definition set_return_address (v : option Z) s : PimpMyRide E :=
  {| __uc := __uc s; __cs := __cs s; _code := _code s;
     _start_address := _start_address s; _return_address := v;
     __memory_areas := __memory_areas s; __memory_contents := __memory_contents s;
     stack := stack s; stack_size := stack_size s; compiler := compiler s;
     breakpoints := breakpoints s; breakpoints_callback := breakpoints_callback s;
     _arch := _arch s; _mode := _mode s; _cs_arch := _cs_arch s;
     _cs_mode := _cs_mode s; __regs := __regs s; __hooks := __hooks s;
     setup := setup s |}.

Definition set_mode (v : option Z) s : PimpMyRide E :=
  {| __uc := __uc s; __cs := __cs s; _code := _code s;
     _start_address := _start_address s; _return_address := _return_address s;
     __memory_areas := __memory_areas s; __memory_contents := __memory_contents s;
     stack := stack s; stack_size := stack_size s; compiler := compiler s;
     breakpoints := breakpoints s; breakpoints_callback := breakpoints_callback s;
     _arch := _arch s; _mode := v; _cs_arch := _cs_arch s;
     _cs_mode := _cs_mode s; __regs := __regs s; __hooks := __hooks s;
     setup := setup s |}.

Definition set___memory_areas (v : list (Z * Z)) s : PimpMyRide E :=
  {| __uc := __uc s; __cs := __cs s; _code := _code s;
     _start_address := _start_address s; _return_address := _return_address s;
     __memory_areas := v; __memory_contents := __memory_contents s;
     stack := stack s; stack_size := stack_size s; compiler := compiler s;
     breakpoints := breakpoints s; breakpoints_callback := breakpoints_callback s;
     _arch := _arch s; _mode := _mode s; _cs_arch := _cs_arch s;
     _cs_mode := _cs_mode s; __regs := __regs s; __hooks := __hooks s;
     setup := setup s |}.

Definition set___memory_contents (v : list (Z * string)) s : PimpMyRide E :=
  {| __uc := __uc s; __cs := __cs s; _code := _code s;
     _start_address := _start_address s; _return_address := _return_address s;
     __memory_areas := __memory_areas s; __memory_contents := v;
     stack := stack s; stack_size := stack_size s; compiler := compiler s;
     breakpoints := breakpoints s; breakpoints_callback := breakpoints_callback s;
     _arch := _arch s; _mode := _mode s; _cs_arch := _cs_arch s;
     _cs_mode := _cs_mode s; __regs := __regs s; __hooks := __hooks s;
     setup := setup s |}.

Definition set_breakpoints (v : list Z) s : PimpMyRide E :=
  {| __uc := __uc s; __cs := __cs s; _code := _code s;
     _start_address := _start_address s; _return_address := _return_address s;
     __memory_areas := __memory_areas s; __memory_contents := __memory_contents s;
     stack := stack s; stack_size := stack_size s; compiler := compiler s;
     breakpoints := v; breakpoints_callback := breakpoints_callback s;
     _arch := _arch s; _mode := _mode s; _cs_arch := _cs_arch s;
     _cs_mode := _cs_mode s; __regs := __regs s; __hooks := __hooks s;
     setup := setup s |}.

Definition set_breakpoints_callback (v : list callback) s : PimpMyRide E :=
  {| __uc := __uc s; __cs := __cs s; _code := _code s;
     _start_address := _start_address s; _return_address := _return_address s;
     __memory_areas := __memory_areas s; __memory_contents := __memory_contents s;
     stack := stack s; stack_size := stack_size s; compiler := compiler s;
     breakpoints := breakpoints s; breakpoints_callback := v;
     _arch := _arch s; _mode := _mode s; _cs_arch := _cs_arch s;
     _cs_mode := _cs_mode s; __regs := __regs s; __hooks := __hooks s;
     setup := setup s |}.

Definition set___regs (v : gmap string Z) s : PimpMyRide E :=
  {| __uc := __uc s; __cs := __cs s; _code := _code s;
     _start_address := _start_address s; _return_address := _return_address s;
     __memory_areas := __memory_areas s; __memory_contents := __memory_contents s;
     stack := stack s; stack_size := stack_size s; compiler := compiler s;
     breakpoints := breakpoints s; breakpoints_callback := breakpoints_callback s;
     _arch := _arch s; _mode := _mode s; _cs_arch := _cs_arch s;
     _cs_mode := _cs_mode s; __regs := v; __hooks := __hooks s;
     setup := setup s |}.

Definition set___hooks (v : gmap Z hook_cb) s : PimpMyRide E :=
  {| __uc := __uc s; __cs := __cs s; _code := _code s;
     _start_address := _start_address s; _return_address := _return_address s;
     __memory_areas := __memory_areas s; __memory_contents := __memory_contents s;
     stack := stack s; stack_size := stack_size s; compiler := compiler s;
     breakpoints := breakpoints s; breakpoints_callback := breakpoints_callback s;
     _arch := _arch s; _mode := _mode s; _cs_arch := _cs_arch s;
     _cs_mode := _cs_mode s; __regs := __regs s; __hooks := v;
     setup := setup s |}.

End Assign.

(** ** The collaborators

    The engine, as the session uses it.  An operation that fails raises
    (a [UcError] in the binding) and leaves the instance as it was.
    [emu_start] runs on the calling thread with the installed hooks
    executing in-line, so it acts on the session as a whole: its first
    argument runs an installed hook at an address and an instruction
    size. *)
Class Unicorn (E : Type) : Type := {
  Uc : Z -> Z -> exn + E;
  mem_map : E -> Z -> Z -> option Z -> exn + E;
  mem_read : E -> Z -> Z -> exn + string;
  mem_write : E -> Z -> string -> exn + E;
  reg_read : E -> Z -> exn + Z;
  reg_write : E -> Z -> Z -> exn + E;
  hook_add : E -> Z -> hook_cb -> exn + E;
  emu_stop : E -> exn + E;
  emu_start :
    (hook_cb -> Z -> Z -> M (PimpMyRide E) unit) ->
    Z -> Z -> Z -> Z -> M (PimpMyRide E) unit
}.

(** The disassembler: [Cs] checks an (architecture, mode) pair, [disasm]
    yields the (mnemonic, operands) of the instructions of a byte
    string. *)
Class Capstone : Type := {
  Cs : Z -> Z -> exn + unit;
  disasm : Z * Z -> string -> Z -> exn + list (string * string)
}.

(** ** Python helpers *)

(** [v == c] for an attribute [v] that may be [None]. *)
Definition eqv (v : option Z) (c : Z) : bool := bool_decide (v = Some c).

(** [s * n] on strings: [n] copies of [s], none when [n <= 0]. *)
Definition str_mul (s : string) (n : Z) : string :=
  Nat.iter (Z.to_nat n) (String.append s) "".

(** The one-character string ["\x00"]. *)
Definition NUL : string := String "000"%char "".

(** [len(s)] *)
Definition len (s : string) : Z := Z.of_nat (String.length s).

(** [l.remove(x)] for an [x] that occurs in [l]: the first occurrence goes. *)
Fixpoint list_remove (x : Z) (l : list Z) : list Z :=
  match l with
  | [] => []
  | y :: l' => if bool_decide (y = x) then l' else y :: list_remove x l'
  end.

(** ** Methods of [PimpMyRide] *)

Section Session.
Context {E : Type} `{!Unicorn E} `{!Capstone} `{!RegIds}.

Abbreviation method A := (M (PimpMyRide E) A).
Implicit Type s : PimpMyRide E.

(** [_align_address]: align the address down to a page boundary. *)
Definition _align_address (address : Z) : Z := address / PAGE_SIZE * PAGE_SIZE.

(** [_setup_registers], as the values it leaves in the attributes, from
    the architecture, the mode and the compiler of the object, or the
    exception it raises: the 16-bit branch of x86 assigns
    [UC_X86_REG_PC], a name that is not defined. *)
Definition _setup_registers (arch mode : option Z) (compiler : Z)
    : exn + register_setup :=
  if eqv arch uc.UC_ARCH_X86 then
    if eqv mode uc.UC_MODE_16 then inl (NameError "UC_X86_REG_PC")
    else if eqv mode uc.UC_MODE_32 then
      inr {| pack_endian := Some "<"; step := Some 4; pack_format := Some "I";
             REG_PC := Some (UC_X86_REG_EIP : Z); REG_SP := Some (UC_X86_REG_ESP : Z);
             REG_RA := Some 0; REG_RES := Some (UC_X86_REG_EAX : Z);
             REG_ARGS := Some [] |}
    else if eqv mode uc.UC_MODE_64 then
      inr {| pack_endian := Some "<"; step := Some 8; pack_format := Some "Q";
             REG_PC := Some (UC_X86_REG_RIP : Z); REG_SP := Some (UC_X86_REG_RSP : Z);
             REG_RA := Some 0; REG_RES := Some (UC_X86_REG_RAX : Z);
             REG_ARGS :=
               if bool_decide (compiler = COMPILE_GCC) then
                 Some [UC_X86_REG_RDI : Z; UC_X86_REG_RSI : Z; UC_X86_REG_RDX : Z;
                       UC_X86_REG_RCX : Z; UC_X86_REG_R8 : Z; UC_X86_REG_R9 : Z]
               else if bool_decide (compiler = COMPILE_MSVC) then
                 Some [UC_X86_REG_RCX : Z; UC_X86_REG_RDX : Z; UC_X86_REG_R8 : Z;
                       UC_X86_REG_R9 : Z]
               else None |}
    else
      inr {| pack_endian := Some "<"; step := None; pack_format := None;
             REG_PC := None; REG_SP := None; REG_RA := None; REG_RES := None;
             REG_ARGS := None |}
  else if eqv arch uc.UC_ARCH_ARM then
    inr {| pack_endian := Some "<";
           step := if eqv mode uc.UC_MODE_ARM then Some 4
                   else if eqv mode uc.UC_MODE_THUMB then Some 2 else None;
           pack_format := if eqv mode uc.UC_MODE_ARM then Some "I"
                          else if eqv mode uc.UC_MODE_THUMB then Some "H" else None;
           REG_PC := Some (UC_ARM_REG_PC : Z); REG_SP := Some (UC_ARM_REG_SP : Z);
           REG_RA := Some (UC_ARM_REG_LR : Z); REG_RES := Some (UC_ARM_REG_R0 : Z);
           REG_ARGS := Some [UC_ARM_REG_R0 : Z; UC_ARM_REG_R1 : Z; UC_ARM_REG_R2 : Z;
                             UC_ARM_REG_R3 : Z] |}
  else if eqv arch uc.UC_ARCH_ARM64 then
    inr {| pack_endian := Some "<"; step := Some 8; pack_format := Some "Q";
           REG_PC := Some (UC_ARM64_REG_PC : Z); REG_SP := Some (UC_ARM64_REG_SP : Z);
           REG_RA := Some (UC_ARM64_REG_LR : Z); REG_RES := Some (UC_ARM64_REG_X0 : Z);
           REG_ARGS := Some [UC_ARM64_REG_X0 : Z; UC_ARM64_REG_X1 : Z;
                             UC_ARM64_REG_X2 : Z; UC_ARM64_REG_X3 : Z;
                             UC_ARM64_REG_X4 : Z; UC_ARM64_REG_X5 : Z;
                             UC_ARM64_REG_X6 : Z; UC_ARM64_REG_X7 : Z] |}
  else if eqv arch uc.UC_ARCH_MIPS then
    inr {| pack_endian := Some "<";
           step := if eqv mode uc.UC_MODE_MIPS32 then Some 4
                   else if eqv mode uc.UC_MODE_MIPS64 then Some 8 else None;
           pack_format := if eqv mode uc.UC_MODE_MIPS32 then Some "I"
                          else if eqv mode uc.UC_MODE_MIPS64 then Some "Q" else None;
           REG_PC := Some (UC_MIPS_REG_PC : Z); REG_SP := Some (UC_MIPS_REG_SP : Z);
           REG_RA := Some (UC_MIPS_REG_RA : Z); REG_RES := Some (UC_MIPS_REG_V0 : Z);
           REG_ARGS := Some [UC_MIPS_REG_A0 : Z; UC_MIPS_REG_A1 : Z;
                             UC_MIPS_REG_A2 : Z; UC_MIPS_REG_A3 : Z] |}
  else inr no_setup.

(** [PimpMyRide.__init__]: the new object, or the exception raised, by
    the constructor itself or by [_setup_registers], which it calls
    last. *)
Definition PimpMyRide__init__ (architecture : string) (bits : Z)
    (is_little_endian : bool) (stack stack_size : Z) (compiler : Z)
    : exn + PimpMyRide E :=
  let new (cur_arch cur_mode cs_arch cs_mode : Z) : exn + PimpMyRide E :=
    match _setup_registers (Some cur_arch) (Some cur_mode) compiler with
    | inl err => inl err
    | inr registers =>
        inr {| __uc := None; __cs := None; _code := None;
               _start_address := None; _return_address := None;
               __memory_areas := []; __memory_contents := [];
               stack := _align_address stack; stack_size := stack_size;
               compiler := compiler;
               breakpoints := []; breakpoints_callback := [];
               _arch := Some cur_arch; _mode := Some cur_mode;
               _cs_arch := cs_arch; _cs_mode := cs_mode;
               __regs := ∅; __hooks := ∅;
               setup := registers |}
    end in
  if String.eqb architecture "ppc" then
    inl (PimpMyRideException "PowerPC is unsupported.")
  else if String.eqb architecture "MIPS" then
    new uc.UC_ARCH_MIPS
        (if is_little_endian then uc.UC_MODE_MIPS32 + uc.UC_MODE_LITTLE_ENDIAN
         else uc.UC_MODE_MIPS32 + uc.UC_MODE_BIG_ENDIAN)
        cs.CS_ARCH_MIPS
        (if is_little_endian then cs.CS_MODE_MIPS32 + cs.CS_MODE_LITTLE_ENDIAN
         else cs.CS_MODE_MIPS32 + cs.CS_MODE_BIG_ENDIAN)
  else if String.eqb architecture "ARM" then
    new uc.UC_ARCH_ARM uc.UC_MODE_ARM cs.CS_ARCH_ARM cs.CS_MODE_ARM
  else if String.eqb architecture "AArch64" then
    new uc.UC_ARCH_ARM64 uc.UC_MODE_ARM cs.CS_ARCH_ARM64 cs.CS_MODE_ARM
  else if String.eqb architecture "x86" then
    if bool_decide (bits = 32) then
      new uc.UC_ARCH_X86 uc.UC_MODE_32 cs.CS_ARCH_X86 cs.CS_MODE_32
    else if bool_decide (bits = 16) then
      new uc.UC_ARCH_X86 uc.UC_MODE_16 cs.CS_ARCH_X86 cs.CS_MODE_16
    else
      inl (PimpMyRideException
             ("Unknown " +:+ pretty bits +:+ "bit for x86 architecture"))
  else if String.eqb architecture "x64" then
    new uc.UC_ARCH_X86 uc.UC_MODE_64 cs.CS_ARCH_X86 cs.CS_MODE_64
  else
    inl (PimpMyRideException ("Unsupported architecture " +:+ architecture)).

(** [add_memory_content]: the message of the exception names [size],
    which this method does not define. *)
Definition add_memory_content (address : Z) (content : string) : method unit :=
  if bool_decide (len content = 0) then raise (NameError "size")
  else modify (fun s => set___memory_contents
                          (__memory_contents s ++ [(address, content)]) s).

Definition add_memory_area (address size : Z) : method unit :=
  if bool_decide (size <= 0) then
    raise (PimpMyRideException
             ("Invalid memory area size specified (" +:+ pretty size +:+ ")"))
  else modify (fun s => set___memory_areas (__memory_areas s ++ [(address, size)]) s).

(** The property setters [start_address] and [return_address]. *)
Definition start_address_setter (address : option Z) : method unit :=
  modify (set_start_address address).

Definition return_address_setter (address : option Z) : method unit :=
  modify (set_return_address address).

(** The property setter [mode]. *)
Definition mode_setter (mode : option Z) : method unit :=
  modify (set_mode mode).

(** [stop]: a TODO in the source. *)
Definition stop : method unit := ret tt.

(** A call of a method of [self.__uc]: the request is recorded, then the
    engine answers.  [uc_query] leaves the instance as it is, [uc_update]
    replaces it. *)
Definition uc_query {A} (name : string) (ev : event) (op : E -> exn + A)
    : method A :=
  e <- attr name __uc ;;
  emit ev ;;
  match op e with
  | inl err => raise err
  | inr a => ret a
  end.

Definition uc_update (name : string) (ev : event) (op : E -> exn + E)
    : method unit :=
  e <- attr name __uc ;;
  emit ev ;;
  match op e with
  | inl err => raise err
  | inr e' => modify (set___uc (Some e'))
  end.

(** [_memory_map]: [if perm:] is false for [None] and for [0]. *)
Definition _memory_map (address size : Z) (perm : option Z) : method unit :=
  match perm with
  | Some p =>
      if bool_decide (p ≠ 0) then
        uc_update "mem_map" (uc_mem_map address size (Some p))
                  (fun e => mem_map e address size (Some p))
      else
        uc_update "mem_map" (uc_mem_map address size None)
                  (fun e => mem_map e address size None)
  | None =>
      uc_update "mem_map" (uc_mem_map address size None)
                (fun e => mem_map e address size None)
  end.

(** [__is_valid_memory_range]: the first loop returns [True] at the first
    area that holds the range; the stack is tried last. *)
Definition __is_valid_memory_range s (start_address end_address : Z) : bool :=
  existsb (fun '(address, size) =>
             bool_decide (start_address >= address) &&
             bool_decide (end_address <= address + size))
          (__memory_areas s)
  || (bool_decide (start_address >= stack s) &&
      bool_decide (end_address <= stack_size s * PAGE_SIZE + stack s)).

(** [read_memory]: the empty string for a range that is not valid. *)
Definition read_memory (address size : Z) : method string :=
  valid <- gets (fun s => __is_valid_memory_range s address (address + size)) ;;
  if negb valid then ret ""
  else uc_query "mem_read" (uc_mem_read address size)
                (fun e => mem_read e address size).

(** [write_memory]: returns [""] for a range that is not valid, and
    [None] after the write. *)
Definition write_memory (address : Z) (content : string) : method (option string) :=
  valid <- gets (fun s =>
             __is_valid_memory_range s address (address + len content)) ;;
  if negb valid then ret (Some "")
  else
    uc_update "mem_write" (uc_mem_write address content)
              (fun e => mem_write e address content) ;;
    ret None.

(** [__initialize_memory] *)
Definition __initialize_memory : method unit :=
  self_stack_size <- gets stack_size ;;
  self_stack <- gets stack ;;
  let stack_size := self_stack_size * PAGE_SIZE in
  _memory_map self_stack stack_size None ;;
  write_memory self_stack (str_mul NUL stack_size) ;;
  let sp := self_stack + self_stack_size * PAGE_SIZE in
  uc_attr <- attr "reg_write" __uc ;;
  reg_sp <- attr "REG_SP" (fun s => REG_SP (setup s)) ;;
  uc_update "reg_write" (uc_reg_write reg_sp sp) (fun e => reg_write e reg_sp sp) ;;
  areas <- gets __memory_areas ;;
  for_each areas (fun '(address, size) =>
    let size := _align_address size + PAGE_SIZE in
    let address_aligned := _align_address address in
    _memory_map address_aligned size (Some uc.UC_PROT_ALL)) ;;
  contents <- gets __memory_contents ;;
  for_each contents (fun '(address, content) =>
    write_memory address content ;; ret tt).

(** The tables of [_reg_map]. *)
Definition reg_map_MIPS : gmap string Z :=
  list_to_map
    [("zero", UC_MIPS_REG_ZERO : Z); ("at", UC_MIPS_REG_AT : Z);
     ("v0", UC_MIPS_REG_V0 : Z); ("v1", UC_MIPS_REG_V1 : Z);
     ("a0", UC_MIPS_REG_A0 : Z); ("a1", UC_MIPS_REG_A1 : Z);
     ("a2", UC_MIPS_REG_A2 : Z); ("a3", UC_MIPS_REG_A3 : Z);
     ("t0", UC_MIPS_REG_T0 : Z); ("t1", UC_MIPS_REG_T1 : Z);
     ("t2", UC_MIPS_REG_T2 : Z); ("t3", UC_MIPS_REG_T3 : Z);
     ("t4", UC_MIPS_REG_T4 : Z); ("t5", UC_MIPS_REG_T5 : Z);
     ("t6", UC_MIPS_REG_T6 : Z); ("t7", UC_MIPS_REG_T7 : Z);
     ("s0", UC_MIPS_REG_S0 : Z); ("s1", UC_MIPS_REG_S1 : Z);
     ("s2", UC_MIPS_REG_S2 : Z); ("s3", UC_MIPS_REG_S3 : Z);
     ("s4", UC_MIPS_REG_S4 : Z); ("s5", UC_MIPS_REG_S5 : Z);
     ("s6", UC_MIPS_REG_S6 : Z); ("s7", UC_MIPS_REG_S7 : Z);
     ("t8", UC_MIPS_REG_T8 : Z); ("t9", UC_MIPS_REG_T9 : Z);
     ("k0", UC_MIPS_REG_K0 : Z); ("k1", UC_MIPS_REG_K1 : Z);
     ("gp", UC_MIPS_REG_GP : Z); ("sp", UC_MIPS_REG_SP : Z);
     ("fp", UC_MIPS_REG_FP : Z); ("ra", UC_MIPS_REG_RA : Z);
     ("hi", UC_MIPS_REG_HI : Z); ("lo", UC_MIPS_REG_LO : Z);
     ("pc", UC_MIPS_REG_PC : Z)].

Definition reg_map_ARM64 : gmap string Z :=
  list_to_map
    [("r0", UC_ARM64_REG_X0 : Z); ("r1", UC_ARM64_REG_X1 : Z);
     ("r2", UC_ARM64_REG_X2 : Z); ("r3", UC_ARM64_REG_X3 : Z);
     ("r4", UC_ARM64_REG_X4 : Z); ("r5", UC_ARM64_REG_X5 : Z);
     ("r6", UC_ARM64_REG_X6 : Z); ("r7", UC_ARM64_REG_X7 : Z);
     ("r8", UC_ARM64_REG_X8 : Z); ("r9", UC_ARM64_REG_X9 : Z);
     ("r10", UC_ARM64_REG_X10 : Z); ("r11", UC_ARM64_REG_X11 : Z);
     ("r12", UC_ARM64_REG_X12 : Z); ("r13", UC_ARM64_REG_X13 : Z);
     ("r14", UC_ARM64_REG_X14 : Z); ("r15", UC_ARM64_REG_X15 : Z);
     ("r16", UC_ARM64_REG_X16 : Z); ("r17", UC_ARM64_REG_X17 : Z);
     ("r18", UC_ARM64_REG_X18 : Z); ("r19", UC_ARM64_REG_X19 : Z);
     ("r20", UC_ARM64_REG_X20 : Z); ("r21", UC_ARM64_REG_X21 : Z);
     ("r22", UC_ARM64_REG_X22 : Z); ("r23", UC_ARM64_REG_X23 : Z);
     ("r24", UC_ARM64_REG_X24 : Z); ("r25", UC_ARM64_REG_X25 : Z);
     ("r26", UC_ARM64_REG_X26 : Z); ("r27", UC_ARM64_REG_X27 : Z);
     ("r28", UC_ARM64_REG_X28 : Z);
     ("r29", UC_ARM64_REG_X29 : Z); ("r30", UC_ARM64_REG_X30 : Z);
     ("r31", UC_ARM64_REG_SP : Z); ("sp", UC_ARM64_REG_SP : Z);
     ("pc", UC_ARM64_REG_PC : Z)].

Definition reg_map_X86_64 : gmap string Z :=
  list_to_map
    [("rax", UC_X86_REG_RAX : Z); ("rbx", UC_X86_REG_RBX : Z);
     ("rcx", UC_X86_REG_RCX : Z); ("rdx", UC_X86_REG_RDX : Z);
     ("rdi", UC_X86_REG_RSI : Z); ("rsi", UC_X86_REG_RDI : Z);
     ("rbp", UC_X86_REG_RBP : Z); ("rsp", UC_X86_REG_RSP : Z);
     ("rip", UC_X86_REG_RIP : Z);
     ("r8", UC_X86_REG_R8 : Z); ("r9", UC_X86_REG_R9 : Z);
     ("r10", UC_X86_REG_R10 : Z); ("r11", UC_X86_REG_R11 : Z);
     ("r12", UC_X86_REG_R12 : Z); ("r13", UC_X86_REG_R13 : Z);
     ("r14", UC_X86_REG_R14 : Z); ("r15", UC_X86_REG_R15 : Z)].

Definition reg_map_ARM : gmap string Z :=
  list_to_map
    [("r0", UC_ARM64_REG_W0 : Z); ("r1", UC_ARM64_REG_W1 : Z);
     ("r2", UC_ARM64_REG_W2 : Z); ("r3", UC_ARM64_REG_W3 : Z);
     ("r4", UC_ARM64_REG_W4 : Z); ("r5", UC_ARM64_REG_W5 : Z);
     ("r6", UC_ARM64_REG_W6 : Z); ("r7", UC_ARM64_REG_W7 : Z);
     ("r8", UC_ARM64_REG_W8 : Z); ("r9", UC_ARM64_REG_W9 : Z);
     ("r10", UC_ARM64_REG_W10 : Z); ("r11", UC_ARM64_REG_W11 : Z);
     ("r12", UC_ARM64_REG_W12 : Z); ("r13", UC_ARM64_REG_W13 : Z);
     ("r14", UC_ARM64_REG_W14 : Z); ("r15", UC_ARM64_REG_W15 : Z);
     ("r16", UC_ARM64_REG_W16 : Z); ("r17", UC_ARM64_REG_W17 : Z);
     ("r18", UC_ARM64_REG_W18 : Z); ("r19", UC_ARM64_REG_W19 : Z);
     ("r20", UC_ARM64_REG_W20 : Z); ("r21", UC_ARM64_REG_W21 : Z);
     ("r22", UC_ARM64_REG_W22 : Z); ("r23", UC_ARM64_REG_W23 : Z);
     ("r24", UC_ARM64_REG_W24 : Z); ("r25", UC_ARM64_REG_W25 : Z);
     ("r26", UC_ARM64_REG_W26 : Z); ("r27", UC_ARM64_REG_W27 : Z);
     ("r28", UC_ARM64_REG_W28 : Z);
     ("r29", UC_ARM64_REG_W29 : Z); ("r30", UC_ARM64_REG_W30 : Z);
     ("r31", UC_ARM64_REG_SP : Z); ("sp", UC_ARM64_REG_SP : Z);
     ("pc", UC_ARM64_REG_PC : Z)].

(** The first part of [_reg_map]: the table of the current architecture
    and mode.  [reg_map] keeps its initial [None] when no branch assigns
    it. *)
Definition _reg_map_table : method (option (gmap string Z)) :=
  arch <- gets _arch ;;
  mode <- gets _mode ;;
  if eqv arch uc.UC_ARCH_MIPS then ret (Some reg_map_MIPS)
  else if eqv arch uc.UC_ARCH_ARM64 then ret (Some reg_map_ARM64)
  else if eqv arch uc.UC_ARCH_X86 then
    if eqv mode uc.UC_MODE_16 then raise (Exception "Register map not implemented")
    else if eqv mode uc.UC_MODE_32 then raise (Exception "Register map not implemented")
    else if eqv mode uc.UC_MODE_64 then ret (Some reg_map_X86_64)
    else ret None
  else if eqv arch uc.UC_ARCH_ARM then
    if eqv mode uc.UC_MODE_ARM then ret (Some reg_map_ARM)
    else if eqv mode uc.UC_MODE_THUMB then
      raise (Exception "Register map for ARM thumb-mode not implemented")
    else ret None
  else raise (Exception "Register map not implemented").

(** [_reg_map]: [reg_map.get(reg_name, 0x11223344)]. *)
Definition _reg_map (reg_name : string) : method Z :=
  reg_map <- _reg_map_table ;;
  match reg_map with
  | None => raise (AttributeError "get")
  | Some reg_map => ret (default 0x11223344 (reg_map !! reg_name))
  end.

Definition read_register (reg_name : string) : method Z :=
  reg_idx <- _reg_map reg_name ;;
  uc_query "reg_read" (uc_reg_read reg_idx) (fun e => reg_read e reg_idx).

Definition write_register (register : string) (value : Z) : method unit :=
  reg_idx <- _reg_map register ;;
  uc_update "reg_write" (uc_reg_write reg_idx value)
            (fun e => reg_write e reg_idx value).

(** [self.__uc.reg_read(r)] for each [r] of a list, in order. *)
Definition reg_reads (regs : list Z) : method unit :=
  for_each regs (fun r =>
    uc_query "reg_read" (uc_reg_read r) (fun e => reg_read e r) ;; ret tt).

(** [__show_regs]: the registers are read and logged.  In 16-bit mode the
    ninth read names [UC_X86_REG_PC], which is not defined; the flags are
    formatted for every x86 mode. *)
Definition __show_regs : method unit :=
  try_except
    (arch <- gets _arch ;;
     mode <- gets _mode ;;
     if eqv arch uc.UC_ARCH_MIPS then
       reg_reads
         [UC_MIPS_REG_ZERO : Z; UC_MIPS_REG_AT : Z; UC_MIPS_REG_V0 : Z;
          UC_MIPS_REG_V1 : Z; UC_MIPS_REG_A0 : Z; UC_MIPS_REG_A1 : Z;
          UC_MIPS_REG_A2 : Z; UC_MIPS_REG_A3 : Z; UC_MIPS_REG_T0 : Z;
          UC_MIPS_REG_T1 : Z; UC_MIPS_REG_T2 : Z; UC_MIPS_REG_T3 : Z;
          UC_MIPS_REG_T4 : Z; UC_MIPS_REG_T5 : Z; UC_MIPS_REG_T6 : Z;
          UC_MIPS_REG_T7 : Z; UC_MIPS_REG_S0 : Z; UC_MIPS_REG_S1 : Z;
          UC_MIPS_REG_S2 : Z; UC_MIPS_REG_S3 : Z; UC_MIPS_REG_S4 : Z;
          UC_MIPS_REG_S5 : Z; UC_MIPS_REG_S6 : Z; UC_MIPS_REG_S7 : Z;
          UC_MIPS_REG_GP : Z; UC_MIPS_REG_SP : Z; UC_MIPS_REG_PC : Z;
          UC_MIPS_REG_RA : Z; UC_MIPS_REG_CC7 : Z]
     else if eqv arch uc.UC_ARCH_X86 then
       (if eqv mode uc.UC_MODE_16 then
          reg_reads
            [UC_X86_REG_AX : Z; UC_X86_REG_BX : Z; UC_X86_REG_CX : Z;
             UC_X86_REG_DX : Z; UC_X86_REG_SI : Z; UC_X86_REG_DI : Z;
             UC_X86_REG_BP : Z; UC_X86_REG_SP : Z] ;;
          uc_attr <- attr "reg_read" __uc ;;
          raise (NameError "UC_X86_REG_PC")
        else if eqv mode uc.UC_MODE_32 then
          reg_reads
            [UC_X86_REG_EAX : Z; UC_X86_REG_EBX : Z; UC_X86_REG_ECX : Z;
             UC_X86_REG_EDX : Z; UC_X86_REG_ESI : Z; UC_X86_REG_EDI : Z;
             UC_X86_REG_EBP : Z; UC_X86_REG_ESP : Z; UC_X86_REG_EIP : Z;
             UC_X86_REG_EFLAGS : Z]
        else if eqv mode uc.UC_MODE_64 then
          reg_reads
            [UC_X86_REG_RAX : Z; UC_X86_REG_RBX : Z; UC_X86_REG_RCX : Z;
             UC_X86_REG_RDX : Z; UC_X86_REG_RSI : Z; UC_X86_REG_RDI : Z;
             UC_X86_REG_RBP : Z; UC_X86_REG_RSP : Z; UC_X86_REG_RIP : Z;
             UC_X86_REG_R8 : Z; UC_X86_REG_R9 : Z; UC_X86_REG_R10 : Z;
             UC_X86_REG_R11 : Z; UC_X86_REG_R12 : Z; UC_X86_REG_R13 : Z;
             UC_X86_REG_R14 : Z; UC_X86_REG_R15 : Z; UC_X86_REG_EFLAGS : Z]
        else raise (UnboundLocalError "eflags"))
     else ret tt)
    is_UcError
    (fun e => raise (PimpMyRideException_of e)).

(** [__initialize_hooks] and [__initialize_registers]: [iteritems] of a
    dictionary, in the order of the dictionary. *)
Definition __initialize_hooks : method unit :=
  hooks <- gets __hooks ;;
  for_each (map_to_list hooks) (fun '(hook, cb) =>
    uc_update "hook_add" (uc_hook_add hook cb) (fun e => hook_add e hook cb)).

Definition __initialize_registers : method unit :=
  regs <- gets __regs ;;
  for_each (map_to_list regs) (fun '(reg, value) => write_register reg value).

Definition init_register (register : string) (value : Z) : method unit :=
  modify (fun s => set___regs (<[register := value]> (__regs s)) s).

(** [result] *)
Definition result : method unit := __show_regs.

(** [_show_disasm_inst]: the (mnemonic, operands) of the instructions. *)
Definition _show_disasm_inst (opcodes : string) (addr : Z)
    : method (list (string * string)) :=
  try_except
    (handle <- attr "disasm" __cs ;;
     emit (cs_disasm opcodes addr) ;;
     match disasm handle opcodes addr with
     | inl err => raise err
     | inr l => ret l
     end)
    is_CsError
    (fun err => raise (PimpMyRideException_of err)).

Definition add_code_hook (callback_fn : hook_cb) : method unit :=
  modify (fun s => set___hooks (<[uc.UC_HOOK_CODE := callback_fn]> (__hooks s)) s).

Definition trace_instructions : method unit :=
  add_code_hook bound___code_callback.

(** [cb(address)] for a registered breakpoint callback. *)
Definition call (cb : callback) (address : Z) : method unit :=
  emit (call_callback cb address) ;;
  match cb with
  | bound_breakpoint_callback => ret tt
  | function _ raises =>
      match raises address with
      | Some e => raise e
      | None => ret tt
      end
  end.

(** [__code_callback], up to the assignment of [self.start_address]: the
    registers are shown, the instruction is read and disassembled, and
    the program counter is read through the register map. *)
Definition code_callback_new_pc (address size : Z) : method Z :=
  __show_regs ;;
  opcodes <- uc_query "mem_read" (uc_mem_read address size)
                      (fun e => mem_read e address size) ;;
  disasm <- _show_disasm_inst opcodes address ;;
  arch <- gets _arch ;;
  mode <- gets _mode ;;
  new_pc <-
    (if eqv arch uc.UC_ARCH_MIPS then
       pc <- read_register "pc" ;; ret (Some pc)
     else if eqv arch uc.UC_ARCH_X86 then
       if eqv mode uc.UC_MODE_16 then raise (Exception "get PC map not implemented")
       else if eqv mode uc.UC_MODE_32 then raise (Exception "get PC not implemented")
       else if eqv mode uc.UC_MODE_64 then
         pc <- read_register "rip" ;; ret (Some pc)
       else ret None
     else raise (Exception "get PC not implemented for current architecture")) ;;
  match disasm with
  | [] => raise (IndexError "list index out of range")
  | _ :: _ =>
      match new_pc with
      | None => raise (UnboundLocalError "new_pc")
      | Some new_pc => ret new_pc
      end
  end.

(** [__code_callback], from the breakpoint check on. *)
Definition code_callback_breakpoint (address : Z) : method unit :=
  bps <- gets breakpoints ;;
  if bool_decide (address ∈ bps) then
    uc_update "emu_stop" uc_emu_stop emu_stop ;;
    cbs <- gets breakpoints_callback ;;
    for_each cbs (fun cb => call cb address)
  else ret tt.

Definition __code_callback (address size : Z) : method unit :=
  try_except
    (new_pc <- code_callback_new_pc address size ;;
     modify (set_start_address (Some new_pc)) ;;
     code_callback_breakpoint address)
    is_UcError
    (fun err => ret tt).

(** What the engine runs for an installed hook. *)
Definition run_hook (cb : hook_cb) (address size : Z) : method unit :=
  match cb with
  | bound___code_callback => __code_callback address size
  | hook_function id => emit (call_hook id address size)
  end.

(** [init] *)
Definition init : method unit :=
  arch <- gets _arch ;;
  mode <- gets _mode ;;
  start_address <- gets _start_address ;;
  return_address <- gets _return_address ;;
  areas <- gets __memory_areas ;;
  contents <- gets __memory_contents ;;
  match arch, mode with
  | None, _ | Some 0, _ => raise (PimpMyRideException "Architecture not specified")
  | _, None => raise (PimpMyRideException "Mode not specified")
  | Some arch, Some mode =>
      if bool_decide (start_address = None) then
        raise (PimpMyRideException "Start address not specified")
      else if bool_decide (return_address = None) then
        raise (PimpMyRideException "Return address not specified")
      else if bool_decide (areas = []) then
        raise (PimpMyRideException "No memory areas specified")
      else if bool_decide (contents = []) then
        raise (PimpMyRideException "No memory contents specified")
      else
        emit (uc_Uc arch mode) ;;
        match Uc arch mode with
        | inl err => raise err
        | inr e =>
            modify (set___uc (Some e)) ;;
            cs_arch <- gets _cs_arch ;;
            cs_mode <- gets _cs_mode ;;
            emit (cs_Cs cs_arch cs_mode) ;;
            match Cs cs_arch cs_mode with
            | inl err => raise err
            | inr _ =>
                modify (set___cs (Some (cs_arch, cs_mode))) ;;
                __initialize_memory ;;
                __initialize_hooks ;;
                __initialize_registers
            end
        end
  end.

(** [start]: the message of the first log line formats
    [self.start_address] as a number; a [UcError] of the run is logged,
    the registers are shown, and the [raise] that follows is commented
    out in the source. *)
Definition start (count timeout : Z) : method unit :=
  try_except
    (start_address <- gets _start_address ;;
     match start_address with
     | None => raise (TypeError "%X format: a number is required, not NoneType")
     | Some start_address =>
         uc_attr <- attr "emu_start" __uc ;;
         return_address <- gets _return_address ;;
         match return_address with
         | None => raise (TypeError "an integer is required")
         | Some return_address =>
             emit (uc_emu_start start_address return_address timeout count) ;;
             emu_start run_hook start_address return_address timeout count
         end
     end)
    is_UcError
    (fun err => __show_regs).

Definition add_breakpoint_callback (cb : callback) : method unit :=
  modify (fun s => set_breakpoints_callback (breakpoints_callback s ++ [cb]) s).

Definition set_breakpoint (addr : Z) : method unit :=
  modify (fun s => set_breakpoints (breakpoints s ++ [addr]) s).

Definition remove_breakpoint (addr : Z) : method unit :=
  bps <- gets breakpoints ;;
  if bool_decide (addr ∈ bps) then
    modify (set_breakpoints (list_remove addr bps))
  else ret tt.

(** [_get_bit]: the bit of [value] at [offset], as 0 or 1.  [1 << offset]
    raises [ValueError] for a negative [offset]: [None] stands for it. *)
Definition _get_bit (value offset : Z) : option Z :=
  if bool_decide (offset < 0) then None
  else
    let mask := Z.shiftl 1 offset in
    Some (if bool_decide (Z.land value mask > 0) then 1 else 0).

(** The I/O privilege level as [__show_regs] formats it:
    [_get_bit(eflags, 12) + _get_bit(eflags, 13) * 2]. *)
Definition IOPL (eflags : Z) : option Z :=
  match _get_bit eflags 12, _get_bit eflags 13 with
  | Some lo, Some hi => Some (lo + hi * 2)
  | _, _ => None
  end.

End Session.

End pimp_my_ride.

(** * The standard library used by the adapter: [struct] and hex strings *)

(** The size in bytes of a format character; the sessions only produce
    ['H'], ['I'] and ['Q']. *)
Definition format_size (c : ascii) : option nat :=
  if Ascii.eqb c "H" then Some 2%nat
  else if Ascii.eqb c "I" then Some 4%nat
  else if Ascii.eqb c "Q" then Some 8%nat
  else None.

Definition byte_of (n : Z) : ascii := ascii_of_N (Z.to_N (n mod 256)).

Definition Z_of_byte (c : ascii) : Z := Z.of_N (N_of_ascii c).

(** The [size] low bytes of [v], least significant first. *)
Fixpoint le_bytes (size : nat) (v : Z) : list ascii :=
  match size with
  | O => []
  | S k => byte_of v :: le_bytes k (v / 256)
  end.

Fixpoint le_value (bytes : list ascii) : Z :=
  match bytes with
  | [] => 0
  | c :: bytes' => Z_of_byte c + 256 * le_value bytes'
  end.

(** The byte order character of a format: [Some true] for little endian. *)
Definition byte_order (c : ascii) : option bool :=
  if Ascii.eqb c "<" then Some true
  else if Ascii.eqb c ">" then Some false
  else None.

Definition order_bytes (little : bool) (bytes : list ascii) : list ascii :=
  if little then bytes else rev bytes.

(** [struct.pack(fmt, v)] for a format of a byte order and one character. *)
Definition struct_pack (fmt : string) (v : Z) : exn + string :=
  match fmt with
  | String o (String c EmptyString) =>
      match byte_order o, format_size c with
      | Some little, Some size =>
          if bool_decide (0 <= v < 256 ^ Z.of_nat size) then
            inr (string_of_list_ascii (order_bytes little (le_bytes size v)))
          else inl (struct_error "integer out of range for format code")
      | _, _ => inl (struct_error "bad char in struct format")
      end
  | _ => inl (struct_error "pack requires exactly 1 argument")
  end.

(** The values of [data] under the format characters [cs], in order. *)
Fixpoint unpack_values (little : bool) (cs : list ascii) (data : list ascii)
    : option (list Z) :=
  match cs with
  | [] => match data with [] => Some [] | _ :: _ => None end
  | c :: cs' =>
      match format_size c with
      | None => None
      | Some size =>
          if bool_decide (size <= List.length data)%nat then
            match unpack_values little cs' (drop size data) with
            | Some vs => Some (le_value (order_bytes little (take size data)) :: vs)
            | None => None
            end
          else None
      end
  end.

(** [struct.unpack(fmt, data)] for a format of a byte order and any
    number of characters: the length of [data] must be the size of the
    format. *)
Definition struct_unpack (fmt : string) (data : string) : exn + list Z :=
  match fmt with
  | String o cs =>
      match byte_order o with
      | Some little =>
          match unpack_values little (list_ascii_of_string cs)
                              (list_ascii_of_string data) with
          | Some vs => inr vs
          | None => inl (struct_error "unpack requires a string argument of the length of the format")
          end
      | None => inl (struct_error "bad char in struct format")
      end
  | EmptyString =>
      if bool_decide (data = "") then inr []
      else inl (struct_error "unpack requires a string argument of length 0")
  end.

Definition hex_digit (n : Z) : ascii :=
  if bool_decide (n < 10) then ascii_of_N (Z.to_N (48 + n))
  else ascii_of_N (Z.to_N (87 + n)).

(** [s.encode("hex")]: two lower-case digits for each byte. *)
Fixpoint hex_encode (s : string) : string :=
  match s with
  | EmptyString => EmptyString
  | String c s' =>
      String (hex_digit (Z_of_byte c / 16))
        (String (hex_digit (Z_of_byte c mod 16)) (hex_encode s'))
  end.

Definition hex_value (c : ascii) : option Z :=
  let n := Z_of_byte c in
  if bool_decide (48 <= n <= 57) then Some (n - 48)
  else if bool_decide (97 <= n <= 102) then Some (n - 87)
  else if bool_decide (65 <= n <= 70) then Some (n - 55)
  else None.

(** Modelled from the spec: [hexDecode] of [gdbserver.utility] is not
    under src/.  [set_register_context] is the inverse of
    [register_context], which ends with [.encode("hex")]: [hexDecode] is
    the decoding of a string of hexadecimal digits, two for each byte,
    and raises on a string that is not one. *)
Fixpoint hexDecode (cmd : string) : exn + string :=
  match cmd with
  | EmptyString => inr EmptyString
  | String hi (String lo cmd') =>
      match hex_value hi, hex_value lo, hexDecode cmd' with
      | Some h, Some l, inr s => inr (String (byte_of (16 * h + l)) s)
      | Some _, Some _, inl e => inl e
      | _, _, _ => inl (TypeError "Non-hexadecimal digit found")
      end
  | String _ EmptyString => inl (TypeError "Odd-length string")
  end.

(** [s.lower()] on a byte string: the letters A to Z only. *)
Definition lower_char (c : ascii) : ascii :=
  if bool_decide (65 <= Z_of_byte c <= 90) then byte_of (Z_of_byte c + 32) else c.

Fixpoint lower (s : string) : string :=
  match s with
  | EmptyString => EmptyString
  | String c s' => String (lower_char c) (lower s')
  end.

(** [sep.join(l)] *)
Fixpoint str_join (sep : string) (l : list string) : string :=
  match l with
  | [] => ""
  | [x] => x
  | x :: l' => x +:+ sep +:+ str_join sep l'
  end.

(** * [target/target.py] and [target/emulated_target.py] *)

Module target.
Import pimp_my_ride.

Definition TARGET_RUNNING : Z := Z.shiftl 1 0.
Definition TARGET_HALTED : Z := Z.shiftl 1 1.

Definition CORE_REGISTER : gmap string Z :=
  list_to_map
    [("rax", 0); ("rcx", 1); ("rbx", 2); ("rdx", 3); ("rsi", 4); ("rdi", 5);
     ("rbp", 6); ("rsp", 7); ("r8", 8); ("r9", 9); ("r10", 10); ("r11", 11);
     ("r12", 12); ("r13", 13); ("r14", 14); ("r15", 15); ("rip", 16)].

(** [EmulatedTargetX86_64.RegisterInfo]; [gdb_xml_attrib] holds the last
    four arguments as strings.  Every name of [regs_general] is a key of
    [CORE_REGISTER], so [CORE_REGISTER[name]] does not raise there. *)
Record RegisterInfo : Type := {
  name : string;
  reg_num : Z;
  bitsize : Z;
  reg_type : string;
  reg_group : string
}.

Definition RegisterInfo__init__ (name : string) (bitsize : Z)
    (reg_type reg_group : string) : RegisterInfo :=
  {| name := name; reg_num := default 0 (CORE_REGISTER !! name);
     bitsize := bitsize; reg_type := reg_type; reg_group := reg_group |}.

Definition regs_general : list RegisterInfo :=
  [RegisterInfo__init__ "rax" 32 "int" "general";
   RegisterInfo__init__ "rcx" 32 "int" "general";
   RegisterInfo__init__ "rbx" 32 "int" "general";
   RegisterInfo__init__ "rdx" 32 "int" "general";
   RegisterInfo__init__ "rsi" 32 "int" "general";
   RegisterInfo__init__ "rdi" 32 "int" "general";
   RegisterInfo__init__ "rbp" 32 "int" "general";
   RegisterInfo__init__ "rsp" 32 "int" "general";
   RegisterInfo__init__ "r8" 32 "int" "general";
   RegisterInfo__init__ "r9" 32 "int" "general";
   RegisterInfo__init__ "r10" 32 "int" "general";
   RegisterInfo__init__ "r11" 32 "int" "general";
   RegisterInfo__init__ "r12" 32 "int" "general";
   RegisterInfo__init__ "r13" 32 "data_ptr" "general";
   RegisterInfo__init__ "r14" 32 "int" "general";
   RegisterInfo__init__ "r15" 32 "code_ptr" "general";
   RegisterInfo__init__ "rip" 32 "int" "general"].

(** The adapter object.  [transport], [flash] and [part_number] are set
    by [Target.__init__] and never read; they are left out. *)
Record Target (E : Type) : Type := {
  emu : PimpMyRide E;
  endian : string;
  pack_format : string;
  step : Z;
  _state : option Z;
  register_list : option (list RegisterInfo)
}.
Arguments emu {E} _.
Arguments endian {E} _.
Arguments pack_format {E} _.
Arguments step {E} _.
Arguments _state {E} _.
Arguments register_list {E} _.

Section Adapter.
Context {E : Type} `{!Unicorn E} `{!Capstone} `{!RegIds}.

Abbreviation method A := (M (Target E) A).
Implicit Type t : Target E.

Definition set_emu (v : PimpMyRide E) t : Target E :=
  {| emu := v; endian := endian t; pack_format := pack_format t;
     step := step t; _state := _state t; register_list := register_list t |}.

Definition set_state (v : option Z) t : Target E :=
  {| emu := emu t; endian := endian t; pack_format := pack_format t;
     step := step t; _state := v; register_list := register_list t |}.

Definition set_register_list (v : option (list RegisterInfo)) t : Target E :=
  {| emu := emu t; endian := endian t; pack_format := pack_format t;
     step := step t; _state := _state t; register_list := v |}.

(** [breakpoint_callback] *)
Definition breakpoint_callback (address : Z) : method unit :=
  modify (set_state (Some TARGET_HALTED)).

(** The adapter runs its bound method where the session called it: the
    calls of [bound_breakpoint_callback] recorded by a method of the
    session are applied to the adapter, in order. *)
Definition dispatch (tr : list event) t : Target E :=
  foldl (fun t ev =>
           match ev with
           | call_callback bound_breakpoint_callback address =>
               final (breakpoint_callback address t)
           | _ => t
           end) t tr.

(** [self.emu.m(...)] for a method [m] of the session. *)
Definition on_emu {A} (m : M (PimpMyRide E) A) : method A :=
  fun t =>
    let o := m (emu t) in
    Outcome (res o) (dispatch (trace o) (set_emu (final o) t)) (trace o).

(** [Target.__init__]; [EmulatedTargetX86_64.__init__] adds a logger. *)
Definition Target__init__ (emu : PimpMyRide E) : exn + Target E :=
  let emu := final (add_breakpoint_callback bound_breakpoint_callback emu) in
  match pimp_my_ride.pack_endian (setup emu) with
  | None => inl (AttributeError "pack_endian")
  | Some endian =>
      match pimp_my_ride.pack_format (setup emu) with
      | None => inl (AttributeError "pack_format")
      | Some pack_format =>
          match pimp_my_ride.step (setup emu) with
          | None => inl (AttributeError "step")
          | Some step =>
              inr {| emu := emu; endian := endian; pack_format := pack_format;
                     step := step; _state := None; register_list := None |}
          end
      end
  end.

Definition EmulatedTargetX86_64__init__ (emu : PimpMyRide E) : exn + Target E :=
  Target__init__ emu.

(** [init] *)
Definition init (initial_setup bus_accessible : bool) : method unit :=
  on_emu pimp_my_ride.init ;;
  if bus_accessible then modify (set_register_list (Some regs_general))
  else ret tt.

Definition halt : method unit :=
  modify (set_state (Some TARGET_HALTED)) ;;
  on_emu stop.

Definition resume (count : Z) : method unit :=
  modify (set_state (Some TARGET_RUNNING)) ;;
  on_emu (start count 0).

Definition writeMemory (addr : Z) (value : string) : method unit :=
  on_emu (write_memory addr value) ;; ret tt.

Definition readMemory (addr transfer_size : Z) : method string :=
  on_emu (read_memory addr transfer_size).

Definition setBreakpoint (address : Z) : method unit :=
  on_emu (set_breakpoint address).

Definition removeBreakpoint (address : Z) : method unit :=
  on_emu (remove_breakpoint address).

(** The loop of [getRegisterContext]; [resp] is the string built so far. *)
Fixpoint getRegisterContext_loop (regs : list RegisterInfo) (resp : string)
    : method string :=
  match regs with
  | [] => ret resp
  | reg :: regs' =>
      regValue <- on_emu (read_register (name reg)) ;;
      fmt <- gets (fun t => endian t +:+ pack_format t) ;;
      match struct_pack fmt regValue with
      | inl err => raise err
      | inr packed => getRegisterContext_loop regs' (resp +:+ hex_encode packed)
      end
  end.

Definition getRegisterContext : method string :=
  register_list <- attr "register_list" register_list ;;
  getRegisterContext_loop register_list "".

(** [setRegisterContext]; [len(data)/self.step] is the floor division of
    Python 2. *)
Definition setRegisterContext (data : string) : method unit :=
  match hexDecode data with
  | inl err => raise err
  | inr data =>
      endian <- gets endian ;;
      pack_format <- gets pack_format ;;
      step <- gets step ;;
      if bool_decide (step = 0) then
        raise (ZeroDivisionError "integer division or modulo by zero")
      else
        match struct_unpack (endian +:+ str_mul pack_format (len data / step)) data with
        | inl err => raise err
        | inr regs_values =>
            for_each (zip (seq 0 (List.length regs_values)) regs_values)
              (fun '(i, value) =>
                 match regs_general !! i with
                 | None => raise (IndexError "list index out of range")
                 | Some reg => on_emu (write_register (name reg) value)
                 end)
        end
  end.

(** [registerNameToIndex]: [reg] is a name or an index.  A name is
    looked up in lower case; [if not reg] is true for a name that is not
    a key and for the index 0. *)
Definition registerNameToIndex (reg : string + Z) : option Z :=
  match reg with
  | inl reg =>
      match CORE_REGISTER !! lower reg with
      | Some reg => if bool_decide (reg = 0) then None else Some reg
      | None => None
      end
  | inr reg => Some reg
  end.

(** [readCoreRegistersRaw]: what is left of it appends the position of
    each register of the list. *)
Definition readCoreRegistersRaw (reg_list : list (string + Z)) : list Z :=
  let reg_list := registerNameToIndex <$> reg_list in
  imap (fun index reg => Z.of_nat index) reg_list.

(** [struct.pack(self.endian + self.pack_format, regValue).encode("hex")] *)
Definition encode_register (regValue : Z) : method string :=
  fmt <- gets (fun t => endian t +:+ pack_format t) ;;
  match struct_pack fmt regValue with
  | inl err => raise err
  | inr packed => ret (hex_encode packed)
  end.

(** [getTResponse] *)
Definition getTResponse (gdbInterrupt : bool) : method string :=
  regValue <- on_emu (read_register "rsp") ;;
  enc_reg <- encode_register regValue ;;
  let resp := ["T0506:0 *,"; "07:" +:+ enc_reg] in
  regValue <- on_emu (read_register "rip") ;;
  enc_reg <- encode_register regValue ;;
  let resp := resp ++ ["10:" +:+ enc_reg] in
  let resp := resp ++ ["thread:26a "; "core:1"] in
  ret (str_join ";" resp).

End Adapter.

End target.

(** * A reference engine

    A small machine that answers the requests of the session the way the
    engine's documentation describes them: memory is mapped by pages and
    regions may not overlap, an access outside the mapped regions fails,
    registers hold 64-bit values.  It runs straight-line code of one-byte
    instructions.  The properties stated for every engine do not depend
    on it; it is the engine of the examples. *)

Module reference.
Import pimp_my_ride.

Definition UC_ERR_READ_UNMAPPED : Z := 6.
Definition UC_ERR_WRITE_UNMAPPED : Z := 7.
Definition UC_ERR_FETCH_UNMAPPED : Z := 8.
Definition UC_ERR_MAP : Z := 11.
Definition UC_ERR_ARG : Z := 15.

Record machine : Type := {
  arch : Z;
  mode : Z;
  regions : list (Z * Z);
  memory : list (Z * string);      (* the writes, the latest first *)
  registers : gmap Z Z;
  hooks : list (Z * hook_cb);
  stop_request : bool
}.

Definition mapped (e : machine) (a : Z) : bool :=
  existsb (fun '(base, size) => bool_decide (base <= a < base + size)) (regions e).

Definition range_mapped (e : machine) (a n : Z) : bool :=
  forallb (mapped e) (seqZ a n).

Definition power_on (arch mode : Z) : exn + machine :=
  inr {| arch := arch; mode := mode; regions := []; memory := [];
         registers := ∅; hooks := []; stop_request := false |}.

Definition map_region (e : machine) (address size : Z) (perm : option Z)
    : exn + machine :=
  if bool_decide (size <= 0 ∨ address `mod` 4096 ≠ 0 ∨ size `mod` 4096 ≠ 0) then
    inl (UcError UC_ERR_ARG)
  else if existsb (fun '(base, sz) =>
                     bool_decide (address < base + sz ∧ base < address + size))
                  (regions e) then
    inl (UcError UC_ERR_MAP)
  else
    inr {| arch := arch e; mode := mode e;
           regions := regions e ++ [(address, size)]; memory := memory e;
           registers := registers e; hooks := hooks e;
           stop_request := stop_request e |}.

(** The byte at an address: that of the latest write that covers it, zero
    where nothing was written. *)
Fixpoint byte_at (writes : list (Z * string)) (a : Z) : ascii :=
  match writes with
  | [] => "000"%char
  | (base, content) :: writes' =>
      if bool_decide (base <= a < base + len content) then
        default "000"%char (String.get (Z.to_nat (a - base)) content)
      else byte_at writes' a
  end.

Definition read_bytes (e : machine) (address size : Z) : exn + string :=
  if range_mapped e address size then
    inr (string_of_list_ascii (byte_at (memory e) <$> seqZ address size))
  else inl (UcError UC_ERR_READ_UNMAPPED).

Definition write_bytes (e : machine) (address : Z) (content : string)
    : exn + machine :=
  if range_mapped e address (len content) then
    inr {| arch := arch e; mode := mode e; regions := regions e;
           memory := (address, content) :: memory e;
           registers := registers e; hooks := hooks e;
           stop_request := stop_request e |}
  else inl (UcError UC_ERR_WRITE_UNMAPPED).

Definition read_reg (e : machine) (reg : Z) : exn + Z :=
  inr (default 0 (registers e !! reg)).

Definition set_reg (e : machine) (reg value : Z) : machine :=
  {| arch := arch e; mode := mode e; regions := regions e; memory := memory e;
     registers := <[reg := value `mod` 2 ^ 64]> (registers e); hooks := hooks e;
     stop_request := stop_request e |}.

Definition write_reg (e : machine) (reg value : Z) : exn + machine :=
  inr (set_reg e reg value).

Definition add_hook (e : machine) (hook : Z) (cb : hook_cb) : exn + machine :=
  inr {| arch := arch e; mode := mode e; regions := regions e; memory := memory e;
         registers := registers e; hooks := hooks e ++ [(hook, cb)];
         stop_request := stop_request e |}.

Definition set_stop (v : bool) (e : machine) : machine :=
  {| arch := arch e; mode := mode e; regions := regions e; memory := memory e;
     registers := registers e; hooks := hooks e; stop_request := v |}.

Definition request_stop (e : machine) : exn + machine := inr (set_stop true e).

Section Run.
Context `{!RegIds}.

(** The id of the program counter of the machine. *)
Definition pc_reg (e : machine) : Z :=
  if bool_decide (arch e = uc.UC_ARCH_MIPS) then UC_MIPS_REG_PC
  else if bool_decide (arch e = uc.UC_ARCH_ARM) then UC_ARM_REG_PC
  else if bool_decide (arch e = uc.UC_ARCH_ARM64) then UC_ARM64_REG_PC
  else if bool_decide (mode e = uc.UC_MODE_64) then UC_X86_REG_RIP
  else UC_X86_REG_EIP.

(** One instruction at a time: the program counter is stored, the code
    hooks run, and the instruction (one byte, no effect) is executed
    unless a hook asked to stop. *)
Fixpoint run_from (fuel : nat) (run : hook_cb -> Z -> Z -> M (PimpMyRide machine) unit)
    (pc until count executed : Z) : M (PimpMyRide machine) unit :=
  match fuel with
  | O => ret tt
  | S fuel' =>
      if bool_decide (pc = until ∨ (0 < count ∧ count <= executed)) then ret tt
      else
        e <- attr "emu_start" __uc ;;
        if negb (mapped e pc) then raise (UcError UC_ERR_FETCH_UNMAPPED)
        else
          modify (set___uc (Some (set_reg e (pc_reg e) pc))) ;;
          for_each (filter (fun h => h.1 = uc.UC_HOOK_CODE) (hooks e))
                   (fun h => run h.2 pc 1) ;;
          e <- attr "emu_start" __uc ;;
          if stop_request e then ret tt
          else run_from fuel' run (pc + 1) until count (executed + 1)
  end.

Definition run_machine (run : hook_cb -> Z -> Z -> M (PimpMyRide machine) unit)
    (begin until timeout count : Z) : M (PimpMyRide machine) unit :=
  e <- attr "emu_start" __uc ;;
  modify (set___uc (Some (set_stop false e))) ;;
  run_from (S (Z.to_nat (foldr (fun r n => r.2 + n) 0 (regions e))))
           run begin until count 0.

#[export] Instance machine_Unicorn : Unicorn machine := {|
  Uc := power_on;
  mem_map := map_region;
  mem_read := read_bytes;
  mem_write := write_bytes;
  reg_read := read_reg;
  reg_write := write_reg;
  hook_add := add_hook;
  emu_stop := request_stop;
  emu_start := run_machine
|}.

End Run.

(** A disassembler that reads every byte as a [nop]. *)
#[export] Instance nop_Capstone : Capstone := {|
  Cs := fun _ _ => inr tt;
  disasm := fun _ code offset =>
    inr ((fun _ => ("nop", "")) <$> list_ascii_of_string code)
|}.

(** The numbers of the register constants in the 1.0 binding of the
    engine. *)
#[export] Instance unicorn_1_0 : RegIds := fun r =>
  match r with
  | UC_MIPS_REG_PC => 1 | UC_MIPS_REG_ZERO => 2 | UC_MIPS_REG_AT => 3
  | UC_MIPS_REG_V0 => 4 | UC_MIPS_REG_V1 => 5
  | UC_MIPS_REG_A0 => 6 | UC_MIPS_REG_A1 => 7 | UC_MIPS_REG_A2 => 8
  | UC_MIPS_REG_A3 => 9
  | UC_MIPS_REG_T0 => 10 | UC_MIPS_REG_T1 => 11 | UC_MIPS_REG_T2 => 12
  | UC_MIPS_REG_T3 => 13 | UC_MIPS_REG_T4 => 14 | UC_MIPS_REG_T5 => 15
  | UC_MIPS_REG_T6 => 16 | UC_MIPS_REG_T7 => 17
  | UC_MIPS_REG_S0 => 18 | UC_MIPS_REG_S1 => 19 | UC_MIPS_REG_S2 => 20
  | UC_MIPS_REG_S3 => 21 | UC_MIPS_REG_S4 => 22 | UC_MIPS_REG_S5 => 23
  | UC_MIPS_REG_S6 => 24 | UC_MIPS_REG_S7 => 25
  | UC_MIPS_REG_T8 => 26 | UC_MIPS_REG_T9 => 27
  | UC_MIPS_REG_K0 => 28 | UC_MIPS_REG_K1 => 29
  | UC_MIPS_REG_GP => 30 | UC_MIPS_REG_SP => 31 | UC_MIPS_REG_FP => 32
  | UC_MIPS_REG_RA => 33 | UC_MIPS_REG_CC7 => 56
  | UC_MIPS_REG_HI => 129 | UC_MIPS_REG_LO => 130
  | UC_ARM64_REG_X29 => 1 | UC_ARM64_REG_X30 => 2 | UC_ARM64_REG_LR => 2
  | UC_ARM64_REG_SP => 4 | UC_ARM64_REG_PC => 260
  | UC_ARM64_REG_W0 => 168 | UC_ARM64_REG_W1 => 169 | UC_ARM64_REG_W2 => 170
  | UC_ARM64_REG_W3 => 171 | UC_ARM64_REG_W4 => 172 | UC_ARM64_REG_W5 => 173
  | UC_ARM64_REG_W6 => 174 | UC_ARM64_REG_W7 => 175 | UC_ARM64_REG_W8 => 176
  | UC_ARM64_REG_W9 => 177 | UC_ARM64_REG_W10 => 178 | UC_ARM64_REG_W11 => 179
  | UC_ARM64_REG_W12 => 180 | UC_ARM64_REG_W13 => 181 | UC_ARM64_REG_W14 => 182
  | UC_ARM64_REG_W15 => 183 | UC_ARM64_REG_W16 => 184 | UC_ARM64_REG_W17 => 185
  | UC_ARM64_REG_W18 => 186 | UC_ARM64_REG_W19 => 187 | UC_ARM64_REG_W20 => 188
  | UC_ARM64_REG_W21 => 189 | UC_ARM64_REG_W22 => 190 | UC_ARM64_REG_W23 => 191
  | UC_ARM64_REG_W24 => 192 | UC_ARM64_REG_W25 => 193 | UC_ARM64_REG_W26 => 194
  | UC_ARM64_REG_W27 => 195 | UC_ARM64_REG_W28 => 196 | UC_ARM64_REG_W29 => 197
  | UC_ARM64_REG_W30 => 198
  | UC_ARM64_REG_X0 => 199 | UC_ARM64_REG_X1 => 200 | UC_ARM64_REG_X2 => 201
  | UC_ARM64_REG_X3 => 202 | UC_ARM64_REG_X4 => 203 | UC_ARM64_REG_X5 => 204
  | UC_ARM64_REG_X6 => 205 | UC_ARM64_REG_X7 => 206 | UC_ARM64_REG_X8 => 207
  | UC_ARM64_REG_X9 => 208 | UC_ARM64_REG_X10 => 209 | UC_ARM64_REG_X11 => 210
  | UC_ARM64_REG_X12 => 211 | UC_ARM64_REG_X13 => 212 | UC_ARM64_REG_X14 => 213
  | UC_ARM64_REG_X15 => 214 | UC_ARM64_REG_X16 => 215 | UC_ARM64_REG_X17 => 216
  | UC_ARM64_REG_X18 => 217 | UC_ARM64_REG_X19 => 218 | UC_ARM64_REG_X20 => 219
  | UC_ARM64_REG_X21 => 220 | UC_ARM64_REG_X22 => 221 | UC_ARM64_REG_X23 => 222
  | UC_ARM64_REG_X24 => 223 | UC_ARM64_REG_X25 => 224 | UC_ARM64_REG_X26 => 225
  | UC_ARM64_REG_X27 => 226 | UC_ARM64_REG_X28 => 227
  | UC_ARM_REG_LR => 10 | UC_ARM_REG_PC => 11 | UC_ARM_REG_SP => 12
  | UC_ARM_REG_R0 => 66 | UC_ARM_REG_R1 => 67 | UC_ARM_REG_R2 => 68
  | UC_ARM_REG_R3 => 69
  | UC_X86_REG_AX => 3 | UC_X86_REG_BP => 6 | UC_X86_REG_BX => 8
  | UC_X86_REG_CX => 12 | UC_X86_REG_DI => 14 | UC_X86_REG_DX => 18
  | UC_X86_REG_EAX => 19 | UC_X86_REG_EBP => 20 | UC_X86_REG_EBX => 21
  | UC_X86_REG_ECX => 22 | UC_X86_REG_EDI => 23 | UC_X86_REG_EDX => 24
  | UC_X86_REG_EFLAGS => 25 | UC_X86_REG_EIP => 26 | UC_X86_REG_ESI => 29
  | UC_X86_REG_ESP => 30
  | UC_X86_REG_RAX => 35 | UC_X86_REG_RBP => 36 | UC_X86_REG_RBX => 37
  | UC_X86_REG_RCX => 38 | UC_X86_REG_RDI => 39 | UC_X86_REG_RDX => 40
  | UC_X86_REG_RIP => 41 | UC_X86_REG_RSI => 43 | UC_X86_REG_RSP => 44
  | UC_X86_REG_SI => 45 | UC_X86_REG_SP => 47
  | UC_X86_REG_R8 => 106 | UC_X86_REG_R9 => 107 | UC_X86_REG_R10 => 108
  | UC_X86_REG_R11 => 109 | UC_X86_REG_R12 => 110 | UC_X86_REG_R13 => 111
  | UC_X86_REG_R14 => 112 | UC_X86_REG_R15 => 113
  end.

End reference.

(** * Sessions of the examples, on the reference engine *)

Module demo.
Import pimp_my_ride reference.

(** The object of a constructor call that did not raise. *)
Definition new (r : exn + PimpMyRide machine) : PimpMyRide machine :=
  match r with
  | inr s => s
  | inl _ =>
      {| __uc := None; __cs := None; _code := None; _start_address := None;
         _return_address := None; __memory_areas := []; __memory_contents := [];
         stack := 0; stack_size := 0; compiler := 0; breakpoints := [];
         breakpoints_callback := []; _arch := None; _mode := None;
         _cs_arch := 0; _cs_mode := 0; __regs := ∅; __hooks := ∅;
         setup := no_setup |}
  end.

(** Three one-byte instructions. *)
Definition stub : string :=
  String "195"%char (String "195"%char (String "195"%char "")).

(** A code area at 0x1000 holding the stub, tracing on, a breakpoint on
    the second instruction, and one function registered as breakpoint
    callback. *)
Definition configure : M (PimpMyRide machine) unit :=
  add_memory_area 0x1000 0x100 ;;
  add_memory_content 0x1000 stub ;;
  start_address_setter (Some 0x1000) ;;
  return_address_setter (Some 0x1003) ;;
  trace_instructions ;;
  add_breakpoint_callback (function 7 (fun _ => None)) ;;
  set_breakpoint 0x1001.

(** An x64 session whose requested stack base, 0x70000800, is not on a
    page boundary. *)
Definition x64 : PimpMyRide machine :=
  Eval vm_compute in
  final (configure (new (PimpMyRide__init__ "x64" 64 true 0x70000800 1 COMPILE_GCC))).

Definition x64_ready : PimpMyRide machine := Eval vm_compute in final (init x64).

(** The same session when [init] has created its engine and its
    disassembler and is about to initialise the memory. *)
Definition x64_powered : PimpMyRide machine :=
  Eval vm_compute in
  set___cs (Some (cs.CS_ARCH_X86, cs.CS_MODE_64))
           (set___uc (match power_on uc.UC_ARCH_X86 uc.UC_MODE_64 with
                      | inr e => Some e
                      | inl _ => None
                      end) x64).

(** The engine of a session that has one. *)
Definition engine_of (s : PimpMyRide machine) : machine :=
  default {| arch := 0; mode := 0; regions := []; memory := []; registers := ∅;
             hooks := []; stop_request := false |} (__uc s).

(** The same session started where nothing is mapped. *)
Definition x64_astray : PimpMyRide machine :=
  Eval vm_compute in final (start_address_setter (Some 0x5000) x64_ready).

Definition aarch64 : PimpMyRide machine :=
  Eval vm_compute in
  final (configure (new (PimpMyRide__init__ "AArch64" 64 true 0x70000000 1 COMPILE_GCC))).

(** The adapter of a constructor call that did not raise. *)
Definition new_target (r : exn + target.Target machine) : target.Target machine :=
  match r with
  | inr t => t
  | inl _ =>
      {| target.emu := new (inl (Exception "")); target.endian := "";
         target.pack_format := ""; target.step := 0; target._state := None;
         target.register_list := None |}
  end.

(** The adapter over the AArch64 session, initialised. *)
Definition aarch64_target : target.Target machine :=
  Eval vm_compute in
  final (target.init true true (new_target (target.Target__init__ aarch64))).

(** Two areas that touch: [0x1000, 0x2000) and [0x2000, 0x3000). *)
Definition contiguous : PimpMyRide machine :=
  Eval vm_compute in
  final ((add_memory_area 0x1000 0x1000 ;;
          add_memory_area 0x2000 0x1000 ;;
          add_memory_content 0x1000 stub ;;
          start_address_setter (Some 0x1000) ;;
          return_address_setter (Some 0x1003))
         (new (PimpMyRide__init__ "x64" 64 true 0x70000000 1 COMPILE_GCC))).

(** One area, [0xFFF, 0x2001), that starts on the last byte of a page. *)
Definition straddling : PimpMyRide machine :=
  Eval vm_compute in
  final ((add_memory_area 0xFFF 0x1002 ;;
          add_memory_content 0xFFF stub ;;
          start_address_setter (Some 0xFFF) ;;
          return_address_setter (Some 0x1002))
         (new (PimpMyRide__init__ "x64" 64 true 0x70000000 1 COMPILE_GCC))).

(** The adapter over the x64 session, initialised, once with registers
    preset to values of its own and once as it is. *)
Definition gdb1 : target.Target machine :=
  Eval vm_compute in
  final (target.init true true
           (new_target (target.Target__init__
              (final ((init_register "rax" 0x1122334455667788 ;;
                       init_register "rdi" 1 ;;
                       init_register "rsi" 2 ;;
                       init_register "r15" 0xFFFFFFFFFFFFFFFF) x64))))).

Definition gdb2 : target.Target machine :=
  Eval vm_compute in
  final (target.init true true (new_target (target.Target__init__ x64))).

(** A new x64 session, and the same with an engine and nothing else. *)
Definition fresh : PimpMyRide machine :=
  Eval vm_compute in new (PimpMyRide__init__ "x64" 64 true 0x70000000 1 COMPILE_GCC).

Definition bare : PimpMyRide machine :=
  Eval vm_compute in
  set___uc (match power_on uc.UC_ARCH_X86 uc.UC_MODE_64 with
            | inr e => Some e
            | inl _ => None
            end) fresh.

(** The x64 session about to initialise its memory, with one more
    content, declared where no area is. *)
Definition x64_adrift : PimpMyRide machine :=
  Eval vm_compute in final (add_memory_content 0x5000 stub x64_powered).

(** A 32-bit x86 session, configured, and the adapter over it,
    initialised. *)
Definition x86_32 : PimpMyRide machine :=
  Eval vm_compute in
  final (configure (new (PimpMyRide__init__ "x86" 32 true 0x70000000 1 COMPILE_GCC))).

Definition gdb32 : target.Target machine :=
  Eval vm_compute in
  final (target.init true true (new_target (target.Target__init__ x86_32))).

(** The same session switched to 16-bit mode by the setter of [mode] and
    initialised, with one register preset afterwards. *)
Definition x86_16 : PimpMyRide machine :=
  Eval vm_compute in
  final (init_register "ax" 1
           (final (init (final (mode_setter (Some uc.UC_MODE_16) x86_32))))).

(** A big-endian MIPS session. *)
Definition mips_be : PimpMyRide machine :=
  Eval vm_compute in new (PimpMyRide__init__ "MIPS" 32 false 0x70000000 1 COMPILE_GCC).

End demo.

(** * Vocabulary of the properties *)

Import pimp_my_ride.

(** [s.upper()] *)
Definition upper_char (c : ascii) : ascii :=
  if bool_decide (97 <= Z_of_byte c <= 122) then byte_of (Z_of_byte c - 32) else c.

Fixpoint upper (s : string) : string :=
  match s with
  | EmptyString => EmptyString
  | String c s' => String (upper_char c) (upper s')
  end.

(** A computation that leaves what [keep] selects of the state alone. *)
Definition preserves {S K} (keep : S -> K) {A} (m : M S A) : Prop :=
  forall s, keep (final (m s)) = keep s.

Section Vocabulary.
Context {E : Type}.
Implicit Type s : PimpMyRide E.

(** Everything of a session but its engine and disassembler instances. *)
Definition configuration s : PimpMyRide E := set___uc None (set___cs None s).

(** The range [a, b) lies in a declared area, in the stack region. *)
Definition inside_area s (a b : Z) : Prop :=
  exists address size,
    (address, size) ∈ __memory_areas s /\ address <= a /\ b <= address + size.

Definition inside_stack s (a b : Z) : Prop :=
  stack s <= a /\ b <= stack s + stack_size s * PAGE_SIZE.

End Vocabulary.

Section Requests.
Context {E : Type}.
Implicit Type s : PimpMyRide E.

(** What [__initialize_memory] asks of the engine when every request is
    granted: the write that clears the stack, the mapping of each declared
    area, the write of each declared content. *)
Definition stack_fill s : list event :=
  let zeros := str_mul NUL (stack_size s * PAGE_SIZE) in
  if __is_valid_memory_range s (stack s) (stack s + len zeros)
  then [uc_mem_write (stack s) zeros] else [].

Definition area_request (area : Z * Z) : event :=
  uc_mem_map (_align_address area.1) (_align_address area.2 + PAGE_SIZE)
             (Some uc.UC_PROT_ALL).

Definition content_request s (c : Z * string) : list event :=
  if __is_valid_memory_range s c.1 (c.1 + len c.2)
  then [uc_mem_write c.1 c.2] else [].

End Requests.

(** The regions of the [mem_map] requests of a trace, in order. *)
Definition mapped_regions (tr : list event) : list (Z * Z) :=
  omap (fun ev => match ev with
                  | uc_mem_map address size _ => Some (address, size)
                  | _ => None
                  end) tr.

(** The callback returns when it is called with the address. *)
Definition returns (address : Z) (cb : callback) : Prop :=
  match cb with
  | bound_breakpoint_callback => True
  | function _ raises => raises address = None
  end.

(** The event stops the engine or calls a breakpoint callback. *)
Definition halts_or_notifies (ev : event) : Prop :=
  match ev with
  | uc_emu_stop | call_callback _ _ => True
  | _ => False
  end.

(** The eight bytes of a 64-bit value, as ['<Q'] packs them, and the
    register context of a list of values: the hexadecimal digits of their
    bytes, one value after the other. *)
Definition pack8 (v : Z) : string := string_of_list_ascii (le_bytes 8 v).

Definition packed (vs : list Z) : string :=
  foldr (fun v acc => pack8 v +:+ acc) "" vs.

Definition register_context (vs : list Z) : string :=
  foldr (fun v acc => hex_encode (pack8 v) +:+ acc) "" vs.

Section Context64.
Context {E : Type} `{!Unicorn E} `{!RegIds}.

(** The engine register behind a name of the x64 table. *)
Definition reg_index (reg_name : string) : Z :=
  default 0x11223344 (reg_map_X86_64 !! reg_name).

(** The engine registers behind the names of [regs_general], in its
    order. *)
Definition x64_ids : list Z := (fun reg => reg_index (target.name reg)) <$> target.regs_general.

(** The engine keeps the registers [ids] as a register file of 64-bit
    values: a write to one of them is granted, is read back, and leaves
    the others of them alone.  Nothing is asked of the registers that
    are not in [ids]. *)
Definition register_file (ids : list Z) : Prop :=
  forall (e : E) (r v : Z), r ∈ ids -> 0 <= v < 2 ^ 64 ->
    exists e', reg_write e r v = inr e' /\ reg_read e' r = inr v
               /\ forall r', r' ∈ ids -> r' <> r -> reg_read e' r' = reg_read e r'.

(** An initialised adapter over an x64 session. *)
Definition x64_profile (t : target.Target E) : Prop :=
  _arch (target.emu t) = Some uc.UC_ARCH_X86
  /\ _mode (target.emu t) = Some uc.UC_MODE_64
  /\ target.endian t = "<" /\ target.pack_format t = "Q" /\ target.step t = 8
  /\ target.register_list t = Some target.regs_general.

End Context64.

(** A computation all of whose requests satisfy [P], from every state. *)
Definition asks_only {S A} (P : event -> Prop) (m : M S A) : Prop :=
  forall s, Forall P (trace (m s)).

(** The event reads a register of the engine. *)
Definition reads_a_register (ev : event) : Prop :=
  match ev with
  | uc_reg_read _ => True
  | _ => False
  end.

(** * Properties *)

(** ** The monad *)

Section Monad.
Context {S : Type}.
Implicit Type s : S.

Lemma outcome_eta {A} (o : outcome S A) : Outcome (res o) (final o) (trace o) = o.
Proof. by destruct o. Qed.

Lemma bind_run {A B} (m : M S A) (f : A -> M S B) s r s' tr :
  m s = Outcome r s' tr ->
  bind m f s =
    match r with
    | inl e => Outcome (inl e) s' tr
    | inr a => Outcome (res (f a s')) (final (f a s')) (tr ++ trace (f a s'))
    end.
Proof. intros Hm. unfold bind. rewrite Hm. simpl. by destruct r. Qed.

Lemma bind_ret {A B} (a : A) (f : A -> M S B) s : bind (ret a) f s = f a s.
Proof. unfold bind, ret. simpl. apply outcome_eta. Qed.

Lemma bind_raise {A B} (e : exn) (f : A -> M S B) s : bind (raise e) f s = raise e s.
Proof. reflexivity. Qed.

Lemma bind_gets {A B} (g : S -> A) (f : A -> M S B) s : bind (gets g) f s = f (g s) s.
Proof. unfold bind, gets. simpl. apply outcome_eta. Qed.

Lemma bind_modify {B} (g : S -> S) (f : unit -> M S B) s :
  bind (modify g) f s = f tt (g s).
Proof. unfold bind, modify. simpl. apply outcome_eta. Qed.

Lemma bind_emit {B} (ev : event) (f : unit -> M S B) s :
  bind (emit ev) f s = Outcome (res (f tt s)) (final (f tt s)) (ev :: trace (f tt s)).
Proof. reflexivity. Qed.

Lemma bind_attr {A B} (n : string) (g : S -> option A) (f : A -> M S B) s :
  bind (attr n g) f s =
    match g s with
    | Some a => f a s
    | None => Outcome (inl (AttributeError n)) s []
    end.
Proof. unfold bind, attr. destruct (g s); simpl; [apply outcome_eta|done]. Qed.

Lemma bind_assoc {A B C} (m : M S A) (f : A -> M S B) (g : B -> M S C) s :
  bind (bind m f) g s = bind m (fun a => bind (f a) g) s.
Proof.
  unfold bind. destruct (res (m s)) as [e|a]; simpl; [done|].
  destruct (res (f a (final (m s)))); simpl; [done|]. by rewrite app_assoc.
Qed.

Lemma bind_ok {A B} (m : M S A) (f : A -> M S B) s (b : B) :
  res (bind m f s) = inr b ->
  exists a, res (m s) = inr a /\ res (f a (final (m s))) = inr b.
Proof.
  unfold bind. destruct (res (m s)) as [e|a] eqn:Hm; simpl; [discriminate|].
  intros Hf. by exists a.
Qed.

Lemma bind_trace {A B} (m : M S A) (f : A -> M S B) s (a : A) :
  res (m s) = inr a ->
  trace (bind m f s) = trace (m s) ++ trace (f a (final (m s))).
Proof. intros Hm. unfold bind. by rewrite Hm. Qed.

Section Preserves.
Context {K : Type} (keep : S -> K).

Lemma preserves_ret {A} (a : A) : preserves keep (ret a).
Proof. by intros s. Qed.

Lemma preserves_raise {A} (e : exn) : preserves keep (@raise S A e).
Proof. by intros s. Qed.

Lemma preserves_gets {A} (f : S -> A) : preserves keep (gets f).
Proof. by intros s. Qed.

Lemma preserves_emit (ev : event) : preserves keep (@emit S ev).
Proof. by intros s. Qed.

Lemma preserves_attr {A} (n : string) (f : S -> option A) : preserves keep (attr n f).
Proof. intros s. unfold attr. by destruct (f s). Qed.

Lemma preserves_modify (f : S -> S) :
  (forall s, keep (f s) = keep s) -> preserves keep (modify f).
Proof. intros Hf s. apply Hf. Qed.

Lemma preserves_bind {A B} (m : M S A) (f : A -> M S B) :
  preserves keep m -> (forall a, preserves keep (f a)) -> preserves keep (bind m f).
Proof.
  intros Hm Hf s. unfold bind. destruct (res (m s)); simpl; [apply Hm|].
  by rewrite Hf, Hm.
Qed.

Lemma preserves_try_except {A} (m : M S A) (handles : exn -> bool) (h : exn -> M S A) :
  preserves keep m -> (forall e, preserves keep (h e)) ->
  preserves keep (try_except m handles h).
Proof.
  intros Hm Hh s. unfold try_except.
  destruct (res (m s)) as [e|]; [|apply Hm].
  destruct (handles e); simpl; [|apply Hm]. by rewrite Hh, Hm.
Qed.

Lemma preserves_for_each {A} (l : list A) (body : A -> M S unit) :
  (forall x, preserves keep (body x)) -> preserves keep (for_each l body).
Proof.
  intros Hb. induction l as [|x l IH]; simpl.
  - apply preserves_ret.
  - apply preserves_bind; [apply Hb|]. intros _. apply IH.
Qed.

End Preserves.
End Monad.

Create HintDb preserves.
#[global] Hint Resolve preserves_ret preserves_raise preserves_gets preserves_emit
  preserves_attr preserves_bind preserves_try_except preserves_for_each : preserves.

(** Preservation, by the structure of the computation. *)
Ltac preserves :=
  repeat first
    [ apply preserves_ret | apply preserves_raise | apply preserves_gets
    | apply preserves_emit | apply preserves_attr
    | apply preserves_bind; [|intros ?]
    | apply preserves_try_except; [|intros ?]
    | apply preserves_for_each; intros ?
    | apply preserves_modify; intros ?; reflexivity
    | match goal with
      | |- preserves _ (match ?x with _ => _ end) => destruct x
      | |- preserves _ (if ?b then _ else _) => destruct b
      | |- preserves _ (let '(_, _) := ?x in _) => destruct x
      end
    | progress eauto with preserves ].

Section TryExcept.
Context {S : Type}.
Implicit Type s : S.

Lemma try_except_run {A} (m : M S A) (handles : exn -> bool) (h : exn -> M S A)
    s r s' tr :
  m s = Outcome r s' tr ->
  try_except m handles h s =
    match r with
    | inl e =>
        if handles e
        then Outcome (res (h e s')) (final (h e s')) (tr ++ trace (h e s'))
        else Outcome (inl e) s' tr
    | inr a => Outcome (inr a) s' tr
    end.
Proof.
  intros Hm. unfold try_except. rewrite Hm. cbn [res final trace].
  destruct r as [e|a]; [|done]. by destruct (handles e).
Qed.

(** What a [try] lets through was not handled, or comes from the handler. *)
Lemma try_except_raises {A} (m : M S A) (handles : exn -> bool) (h : exn -> M S A)
    s e :
  res (try_except m handles h s) = inl e ->
  (res (m s) = inl e /\ handles e = false)
  \/ exists e', res (m s) = inl e' /\ handles e' = true
                /\ res (h e' (final (m s))) = inl e.
Proof.
  unfold try_except. destruct (res (m s)) as [e'|a] eqn:Hm.
  - destruct (handles e') eqn:Hh; cbn [res].
    + intros He. right. by exists e'.
    + rewrite Hm. intros [= ->]. by left.
  - rewrite Hm. discriminate.
Qed.

End TryExcept.

(** ** Strings, [struct] and hexadecimal digits *)

Lemma append_cons (c : ascii) (a b : string) : String c a +:+ b = String c (a +:+ b).
Proof. reflexivity. Qed.

Lemma append_nil_l (s : string) : "" +:+ s = s.
Proof. reflexivity. Qed.

Lemma append_nil_r (s : string) : s +:+ "" = s.
Proof. induction s as [|c s IH]; [done|]. by rewrite append_cons, IH. Qed.

Lemma append_assoc (a b c : string) : (a +:+ b) +:+ c = a +:+ (b +:+ c).
Proof. induction a as [|x a IH]; [done|]. by rewrite !append_cons, IH. Qed.

Lemma list_ascii_of_string_app (a b : string) :
  list_ascii_of_string (a +:+ b) = list_ascii_of_string a ++ list_ascii_of_string b.
Proof.
  induction a as [|x a IH]; [done|].
  rewrite append_cons. cbn [list_ascii_of_string app]. by rewrite IH.
Qed.

Lemma len_app (a b : string) : len (a +:+ b) = len a + len b.
Proof.
  unfold len. induction a as [|x a IH]; [done|].
  rewrite append_cons. cbn [String.length]. lia.
Qed.

Lemma hex_digits_of_byte (c : ascii) :
  hex_value (hex_digit (Z_of_byte c `div` 16)) = Some (Z_of_byte c `div` 16)
  /\ hex_value (hex_digit (Z_of_byte c `mod` 16)) = Some (Z_of_byte c `mod` 16)
  /\ byte_of (16 * (Z_of_byte c `div` 16) + Z_of_byte c `mod` 16) = c.
Proof.
  destruct c as [[] [] [] [] [] [] [] []]; vm_compute; repeat split; reflexivity.
Qed.

Lemma hex_encode_app (a b : string) :
  hex_encode (a +:+ b) = hex_encode a +:+ hex_encode b.
Proof.
  induction a as [|x a IH]; [done|].
  rewrite append_cons. cbn [hex_encode]. by rewrite IH, !append_cons.
Qed.

Lemma hexDecode_encode_app (a b : string) :
  hexDecode (hex_encode a +:+ b) =
    match hexDecode b with
    | inl e => inl e
    | inr s => inr (a +:+ s)
    end.
Proof.
  induction a as [|c a IH].
  { change (hexDecode b = match hexDecode b with inl e => inl e | inr s => inr s end).
    by destruct (hexDecode b). }
  cbn [hex_encode]. rewrite !append_cons. cbn [hexDecode].
  destruct (hex_digits_of_byte c) as (-> & -> & ->). rewrite IH.
  by destruct (hexDecode b).
Qed.

Lemma hexDecode_register_context (vs : list Z) :
  hexDecode (register_context vs) = inr (packed vs).
Proof.
  induction vs as [|v vs IH]; [done|].
  cbn [register_context packed foldr]. rewrite hexDecode_encode_app.
  fold (register_context vs). by rewrite IH.
Qed.

Lemma Z_of_byte_of (v : Z) : Z_of_byte (byte_of v) = v `mod` 256.
Proof.
  unfold Z_of_byte, byte_of.
  pose proof (Z.mod_pos_bound v 256 ltac:(lia)).
  rewrite N_ascii_embedding by lia. lia.
Qed.

Lemma length_le_bytes (size : nat) (v : Z) : List.length (le_bytes size v) = size.
Proof. revert v. induction size as [|k IH]; intros v; [done|]. cbn. by rewrite IH. Qed.

Lemma le_value_le_bytes (size : nat) (v : Z) :
  0 <= v < 256 ^ Z.of_nat size -> le_value (le_bytes size v) = v.
Proof.
  revert v. induction size as [|k IH]; intros v Hv.
  - cbn in *. lia.
  - cbn [le_bytes le_value]. rewrite Z_of_byte_of, IH.
    + pose proof (Z.div_mod v 256 ltac:(lia)). lia.
    + rewrite Nat2Z.inj_succ, Z.pow_succ_r in Hv by lia.
      split; [apply Z.div_pos; lia|]. apply Z.div_lt_upper_bound; lia.
Qed.

Lemma len_pack8 (v : Z) : len (pack8 v) = 8.
Proof.
  unfold len, pack8.
  assert (Hlen : forall l, String.length (string_of_list_ascii l) = List.length l).
  { induction l as [|c l IH]; [done|]. cbn. by rewrite IH. }
  by rewrite Hlen, length_le_bytes.
Qed.

Lemma len_packed (vs : list Z) : len (packed vs) = 8 * Z.of_nat (List.length vs).
Proof.
  induction vs as [|v vs IH]; [done|].
  cbn [packed foldr List.length]. fold (packed vs).
  rewrite len_app, len_pack8, IH. lia.
Qed.

Lemma unpack_values_packed (vs : list Z) :
  Forall (fun v => 0 <= v < 2 ^ 64) vs ->
  unpack_values true (repeat "Q"%char (List.length vs))
                (list_ascii_of_string (packed vs)) = Some vs.
Proof.
  induction 1 as [|v vs Hv _ IH]; [done|].
  cbn [packed foldr List.length repeat unpack_values]. fold (packed vs).
  change (format_size "Q") with (Some 8%nat). cbv beta match.
  rewrite !list_ascii_of_string_app. unfold pack8.
  rewrite !list_ascii_of_string_of_list_ascii.
  rewrite bool_decide_eq_true_2
    by (rewrite length_app, length_le_bytes; lia).
  rewrite drop_app_length', take_app_length' by (by rewrite length_le_bytes).
  rewrite IH. cbn [order_bytes]. by rewrite le_value_le_bytes.
Qed.

Lemma str_mul_repeat (c : ascii) (n : nat) :
  str_mul (String c "") (Z.of_nat n) = string_of_list_ascii (repeat c n).
Proof.
  unfold str_mul. rewrite Nat2Z.id.
  induction n as [|n IH]; [done|].
  rewrite Nat.iter_succ, append_cons, append_nil_l, IH. reflexivity.
Qed.

Lemma struct_pack_Q (v : Z) :
  struct_pack ("<" +:+ "Q") v =
    if bool_decide (0 <= v < 2 ^ 64) then inr (pack8 v)
    else inl (struct_error "integer out of range for format code").
Proof. reflexivity. Qed.

Lemma struct_unpack_packed (vs : list Z) :
  Forall (fun v => 0 <= v < 2 ^ 64) vs ->
  struct_unpack ("<" +:+ str_mul "Q" (len (packed vs) `div` 8)) (packed vs) = inr vs.
Proof.
  intros Hvs. rewrite len_packed.
  replace (8 * Z.of_nat (List.length vs)) with (Z.of_nat (List.length vs) * 8) by lia.
  rewrite Z.div_mul by lia. rewrite str_mul_repeat.
  rewrite append_cons. cbn [struct_unpack]. change (byte_order "<") with (Some true).
  cbv beta match. rewrite append_nil_l, list_ascii_of_string_of_list_ascii.
  by rewrite unpack_values_packed.
Qed.

(** ** The session: validity of ranges, initialisation *)

Section Initialisation.
Context {E : Type} `{!Unicorn E} `{!Capstone} `{!RegIds}.
Implicit Type s : PimpMyRide E.

Lemma uc_query_run {A} (n : string) (ev : event) (op : E -> exn + A) s e :
  __uc s = Some e -> uc_query n ev op s = Outcome (op e) s [ev].
Proof.
  intros He. unfold uc_query. rewrite bind_attr, He, bind_emit.
  by destruct (op e).
Qed.

Lemma uc_update_run (n : string) (ev : event) (op : E -> exn + E) s e :
  __uc s = Some e ->
  uc_update n ev op s =
    match op e with
    | inl err => Outcome (inl err) s [ev]
    | inr e' => Outcome (inr tt) (set___uc (Some e') s) [ev]
    end.
Proof.
  intros He. unfold uc_update. rewrite bind_attr, He, bind_emit.
  by destruct (op e).
Qed.

Lemma uc_query_none {A} (n : string) (ev : event) (op : E -> exn + A) s :
  __uc s = None -> uc_query n ev op s = Outcome (inl (AttributeError n)) s [].
Proof. intros He. unfold uc_query. by rewrite bind_attr, He. Qed.

Lemma uc_update_none (n : string) (ev : event) (op : E -> exn + E) s :
  __uc s = None -> uc_update n ev op s = Outcome (inl (AttributeError n)) s [].
Proof. intros He. unfold uc_update. by rewrite bind_attr, He. Qed.

Lemma uc_query_same {A} (n : string) (ev : event) (op : E -> exn + A) :
  preserves (fun s => s) (uc_query n ev op).
Proof. unfold uc_query. preserves. Qed.

Lemma uc_update_configuration (n : string) (ev : event) (op : E -> exn + E) :
  preserves configuration (uc_update n ev op).
Proof. unfold uc_update. preserves. Qed.

Lemma uc_query_configuration {A} (n : string) (ev : event) (op : E -> exn + A) :
  preserves configuration (uc_query n ev op).
Proof. unfold uc_query. preserves. Qed.
Hint Resolve uc_update_configuration uc_query_configuration uc_query_same : preserves.

Lemma _memory_map_configuration a sz p : preserves configuration (_memory_map (E:=E) a sz p).
Proof. unfold _memory_map. preserves. Qed.
Hint Resolve _memory_map_configuration : preserves.

Lemma write_memory_configuration a c : preserves configuration (write_memory (E:=E) a c).
Proof. unfold write_memory. preserves. Qed.
Hint Resolve write_memory_configuration : preserves.

Lemma __initialize_memory_configuration : preserves configuration (__initialize_memory (E:=E)).
Proof. unfold __initialize_memory. preserves. Qed.

Lemma _reg_map_same n : preserves (fun s => s) (_reg_map n).
Proof. unfold _reg_map, _reg_map_table. preserves. Qed.
Hint Resolve _reg_map_same : preserves.

Lemma _reg_map_configuration n : preserves configuration (_reg_map (E:=E) n).
Proof. unfold _reg_map, _reg_map_table. preserves. Qed.
Hint Resolve _reg_map_configuration : preserves.

Lemma write_register_configuration n v : preserves configuration (write_register (E:=E) n v).
Proof. unfold write_register. preserves. Qed.
Hint Resolve write_register_configuration __initialize_memory_configuration : preserves.

Lemma init_configuration : preserves configuration (init (E:=E)).
Proof. unfold init, __initialize_hooks, __initialize_registers. preserves. Qed.

Lemma __show_regs_same : preserves (fun s => s) __show_regs.
Proof. unfold __show_regs, reg_reads. preserves. Qed.
Hint Resolve __show_regs_same : preserves.

Lemma read_register_same n : preserves (fun s => s) (read_register n).
Proof. unfold read_register. preserves. Qed.
Hint Resolve read_register_same : preserves.

Lemma code_callback_new_pc_same a sz : preserves (fun s => s) (code_callback_new_pc a sz).
Proof. unfold code_callback_new_pc, _show_disasm_inst. preserves. Qed.

Lemma configuration_overwritten s s' u c :
  configuration s' = configuration s ->
  set___cs c (set___uc u s') = set___cs c (set___uc u s).
Proof.
  intros Hcfg. destruct s, s'. unfold configuration in Hcfg. cbn in Hcfg.
  injection Hcfg as -> -> -> -> -> -> -> -> -> -> -> -> -> -> -> -> ->.
  reflexivity.
Qed.

(** C7: [init] is not one-shot. It has no guard against a
    second call and reads nothing of the engine and disassembler instances
    it replaces: a second call of [init] on the session the first call
    left is the first call again. It creates the engine anew, asks for the
    same memory, hooks and registers, and returns what the first call
    returned, so it succeeds when the first call did. *)
Theorem C7_init_again s : init (final (init s)) = init s.
Proof.
  pose proof (init_configuration s) as Hcfg.
  remember (final (init s)) as s' eqn:Hs'.
  unfold init in Hs' |- *. rewrite !bind_gets in Hs'. rewrite !bind_gets.
  rewrite (f_equal _arch Hcfg : _arch s' = _arch s).
  rewrite (f_equal _mode Hcfg : _mode s' = _mode s).
  rewrite (f_equal _start_address Hcfg : _start_address s' = _start_address s).
  rewrite (f_equal _return_address Hcfg : _return_address s' = _return_address s).
  rewrite (f_equal __memory_areas Hcfg : __memory_areas s' = __memory_areas s).
  rewrite (f_equal __memory_contents Hcfg : __memory_contents s' = __memory_contents s).
  destruct (_arch s) as [[|arch|arch]|], (_mode s) as [mode|];
    cbv beta iota in Hs' |- *;
    try (cbn [final raise] in Hs'; subst s'; reflexivity).
  all: repeat (case_bool_decide; [cbn [final raise] in Hs'; subst s'; reflexivity|]).
  all: rewrite !bind_emit in Hs'; rewrite !bind_emit; destruct (Uc _ mode) as [err|e];
    [cbn [final raise] in Hs'; subst s'; reflexivity|].
  all: rewrite !bind_modify, !bind_gets in Hs'; rewrite !bind_modify, !bind_gets.
  all: cbn [_cs_arch _cs_mode set___uc] in Hs' |- *.
  all: rewrite (f_equal _cs_arch Hcfg : _cs_arch s' = _cs_arch s).
  all: rewrite (f_equal _cs_mode Hcfg : _cs_mode s' = _cs_mode s).
  all: rewrite !bind_emit in Hs'; rewrite !bind_emit; destruct (Cs _ _) as [err|[]];
    [ cbn [final raise] in Hs'; subst s'; reflexivity
    | rewrite !bind_modify in Hs'; rewrite !bind_modify;
      rewrite (configuration_overwritten s s' _ _ Hcfg); reflexivity ].
Qed.

Lemma is_valid_memory_range_spec s (a b : Z) :
  __is_valid_memory_range s a b = true <-> inside_area s a b \/ inside_stack s a b.
Proof.
  unfold __is_valid_memory_range, inside_area, inside_stack.
  rewrite orb_true_iff, existsb_exists, andb_true_iff, !bool_decide_eq_true.
  split.
  - intros [([address size] & Hin & Hok)|[Ha Hb]]; [left|right; lia].
    apply andb_true_iff in Hok as [Ha Hb].
    apply bool_decide_eq_true in Ha, Hb.
    exists address, size. rewrite list_elem_of_In. repeat split; [done|lia..].
  - intros [(address & size & Hin & Ha & Hb)|[Ha Hb]]; [left|right; lia].
    exists (address, size). rewrite <- list_elem_of_In. split; [done|].
    apply andb_true_iff. rewrite !bool_decide_eq_true. lia.
Qed.

Lemma read_memory_run s (address size : Z) :
  read_memory address size s =
    if __is_valid_memory_range s address (address + size) then
      uc_query "mem_read" (uc_mem_read address size)
               (fun e => mem_read e address size) s
    else Outcome (inr "") s [].
Proof.
  unfold read_memory. rewrite bind_gets.
  by destruct (__is_valid_memory_range _ _ _).
Qed.

Lemma write_memory_run s (address : Z) (content : string) :
  write_memory address content s =
    if __is_valid_memory_range s address (address + len content) then
      bind (uc_update "mem_write" (uc_mem_write address content)
                      (fun e => mem_write e address content))
           (fun _ => ret None) s
    else Outcome (inr (Some "")) s [].
Proof.
  unfold write_memory. rewrite bind_gets.
  by destruct (__is_valid_memory_range _ _ _).
Qed.

(** C1: a range is valid when it lies in a declared area or
    in the stack region. For a range that is not, [read_memory] returns
    the empty string and [write_memory] returns the empty string too:
    neither raises, neither asks anything of the engine, and the session
    is unchanged. For a valid range both hand the request to the engine:
    [read_memory] returns what the engine's [mem_read] returns or raises
    its error, [write_memory] returns [None] when the engine's
    [mem_write] is granted and raises its error otherwise. *)
Theorem C1_invalid_range_reads_empty s (address size : Z) (content : string) :
  (~ (inside_area s address (address + size) \/
      inside_stack s address (address + size)) ->
   read_memory address size s = Outcome (inr "") s [])
  /\ (~ (inside_area s address (address + len content) \/
         inside_stack s address (address + len content)) ->
      write_memory address content s = Outcome (inr (Some "")) s [])
  /\ (forall e, __uc s = Some e ->
      inside_area s address (address + size) \/
      inside_stack s address (address + size) ->
      read_memory address size s =
        Outcome (mem_read e address size) s [uc_mem_read address size])
  /\ (forall e, __uc s = Some e ->
      inside_area s address (address + len content) \/
      inside_stack s address (address + len content) ->
      write_memory address content s =
        match mem_write e address content with
        | inl err => Outcome (inl err) s [uc_mem_write address content]
        | inr e' => Outcome (inr None) (set___uc (Some e') s)
                            [uc_mem_write address content]
        end).
Proof.
  repeat split.
  - intros Hout. rewrite <- is_valid_memory_range_spec in Hout.
    apply not_true_is_false in Hout. by rewrite read_memory_run, Hout.
  - intros Hout. rewrite <- is_valid_memory_range_spec in Hout.
    apply not_true_is_false in Hout. by rewrite write_memory_run, Hout.
  - intros e He Hin. rewrite <- is_valid_memory_range_spec in Hin.
    rewrite read_memory_run, Hin.
    exact (uc_query_run _ _ (fun e => mem_read e address size) s e He).
  - intros e He Hin. rewrite <- is_valid_memory_range_spec in Hin.
    rewrite write_memory_run, Hin.
    unfold bind. rewrite (uc_update_run _ _ _ _ _ He).
    by destruct (mem_write e address content).
Qed.

End Initialisation.

(** ** The register tables *)

Section Registers.
Context {E : Type} `{!Unicorn E} `{!Capstone} `{!RegIds}.
Implicit Type s : PimpMyRide E.

Lemma _reg_map_table_run s :
  _reg_map_table s = Outcome (res (_reg_map_table s)) s [].
Proof.
  unfold _reg_map_table. rewrite !bind_gets.
  repeat (match goal with |- context [if ?b then _ else _] => destruct b end;
          try reflexivity).
Qed.

Lemma _reg_map_table_cases s (tbl : gmap string Z) :
  res (_reg_map_table s) = inr (Some tbl) ->
  tbl ∈ [reg_map_MIPS; reg_map_ARM64; reg_map_X86_64; reg_map_ARM].
Proof.
  unfold _reg_map_table. rewrite !bind_gets.
  repeat (match goal with |- context [if ?b then _ else _] => destruct b end;
          try discriminate);
    intros [= <-]; set_solver.
Qed.

Lemma _reg_map_run s (tbl : gmap string Z) (reg_name : string) :
  res (_reg_map_table s) = inr (Some tbl) ->
  _reg_map reg_name s = Outcome (inr (default 0x11223344 (tbl !! reg_name))) s [].
Proof.
  intros Htbl. unfold _reg_map.
  rewrite (bind_run _ _ _ _ _ _ (_reg_map_table_run s)), Htbl. reflexivity.
Qed.

Lemma read_register_run s (tbl : gmap string Z) (reg_name : string) e :
  res (_reg_map_table s) = inr (Some tbl) -> __uc s = Some e ->
  read_register reg_name s =
    Outcome (reg_read e (default 0x11223344 (tbl !! reg_name))) s
            [uc_reg_read (default 0x11223344 (tbl !! reg_name))].
Proof.
  intros Htbl He. unfold read_register.
  rewrite (bind_run _ _ _ _ _ _ (_reg_map_run s tbl reg_name Htbl)).
  rewrite (uc_query_run _ _ _ _ _ He). reflexivity.
Qed.

Lemma write_register_run s (tbl : gmap string Z) (register : string) (value : Z) e :
  res (_reg_map_table s) = inr (Some tbl) -> __uc s = Some e ->
  write_register register value s =
    match reg_write e (default 0x11223344 (tbl !! register)) value with
    | inl err =>
        Outcome (inl err) s [uc_reg_write (default 0x11223344 (tbl !! register)) value]
    | inr e' =>
        Outcome (inr tt) (set___uc (Some e') s)
                [uc_reg_write (default 0x11223344 (tbl !! register)) value]
    end.
Proof.
  intros Htbl He. unfold write_register.
  rewrite (bind_run _ _ _ _ _ _ (_reg_map_run s tbl register Htbl)).
  rewrite (uc_update_run _ _ _ _ _ He). by destruct (reg_write _ _ _).
Qed.

(** The keys of a table are lower-case: the upper-case spelling of a key
    is not a key. *)
Ltac key_by_key H :=
  apply elem_of_list_to_map_2 in H;
  repeat (apply elem_of_cons in H as [H|H];
          [injection H as -> _; vm_compute; reflexivity|]);
  by apply elem_of_nil in H.

Lemma reg_map_keys_lower (tbl : gmap string Z) (reg_name : string) :
  tbl ∈ [reg_map_MIPS; reg_map_ARM64; reg_map_X86_64; reg_map_ARM] ->
  is_Some (tbl !! reg_name) -> tbl !! upper reg_name = None.
Proof.
  intros Htbl [id Hid].
  repeat (apply elem_of_cons in Htbl as [->|Htbl]; [key_by_key Hid|]).
  by apply elem_of_nil in Htbl.
Qed.

(** C2: when the session's architecture has a register
    table, the table is one of the four of the source and [_reg_map]
    never raises: it returns the id bound to the name as it is spelled,
    and the sentinel [0x11223344] for every other name. The lookup is
    case-sensitive: every key is lower-case, and the upper-case spelling
    of a key is not a key. For a name that is absent [read_register]
    reads, and [write_register] writes, the engine register of id
    [0x11223344]. *)
Theorem C2_lookup_is_exact s (tbl : gmap string Z) :
  res (_reg_map_table s) = inr (Some tbl) ->
  tbl ∈ [reg_map_MIPS; reg_map_ARM64; reg_map_X86_64; reg_map_ARM]
  /\ (forall reg_name,
        _reg_map reg_name s =
          Outcome (inr (default 0x11223344 (tbl !! reg_name))) s [])
  /\ (forall reg_name, is_Some (tbl !! reg_name) -> tbl !! upper reg_name = None)
  /\ (forall reg_name e, tbl !! reg_name = None -> __uc s = Some e ->
        read_register reg_name s =
          Outcome (reg_read e 0x11223344) s [uc_reg_read 0x11223344]
        /\ forall value,
             trace (write_register reg_name value s) = [uc_reg_write 0x11223344 value]
             /\ res (write_register reg_name value s) =
                  match reg_write e 0x11223344 value with
                  | inl err => inl err
                  | inr _ => inr tt
                  end).
Proof.
  intros Htbl.
  split; [by apply _reg_map_table_cases with s|].
  split; [intros; by apply _reg_map_run|].
  split; [intros reg_name; apply reg_map_keys_lower; by apply _reg_map_table_cases with s|].
  intros reg_name e Hnone He. split.
  - rewrite (read_register_run s tbl reg_name e Htbl He), Hnone. reflexivity.
  - intros value. rewrite (write_register_run s tbl reg_name value e Htbl He), Hnone.
    simpl. by destruct (reg_write e _ value).
Qed.

Lemma x64_table s :
  _arch s = Some uc.UC_ARCH_X86 -> _mode s = Some uc.UC_MODE_64 ->
  res (_reg_map_table s) = inr (Some reg_map_X86_64).
Proof.
  intros Ha Hm. unfold _reg_map_table. rewrite !bind_gets, Ha, Hm. reflexivity.
Qed.

End Registers.

(** ** What [__initialize_memory] requests *)

Section Commit.
Context {E : Type} `{!Unicorn E} `{!Capstone} `{!RegIds}.
Implicit Type s : PimpMyRide E.

Lemma is_valid_configuration s s' (a b : Z) :
  configuration s' = configuration s ->
  __is_valid_memory_range s' a b = __is_valid_memory_range s a b.
Proof.
  intros Hcfg. unfold __is_valid_memory_range.
  rewrite (f_equal __memory_areas Hcfg : __memory_areas s' = __memory_areas s).
  rewrite (f_equal stack Hcfg : stack s' = stack s).
  by rewrite (f_equal stack_size Hcfg : stack_size s' = stack_size s).
Qed.

Lemma uc_update_ok (n : string) (ev : event) (op : E -> exn + E) s :
  res (uc_update n ev op s) = inr tt -> trace (uc_update n ev op s) = [ev].
Proof.
  destruct (__uc s) as [e|] eqn:He.
  - rewrite (uc_update_run _ _ _ _ _ He). by destruct (op e).
  - unfold uc_update. rewrite bind_attr, He. discriminate.
Qed.

Lemma _memory_map_ok (address size : Z) (perm : option Z) s :
  res (_memory_map address size perm s) = inr tt ->
  trace (_memory_map address size perm s) =
    [uc_mem_map address size
       (match perm with Some 0 | None => None | Some p => Some p end)].
Proof.
  unfold _memory_map. destruct perm as [[|p|p]|]; cbn [bool_decide decide_rel];
    try apply uc_update_ok.
  all: case_bool_decide; try done; apply uc_update_ok.
Qed.

Lemma write_memory_ok (address : Z) (content : string) s r :
  res (write_memory address content s) = inr r ->
  trace (write_memory address content s) = content_request s (address, content).
Proof.
  rewrite write_memory_run. unfold content_request. cbn [fst snd].
  destruct (__is_valid_memory_range _ _ _); [|done].
  intros Hok. apply bind_ok in Hok as ([] & Hup & _).
  rewrite (bind_trace _ _ _ _ Hup).
  rewrite (uc_update_ok _ _ _ _ Hup). reflexivity.
Qed.

(** The requests of a loop whose body keeps the configuration. *)
Lemma for_each_requests {A} (l : list A) (body : A -> M (PimpMyRide E) unit)
    (requests : A -> list event) s :
  (forall x, preserves configuration (body x)) ->
  (forall x s', configuration s' = configuration s ->
     res (body x s') = inr tt -> trace (body x s') = requests x) ->
  forall s', configuration s' = configuration s ->
    res (for_each l body s') = inr tt ->
    trace (for_each l body s') = flat_map requests l.
Proof.
  intros Hkeep Hbody. induction l as [|x l IH]; intros s' Hcfg Hok; [done|].
  cbn [for_each flat_map] in *.
  apply bind_ok in Hok as Hok'. destruct Hok' as ([] & Hx & Hl).
  rewrite (bind_trace _ _ _ _ Hx).
  rewrite (Hbody x s' Hcfg Hx). f_equal.
  apply IH; [|done]. by rewrite Hkeep.
Qed.

Lemma initialize_memory_requests s :
  res (__initialize_memory s) = inr tt ->
  exists sp,
    REG_SP (setup s) = Some sp /\
    trace (__initialize_memory s) =
      uc_mem_map (stack s) (stack_size s * PAGE_SIZE) None
        :: stack_fill s
        ++ uc_reg_write sp (stack s + stack_size s * PAGE_SIZE)
        :: (area_request <$> __memory_areas s)
        ++ flat_map (content_request s) (__memory_contents s).
Proof.
  unfold __initialize_memory. rewrite !bind_gets. intros Hok.
  (* the stack is mapped *)
  apply bind_ok in Hok as Hok'. destruct Hok' as ([] & Hmap & Hok1).
  rewrite (bind_trace _ _ _ _ Hmap).
  rewrite (_memory_map_ok _ _ _ _ Hmap).
  pose proof (_memory_map_configuration (stack s) (stack_size s * PAGE_SIZE) None s)
    as Hcfg1.
  set (s1 := final (_memory_map _ _ _ s)) in *.
  (* and cleared *)
  apply bind_ok in Hok1 as Hok'. destruct Hok' as (r & Hfill & Hok2).
  rewrite (bind_trace _ _ _ _ Hfill).
  rewrite (write_memory_ok _ _ _ _ Hfill).
  pose proof (write_memory_configuration (stack s) (str_mul NUL (stack_size s * PAGE_SIZE)) s1)
    as Hcfg2.
  rewrite Hcfg1 in Hcfg2.
  set (s2 := final (write_memory _ _ s1)) in *.
  (* the stack pointer *)
  rewrite bind_attr in Hok2 |- *.
  destruct (__uc s2) as [e2|] eqn:He2; [|discriminate].
  rewrite bind_attr in Hok2 |- *.
  rewrite (f_equal setup Hcfg2 : setup s2 = setup s) in Hok2 |- *.
  destruct (REG_SP (setup s)) as [sp|]; [|discriminate].
  exists sp. split; [done|].
  apply bind_ok in Hok2 as Hok'. destruct Hok' as ([] & Hsp & Hok3).
  rewrite (bind_trace _ _ _ _ Hsp).
  rewrite (uc_update_ok _ _ _ _ Hsp).
  pose proof (uc_update_configuration "reg_write"
                (uc_reg_write sp (stack s + stack_size s * PAGE_SIZE))
                (fun e => reg_write e sp (stack s + stack_size s * PAGE_SIZE)) s2)
    as Hcfg3.
  rewrite Hcfg2 in Hcfg3.
  set (s3 := final (uc_update _ _ _ s2)) in *.
  (* the areas *)
  rewrite bind_gets in Hok3 |- *.
  rewrite (f_equal __memory_areas Hcfg3 : __memory_areas s3 = __memory_areas s)
    in Hok3 |- *.
  apply bind_ok in Hok3 as Hok'. destruct Hok' as ([] & Hareas & Hok4).
  rewrite (bind_trace _ _ _ _ Hareas).
  assert (Hcfg4 : configuration (final (for_each (__memory_areas s)
            (fun '(address, size) =>
               _memory_map (_align_address address)
                           (_align_address size + PAGE_SIZE)
                           (Some uc.UC_PROT_ALL)) s3)) = configuration s).
  { rewrite <- Hcfg3. apply preserves_for_each. intros [a sz].
    apply _memory_map_configuration. }
  rewrite (for_each_requests _ _ (fun x => [area_request x]) s) ; [| |  |done|done].
  2:{ intros [a sz]. apply _memory_map_configuration. }
  2:{ intros [a sz] s' _ Hx. apply (_memory_map_ok _ _ _ _ Hx). }
  set (s4 := final (for_each _ _ s3)) in *.
  (* the contents *)
  rewrite bind_gets in Hok4 |- *.
  rewrite (f_equal __memory_contents Hcfg4 : __memory_contents s4 = __memory_contents s)
    in Hok4 |- *.
  rewrite (for_each_requests _ _ (content_request s) s) ; [| | |done|done].
  2:{ intros [a c]. apply preserves_bind; [apply write_memory_configuration|].
      intros _. apply preserves_ret. }
  2:{ intros [a c] s' Hcfg' Hx.
      apply bind_ok in Hx as Hx'. destruct Hx' as (r' & Hw & _).
      rewrite (bind_trace _ _ _ _ Hw).
      rewrite (write_memory_ok _ _ _ _ Hw). cbn [trace ret]. rewrite app_nil_r.
      unfold content_request. by rewrite (is_valid_configuration s s'). }
  unfold stack_fill, content_request at 1. cbn [fst snd].
  rewrite (is_valid_configuration s s1) by done.
  cbn [app]. by do 4 f_equal.
Qed.

End Commit.

(** ** The stack *)

Section Stack.
Context {E : Type} `{!Unicorn E} `{!Capstone} `{!RegIds}.
Implicit Type s : PimpMyRide E.

Lemma _align_address_spec (address : Z) :
  _align_address address `mod` PAGE_SIZE = 0
  /\ _align_address address <= address < _align_address address + PAGE_SIZE.
Proof.
  unfold _align_address, PAGE_SIZE. split.
  - apply Z.mod_mul. lia.
  - pose proof (Z.mod_pos_bound address 4096 ltac:(lia)).
    pose proof (Z.div_mod address 4096 ltac:(lia)). lia.
Qed.

Lemma _align_address_below (address : Z) :
  address `mod` PAGE_SIZE <> 0 -> _align_address address < address.
Proof.
  unfold _align_address, PAGE_SIZE. intros Hne.
  pose proof (Z.mod_pos_bound address 4096 ltac:(lia)).
  pose proof (Z.div_mod address 4096 ltac:(lia)). lia.
Qed.

Lemma PimpMyRide__init___stack architecture bits little stack0 stack_size0 compiler0 s :
  PimpMyRide__init__ architecture bits little stack0 stack_size0 compiler0 = inr s ->
  stack s = _align_address stack0 /\ stack_size s = stack_size0.
Proof.
  unfold PimpMyRide__init__.
  repeat (match goal with |- context [if ?b then _ else _] => destruct b end;
          try discriminate); intros [= <-]; done.
Qed.

(** The region requested for a declared area. *)
Lemma area_request_spec (address size : Z) :
  let base := _align_address address in
  let mapped := _align_address size + PAGE_SIZE in
  area_request (address, size) = uc_mem_map base mapped (Some uc.UC_PROT_ALL)
  /\ base `mod` PAGE_SIZE = 0 /\ mapped `mod` PAGE_SIZE = 0
  /\ base <= address /\ size < mapped <= size + PAGE_SIZE
  /\ (address `mod` PAGE_SIZE + size `mod` PAGE_SIZE <= PAGE_SIZE <->
      address + size <= base + mapped).
Proof.
  cbn zeta. unfold area_request, _align_address, PAGE_SIZE. cbn [fst snd].
  pose proof (Z.mod_pos_bound address 4096 ltac:(lia)).
  pose proof (Z.div_mod address 4096 ltac:(lia)).
  pose proof (Z.mod_pos_bound size 4096 ltac:(lia)).
  pose proof (Z.div_mod size 4096 ltac:(lia)).
  repeat split; try lia.
  - apply Z.mod_mul. lia.
  - replace (size `div` 4096 * 4096 + 4096) with ((size `div` 4096 + 1) * 4096) by lia.
    apply Z.mod_mul. lia.
Qed.

(** C10: the constructor stores the supplied stack base
    aligned down to a page boundary; the stored base is a multiple of the
    page size, is at most the supplied base and less than a page below
    it, and lies strictly below a supplied base that is not aligned.
    Every later operation on a session with this base and stack size uses
    it: the range check accepts every range within
    [stack, stack + stack_size * PAGE_SIZE), and a successful
    [__initialize_memory] first maps the stack at the stored base, clears
    it, and then presets the stack pointer to
    [stack + stack_size * PAGE_SIZE]. *)
Theorem C10_stack_base_is_aligned (architecture : string) (bits : Z)
    (little : bool) (stack0 stack_size0 compiler0 : Z) s :
  PimpMyRide__init__ architecture bits little stack0 stack_size0 compiler0 = inr s ->
  stack s = stack0 `div` PAGE_SIZE * PAGE_SIZE
  /\ stack s `mod` PAGE_SIZE = 0
  /\ stack s <= stack0 < stack s + PAGE_SIZE
  /\ (stack0 `mod` PAGE_SIZE <> 0 -> stack s < stack0)
  /\ forall s', stack s' = stack s -> stack_size s' = stack_size s ->
       (forall a b, stack s <= a -> b <= stack s + stack_size0 * PAGE_SIZE ->
                    __is_valid_memory_range s' a b = true)
       /\ (res (__initialize_memory s') = inr tt ->
           exists sp rest,
             REG_SP (setup s') = Some sp /\
             trace (__initialize_memory s') =
               uc_mem_map (stack s) (stack_size0 * PAGE_SIZE) None
                 :: stack_fill s'
                 ++ uc_reg_write sp (stack s + stack_size0 * PAGE_SIZE) :: rest).
Proof.
  intros Hnew. destruct (PimpMyRide__init___stack _ _ _ _ _ _ _ Hnew) as [Hst Hsz].
  destruct (_align_address_spec stack0) as [Hmod Hle].
  rewrite Hst. split; [reflexivity|]. split; [exact Hmod|]. split; [exact Hle|].
  split; [by apply _align_address_below|].
  intros s' Hst' Hsz'. split.
  - intros a b Ha Hb. apply is_valid_memory_range_spec. right.
    unfold inside_stack. lia.
  - intros Hok.
    destruct (initialize_memory_requests s' Hok) as (sp & Hsp & Htr).
    exists sp, ((area_request <$> __memory_areas s')
                ++ flat_map (content_request s') (__memory_contents s')).
    split; [done|]. rewrite Htr. congruence.
Qed.

End Stack.

(** ** Running: the code hook and [start] *)

Section Run.
Context {E : Type} `{!Unicorn E} `{!Capstone} `{!RegIds}.
Implicit Type s : PimpMyRide E.

Lemma run_outcome {A} (m : M (PimpMyRide E) A) s :
  preserves (fun s => s) m -> m s = Outcome (res (m s)) s (trace (m s)).
Proof. intros Hm. rewrite <- (Hm s) at 3. symmetry. apply outcome_eta. Qed.

Lemma __show_regs_never_UcError s (errno : Z) :
  res (__show_regs s) <> inl (UcError errno).
Proof.
  intros Hraise. unfold __show_regs in Hraise.
  apply try_except_raises in Hraise as [[_ Hh]|(e' & _ & _ & Hh)]; discriminate.
Qed.

(** The registers are shown on MIPS and x86 only. *)
Lemma __show_regs_elsewhere s :
  eqv (_arch s) uc.UC_ARCH_MIPS = false -> eqv (_arch s) uc.UC_ARCH_X86 = false ->
  __show_regs s = Outcome (inr tt) s [].
Proof.
  intros Hmips Hx86. unfold __show_regs.
  rewrite (try_except_run _ _ _ s (inr tt) s []); [reflexivity|].
  by rewrite !bind_gets, Hmips, Hx86.
Qed.

Lemma _show_disasm_inst_run s (opcodes : string) (addr : Z) :
  _show_disasm_inst opcodes addr s =
    match __cs s with
    | None => Outcome (inl (AttributeError "disasm")) s []
    | Some handle =>
        match disasm handle opcodes addr with
        | inl err =>
            Outcome (inl (if is_CsError err then PimpMyRideException_of err else err))
                    s [cs_disasm opcodes addr]
        | inr l => Outcome (inr l) s [cs_disasm opcodes addr]
        end
    end.
Proof.
  unfold _show_disasm_inst, try_except. rewrite bind_attr.
  destruct (__cs s) as [handle|]; [|reflexivity].
  rewrite bind_emit. destruct (disasm handle opcodes addr) as [err|l]; [|reflexivity].
  cbn [res final trace raise]. by destruct (is_CsError err).
Qed.

Lemma _show_disasm_inst_shape s (opcodes : string) (addr : Z) :
  exists r tr,
    _show_disasm_inst opcodes addr s = Outcome r s tr
    /\ Forall (fun ev => ~ halts_or_notifies ev) tr.
Proof.
  rewrite _show_disasm_inst_run. destruct (__cs s) as [handle|].
  - destruct (disasm handle opcodes addr) as [err|l];
      eexists _, _; (split; [reflexivity|]); repeat constructor; by intros [].
  - eexists _, _. split; [reflexivity|]. constructor.
Qed.

(** Off MIPS and x86 the trace callback raises before the breakpoint
    check: it has read the instruction and disassembled it at most. *)
Lemma code_callback_new_pc_elsewhere s (address size : Z) :
  eqv (_arch s) uc.UC_ARCH_MIPS = false -> eqv (_arch s) uc.UC_ARCH_X86 = false ->
  exists e tr,
    code_callback_new_pc address size s = Outcome (inl e) s tr
    /\ Forall (fun ev => ~ halts_or_notifies ev) tr.
Proof.
  intros Hmips Hx86. unfold code_callback_new_pc.
  rewrite (bind_run _ _ _ _ _ _ (__show_regs_elsewhere s Hmips Hx86)).
  destruct (__uc s) as [e|] eqn:He.
  - rewrite (bind_run _ _ _ _ _ _ (uc_query_run _ _ _ _ _ He)).
    destruct (mem_read e address size) as [err|opcodes].
    { eexists _, _. split; [reflexivity|]. repeat constructor. by intros []. }
    destruct (_show_disasm_inst_shape s opcodes address) as (r & tr & Heq & Htr).
    rewrite (bind_run _ _ _ _ _ _ Heq). destruct r as [err|l]; cbn [res final trace].
    + eexists _, _. split; [reflexivity|]. constructor; [by intros []|done].
    + rewrite !bind_gets, Hmips, Hx86. cbn [res final trace raise bind].
      eexists _, _. split; [reflexivity|]. rewrite app_nil_r.
      constructor; [by intros []|done].
  - rewrite (bind_run _ _ _ _ _ _ (uc_query_none _ _ _ _ He)).
    eexists _, _. split; [reflexivity|]. constructor.
Qed.

(** Off MIPS and x86, once the instruction is read and disassembled, the
    trace callback raises for the program counter. *)
Lemma code_callback_new_pc_not_implemented s (address size : Z) e
    (opcodes : string) handle l :
  eqv (_arch s) uc.UC_ARCH_MIPS = false -> eqv (_arch s) uc.UC_ARCH_X86 = false ->
  __uc s = Some e -> mem_read e address size = inr opcodes ->
  __cs s = Some handle -> disasm handle opcodes address = inr l ->
  code_callback_new_pc address size s =
    Outcome (inl (Exception "get PC not implemented for current architecture")) s
            [uc_mem_read address size; cs_disasm opcodes address].
Proof.
  intros Hmips Hx86 He Hread Hcs Hdis. unfold code_callback_new_pc.
  rewrite (bind_run _ _ _ _ _ _ (__show_regs_elsewhere s Hmips Hx86)).
  rewrite (bind_run _ _ _ _ _ _ (uc_query_run _ _ _ _ _ He)), Hread.
  assert (Heq : _show_disasm_inst opcodes address s =
                Outcome (inr l) s [cs_disasm opcodes address]).
  { by rewrite _show_disasm_inst_run, Hcs, Hdis. }
  rewrite (bind_run _ _ _ _ _ _ Heq). cbn [res final trace].
  rewrite !bind_gets, Hmips, Hx86. reflexivity.
Qed.

(** When the engine refuses to read the instruction, the trace callback
    goes no further. *)
Lemma code_callback_new_pc_refused s (address size : Z) e err :
  eqv (_arch s) uc.UC_ARCH_MIPS = false -> eqv (_arch s) uc.UC_ARCH_X86 = false ->
  __uc s = Some e -> mem_read e address size = inl err ->
  code_callback_new_pc address size s =
    Outcome (inl err) s [uc_mem_read address size].
Proof.
  intros Hmips Hx86 He Hread. unfold code_callback_new_pc.
  rewrite (bind_run _ _ _ _ _ _ (__show_regs_elsewhere s Hmips Hx86)).
  by rewrite (bind_run _ _ _ _ _ _ (uc_query_run _ _ _ _ _ He)), Hread.
Qed.

Lemma code_callback_new_pc_arch s (address size pc : Z) :
  res (code_callback_new_pc address size s) = inr pc ->
  eqv (_arch s) uc.UC_ARCH_MIPS = true
  \/ (eqv (_arch s) uc.UC_ARCH_X86 = true /\ eqv (_mode s) uc.UC_MODE_64 = true).
Proof.
  intros Hok.
  destruct (eqv (_arch s) uc.UC_ARCH_MIPS) eqn:Hmips; [by left|].
  destruct (eqv (_arch s) uc.UC_ARCH_X86) eqn:Hx86.
  - right. split; [done|].
    unfold code_callback_new_pc in Hok.
    apply bind_ok in Hok as ([] & _ & Hok).
    rewrite (run_outcome _ s __show_regs_same) in Hok. cbn [final] in Hok.
    apply bind_ok in Hok as (opcodes & Hread & Hok).
    rewrite (run_outcome _ s (uc_query_same _ _ _)) in Hok. cbn [final] in Hok.
    apply bind_ok in Hok as (l & Hdis & Hok).
    assert (Hsame : preserves (fun s => s) (_show_disasm_inst (E:=E) opcodes address)).
    { unfold _show_disasm_inst. preserves. }
    rewrite (run_outcome _ s Hsame) in Hok. cbn [final] in Hok.
    rewrite !bind_gets, Hmips, Hx86 in Hok.
    destruct (eqv (_mode s) uc.UC_MODE_16); [discriminate|].
    destruct (eqv (_mode s) uc.UC_MODE_32); [discriminate|].
    destruct (eqv (_mode s) uc.UC_MODE_64); [done|].
    rewrite bind_ret in Hok. by destruct l.
  - destruct (code_callback_new_pc_elsewhere s address size Hmips Hx86)
      as (e & tr & Heq & _).
    rewrite Heq in Hok. discriminate.
Qed.

Lemma call_returns (address : Z) (cb : callback) s :
  returns address cb ->
  call cb address s = Outcome (inr tt) s [call_callback cb address].
Proof.
  unfold call, returns. rewrite bind_emit.
  destruct cb as [|id raises]; [done|]. by intros ->.
Qed.

Lemma for_each_call (address : Z) (cbs : list callback) s :
  Forall (returns address) cbs ->
  for_each cbs (fun cb => call cb address) s =
    Outcome (inr tt) s ((fun cb => call_callback cb address) <$> cbs).
Proof.
  induction 1 as [|cb cbs Hcb _ IH]; [done|]. cbn [for_each fmap list_fmap].
  rewrite (bind_run _ _ _ _ _ _ (call_returns address cb s Hcb)), IH. reflexivity.
Qed.

End Run.

Section Halting.
Context {E : Type} `{!Unicorn E} `{!Capstone} `{!RegIds}.
Implicit Type s : PimpMyRide E.
Implicit Type t : target.Target E.

Lemma code_callback_breakpoint_run s (address : Z) e e' :
  address ∈ breakpoints s -> __uc s = Some e -> emu_stop e = inr e' ->
  Forall (returns address) (breakpoints_callback s) ->
  code_callback_breakpoint address s =
    Outcome (inr tt) (set___uc (Some e') s)
            (uc_emu_stop :: ((fun cb => call_callback cb address) <$> breakpoints_callback s)).
Proof.
  intros Hin He Hstop Hcbs. unfold code_callback_breakpoint.
  rewrite bind_gets, bool_decide_eq_true_2 by done.
  assert (Hup : uc_update "emu_stop" uc_emu_stop emu_stop s =
                Outcome (inr tt) (set___uc (Some e') s) [uc_emu_stop]).
  { rewrite (uc_update_run _ _ _ _ _ He), Hstop. reflexivity. }
  rewrite (bind_run _ _ _ _ _ _ Hup), bind_gets.
  cbn [breakpoints_callback set___uc].
  rewrite for_each_call by done. reflexivity.
Qed.

Lemma dispatch_halted_stays (tr : list event) t :
  target._state t = Some target.TARGET_HALTED ->
  target._state (target.dispatch tr t) = Some target.TARGET_HALTED.
Proof.
  revert t. induction tr as [|ev tr IH]; intros t Ht; [done|].
  unfold target.dispatch. cbn [foldl]. apply IH.
  destruct ev as [| | | | | | | | | | |[|] ?|]; done.
Qed.

Lemma dispatch_halts (tr : list event) (address : Z) t :
  call_callback bound_breakpoint_callback address ∈ tr ->
  target._state (target.dispatch tr t) = Some target.TARGET_HALTED.
Proof.
  revert t. induction tr as [|ev tr IH]; intros t Hin.
  - by apply elem_of_nil in Hin.
  - apply elem_of_cons in Hin as [<-|Hin].
    + unfold target.dispatch. cbn [foldl]. by apply dispatch_halted_stays.
    + unfold target.dispatch. cbn [foldl]. by apply IH.
Qed.


(** C5: when the engine's [emu_start] raises a [UcError],
    [start] catches it, prints the registers with [__show_regs] and
    returns what [__show_regs] returns: the engine's error is never
    raised to the caller, and on an architecture for which [__show_regs]
    prints nothing (neither MIPS nor x86) [start] returns [None] as after
    a run without error. *)
Theorem C5_engine_error_is_swallowed s (count timeout sa ra errno : Z) e s1 tr1 :
  _start_address s = Some sa -> _return_address s = Some ra -> __uc s = Some e ->
  emu_start run_hook sa ra timeout count s = Outcome (inl (UcError errno)) s1 tr1 ->
  start count timeout s =
    Outcome (res (__show_regs s1)) s1
            (uc_emu_start sa ra timeout count :: tr1 ++ trace (__show_regs s1))
  /\ (forall errno', res (start count timeout s) <> inl (UcError errno'))
  /\ (eqv (_arch s1) uc.UC_ARCH_MIPS = false ->
      eqv (_arch s1) uc.UC_ARCH_X86 = false ->
      res (start count timeout s) = inr tt).
Proof.
  intros Hsa Hra He Hrun.
  assert (Hstart : start count timeout s =
    Outcome (res (__show_regs s1)) s1
            (uc_emu_start sa ra timeout count :: tr1 ++ trace (__show_regs s1))).
  { unfold start.
    rewrite (try_except_run _ _ _ s (inl (UcError errno)) s1
               (uc_emu_start sa ra timeout count :: tr1)).
    - cbn [is_UcError]. by rewrite (__show_regs_same s1).
    - rewrite bind_gets, Hsa, bind_attr, He, bind_gets, Hra, bind_emit, Hrun.
      reflexivity. }
  split; [exact Hstart|]. rewrite Hstart. cbn [res]. split.
  - intros errno'. apply __show_regs_never_UcError.
  - intros Hmips Hx86. by rewrite __show_regs_elsewhere.
Qed.

End Halting.

(** ** The breakpoint list *)

Section Breakpoints.
Context {E : Type}.
Implicit Type s : PimpMyRide E.

Lemma list_remove_absent (x : Z) (l : list Z) : x ∉ l -> list_remove x l = l.
Proof.
  induction l as [|y l IH]; intros Hx; [reflexivity|].
  apply not_elem_of_cons in Hx as [Hne Hx]. simpl.
  rewrite bool_decide_eq_false_2 by congruence. by rewrite IH.
Qed.

Lemma list_remove_length (x : Z) (l : list Z) :
  x ∈ l -> S (List.length (list_remove x l)) = List.length l.
Proof.
  induction l as [|y l IH]; intros Hx; [by apply elem_of_nil in Hx|].
  simpl. destruct (bool_decide_reflect (y = x)) as [->|Hne]; [reflexivity|].
  apply elem_of_cons in Hx as [->|Hx]; [done|]. simpl. by rewrite IH.
Qed.

Lemma list_remove_keeps_duplicate (x : Z) (l : list Z) :
  x ∈ list_remove x (l ++ [x] ++ [x]).
Proof.
  induction l as [|y l IH]; simpl.
  - rewrite bool_decide_eq_true_2 by done. apply list_elem_of_here.
  - destruct (bool_decide_reflect (y = x)) as [->|Hne].
    + apply elem_of_app. right. apply list_elem_of_here.
    + apply list_elem_of_further, IH.
Qed.

(** C8: the breakpoints are kept in a list. [set_breakpoint]
    always appends the address, so setting an address twice leaves it
    twice in the list: the two lists have the same members but are not
    equal, and one [remove_breakpoint] then leaves the address set.
    [remove_breakpoint] of an address that is not in the list changes
    nothing and does not raise; of an address that is in the list it
    removes the first occurrence only. *)
Theorem C8_breakpoints_are_a_list s (addr : Z) :
  let s1 := final (set_breakpoint addr s) in
  let s2 := final (set_breakpoint addr s1) in
  res (set_breakpoint addr s) = inr tt
  /\ breakpoints s1 = breakpoints s ++ [addr]
  /\ breakpoints s2 = breakpoints s1 ++ [addr]
  /\ (forall x, x ∈ breakpoints s2 <-> x ∈ breakpoints s1)
  /\ addr ∈ breakpoints (final (remove_breakpoint addr s2))
  /\ (addr ∉ breakpoints s -> remove_breakpoint addr s = Outcome (inr tt) s [])
  /\ (addr ∈ breakpoints s ->
      res (remove_breakpoint addr s) = inr tt /\
      breakpoints (final (remove_breakpoint addr s)) = list_remove addr (breakpoints s) /\
      S (List.length (breakpoints (final (remove_breakpoint addr s))))
        = List.length (breakpoints s)).
Proof.
  simpl. repeat split.
  - intros Hx. rewrite !elem_of_app in Hx. rewrite elem_of_app. tauto.
  - intros Hx. apply elem_of_app. by left.
  - unfold remove_breakpoint, bind, gets, modify; simpl.
    rewrite bool_decide_eq_true_2.
    + simpl. rewrite <- app_assoc. apply list_remove_keeps_duplicate.
    + rewrite !elem_of_app, list_elem_of_singleton. tauto.
  - intros Hx. unfold remove_breakpoint, bind, gets, ret; simpl.
    by rewrite bool_decide_eq_false_2.
  - unfold remove_breakpoint, bind, gets, modify; simpl.
    by rewrite bool_decide_eq_true_2.
  - unfold remove_breakpoint, bind, gets, modify; simpl.
    by rewrite bool_decide_eq_true_2.
  - unfold remove_breakpoint, bind, gets, modify; simpl.
    rewrite bool_decide_eq_true_2 by done. simpl. by apply list_remove_length.
Qed.
End Breakpoints.

(** ** The adapter and the register context *)

Section Adapter.
Context {E : Type} `{!Unicorn E} `{!Capstone} `{!RegIds}.
Implicit Type s : PimpMyRide E.
Implicit Type t : target.Target E.

Lemma set_emu_emu t : target.set_emu (target.emu t) t = t.
Proof. by destruct t. Qed.

Lemma set___uc_same s e : __uc s = Some e -> set___uc (Some e) s = s.
Proof. destruct s. cbn. by intros ->. Qed.

Lemma x64_ids_unfold :
  x64_ids =
    [UC_X86_REG_RAX : Z; UC_X86_REG_RCX : Z; UC_X86_REG_RBX : Z; UC_X86_REG_RDX : Z;
     UC_X86_REG_RDI : Z; UC_X86_REG_RSI : Z; UC_X86_REG_RBP : Z; UC_X86_REG_RSP : Z;
     UC_X86_REG_R8 : Z; UC_X86_REG_R9 : Z; UC_X86_REG_R10 : Z; UC_X86_REG_R11 : Z;
     UC_X86_REG_R12 : Z; UC_X86_REG_R13 : Z; UC_X86_REG_R14 : Z; UC_X86_REG_R15 : Z;
     UC_X86_REG_RIP : Z].
Proof. reflexivity. Qed.

Lemma x64_profile_table t :
  x64_profile t -> res (_reg_map_table (target.emu t)) = inr (Some reg_map_X86_64).
Proof. intros (Ha & Hm & _). by apply x64_table. Qed.

Lemma on_emu_read_register t e (reg_name : string) :
  x64_profile t -> __uc (target.emu t) = Some e ->
  target.on_emu (read_register reg_name) t =
    Outcome (reg_read e (reg_index reg_name)) t [uc_reg_read (reg_index reg_name)].
Proof.
  intros Ht He. unfold target.on_emu.
  rewrite (read_register_run _ _ reg_name e (x64_profile_table t Ht) He).
  cbn [res final trace]. unfold target.dispatch. cbn [foldl].
  by rewrite set_emu_emu.
Qed.

Lemma on_emu_write_register t e (reg_name : string) (value : Z) :
  x64_profile t -> __uc (target.emu t) = Some e ->
  target.on_emu (write_register reg_name value) t =
    match reg_write e (reg_index reg_name) value with
    | inl err => Outcome (inl err) t [uc_reg_write (reg_index reg_name) value]
    | inr e' =>
        Outcome (inr tt) (target.set_emu (set___uc (Some e') (target.emu t)) t)
                [uc_reg_write (reg_index reg_name) value]
    end.
Proof.
  intros Ht He. unfold target.on_emu.
  rewrite (write_register_run _ _ reg_name value e (x64_profile_table t Ht) He).
  fold (reg_index reg_name).
  destruct (reg_write e (reg_index reg_name) value) as [err|e'];
    cbn [res final trace]; unfold target.dispatch; cbn [foldl];
    [by rewrite set_emu_emu|done].
Qed.

Lemma x64_profile_set_uc t e' :
  x64_profile t -> x64_profile (target.set_emu (set___uc (Some e') (target.emu t)) t).
Proof. by intros (?&?&?&?&?&?). Qed.

(** The loop of [getRegisterContext] on an x64 adapter: when it returns,
    every register was read, its value fits the format, and the string
    grew by the register context of the values. *)
Lemma getRegisterContext_loop_run t e (regs : list target.RegisterInfo)
    (resp blob : string) :
  x64_profile t -> __uc (target.emu t) = Some e ->
  res (target.getRegisterContext_loop regs resp t) = inr blob ->
  exists vs,
    Forall2 (fun reg v => reg_read e (reg_index (target.name reg)) = inr v
                          /\ 0 <= v < 2 ^ 64) regs vs
    /\ blob = resp +:+ register_context vs
    /\ final (target.getRegisterContext_loop regs resp t) = t.
Proof.
  intros Ht He. revert resp.
  induction regs as [|reg regs IH]; intros resp Hok.
  - exists []. cbn in Hok. injection Hok as <-.
    split; [constructor|]. by rewrite append_nil_r.
  - cbn [target.getRegisterContext_loop] in Hok |- *.
    rewrite (bind_run _ _ _ _ _ _ (on_emu_read_register t e _ Ht He)) in Hok |- *.
    destruct (reg_read e (reg_index (target.name reg))) as [err|v] eqn:Hread;
      [discriminate|].
    cbn [res final trace] in Hok |- *. rewrite bind_gets in Hok. rewrite bind_gets.
    pose proof Ht as (_ & _ & Hend & Hfmt & _).
    rewrite Hend, Hfmt, struct_pack_Q in Hok. rewrite Hend, Hfmt, struct_pack_Q.
    case_bool_decide as Hv; [|discriminate].
    destruct (IH _ Hok) as (vs & Hvs & -> & Hfin).
    exists (v :: vs). split; [by constructor|].
    split; [|exact Hfin].
    cbn [register_context foldr]. by rewrite append_assoc.
Qed.

End Adapter.

Section RoundTrip.
Context {E : Type} `{!Unicorn E} `{!Capstone} `{!RegIds}.
Implicit Type s : PimpMyRide E.
Implicit Type t : target.Target E.

(** The loop of [setRegisterContext] on an x64 adapter whose engine keeps
    a register file: every value is written to the register of its
    position, and is read back afterwards; the other registers of the
    file are as before. *)
Lemma setRegisterContext_loop_run (ids : list Z) (regs : list target.RegisterInfo)
    (vs : list Z) :
  register_file ids ->
  Forall2 (fun reg v => reg_index (target.name reg) ∈ ids /\ 0 <= v < 2 ^ 64) regs vs ->
  NoDup ((fun reg => reg_index (target.name reg)) <$> regs) ->
  forall (k : nat) t e,
  x64_profile t -> __uc (target.emu t) = Some e ->
  (forall i reg, regs !! i = Some reg -> target.regs_general !! (k + i)%nat = Some reg) ->
  let loop :=
    for_each (zip (seq k (List.length vs)) vs)
      (fun '(i, value) =>
         match target.regs_general !! i with
         | None => raise (IndexError "list index out of range")
         | Some reg => target.on_emu (write_register (target.name reg) value)
         end) in
  exists e',
    res (loop t) = inr tt
    /\ final (loop t) = target.set_emu (set___uc (Some e') (target.emu t)) t
    /\ Forall2 (fun reg v => reg_read e' (reg_index (target.name reg)) = inr v) regs vs
    /\ forall r, r ∈ ids ->
                 r ∉ ((fun reg => reg_index (target.name reg)) <$> regs) ->
                 reg_read e' r = reg_read e r.
Proof.
  intros Hfile. induction 1 as [|reg v regs vs [Hid Hv] _ IH];
    intros Hnodup k t e Ht He Hidx loop.
  - exists e. subst loop. cbn [for_each zip zip_with seq List.length res final ret].
    split; [done|]. split; [by rewrite set___uc_same, set_emu_emu|].
    split; [constructor|done].
  - cbn [fmap list_fmap] in Hnodup. apply NoDup_cons in Hnodup as [Hfresh Hnodup].
    destruct (Hfile e _ v Hid Hv) as (e1 & Hwrite & Hread & Hothers).
    set (t1 := target.set_emu (set___uc (Some e1) (target.emu t)) t).
    destruct (IH Hnodup (S k) t1 e1) as (e' & Hres & Hfin & Hreads & Hrest).
    { by apply x64_profile_set_uc. }
    { reflexivity. }
    { intros i r Hi. replace (S k + i)%nat with (k + S i)%nat by lia. by apply Hidx. }
    exists e'. subst loop.
    cbn [List.length seq zip zip_with for_each].
    assert (Hbody :
      (match target.regs_general !! k with
       | None => raise (IndexError "list index out of range")
       | Some reg => target.on_emu (write_register (target.name reg) v)
       end) t = Outcome (inr tt) t1 [uc_reg_write (reg_index (target.name reg)) v]).
    { specialize (Hidx 0%nat reg eq_refl). rewrite Nat.add_0_r in Hidx.
      rewrite Hidx, (on_emu_write_register t e _ v Ht He), Hwrite. reflexivity. }
    rewrite (bind_run _ _ _ _ _ _ Hbody). cbn [res final].
    split; [exact Hres|]. split; [exact Hfin|]. split.
    + constructor; [|exact Hreads]. by rewrite Hrest.
    + intros r Hin Hr. apply not_elem_of_cons in Hr as [Hne Hr].
      rewrite Hrest by done. by apply Hothers.
Qed.

(** C6: for two initialised adapters over x64 sessions, on an engine that
    keeps the seventeen exposed registers as 64-bit registers (a write
    to one of them is granted, is read back, and leaves the other
    sixteen alone), the context that [getRegisterContext] returns on the
    first is accepted by [setRegisterContext] on the second, after which
    every exposed register reads on the second the value it reads on the
    first. *)
Theorem C6_register_context_round_trip (t1 t2 : target.Target E) (e1 e2 : E)
    (blob : string) :
  register_file x64_ids -> NoDup x64_ids ->
  x64_profile t1 -> x64_profile t2 ->
  __uc (target.emu t1) = Some e1 -> __uc (target.emu t2) = Some e2 ->
  res (target.getRegisterContext t1) = inr blob ->
  res (target.setRegisterContext blob t2) = inr tt
  /\ forall reg, reg ∈ target.regs_general ->
       exists v,
         res (target.on_emu (read_register (target.name reg)) t1) = inr v
         /\ res (target.on_emu (read_register (target.name reg))
                   (final (target.setRegisterContext blob t2))) = inr v.
Proof.
  intros Hfile Hnodup Ht1 Ht2 He1 He2 Hget.
  pose proof Ht1 as (_ & _ & _ & _ & _ & Hlist1).
  unfold target.getRegisterContext in Hget.
  rewrite bind_attr, Hlist1 in Hget.
  destruct (getRegisterContext_loop_run t1 e1 _ _ _ Ht1 He1 Hget)
    as (vs & Hvs & -> & _).
  rewrite append_nil_l.
  assert (Hrange : Forall (fun v => 0 <= v < 2 ^ 64) vs).
  { clear -Hvs. induction Hvs as [|???? [_ ?]]; by constructor. }
  pose proof Ht2 as (_ & _ & Hend & Hfmt & Hstep & _).
  destruct (setRegisterContext_loop_run x64_ids target.regs_general vs Hfile)
    with (k := 0%nat) (t := t2) (e := e2) as (e' & Hres & Hfin & Hreads & _);
    [| exact Hnodup | exact Ht2 | exact He2 | done |].
  { clear -Hvs. unfold x64_ids.
    induction Hvs as [|reg v regs vs [_ Hv] _ IH]; constructor.
    - split; [apply list_elem_of_here|done].
    - eapply Forall2_impl; [exact IH|]. intros r v' [Hin Hv'].
      split; [by apply list_elem_of_further|done]. }
  assert (Hset : target.setRegisterContext (register_context vs) t2 =
                 for_each (zip (seq 0 (List.length vs)) vs)
                   (fun '(i, value) =>
                      match target.regs_general !! i with
                      | None => raise (IndexError "list index out of range")
                      | Some reg => target.on_emu (write_register (target.name reg) value)
                      end) t2).
  { unfold target.setRegisterContext. rewrite hexDecode_register_context.
    rewrite !bind_gets, Hend, Hfmt, Hstep.
    rewrite bool_decide_eq_false_2 by lia.
    by rewrite struct_unpack_packed. }
  rewrite Hset. split; [exact Hres|].
  intros reg Hreg. apply list_elem_of_lookup in Hreg as [i Hi].
  destruct (Forall2_lookup_l _ _ _ _ _ Hvs Hi) as (v & Hv & Hread1 & _).
  destruct (Forall2_lookup_l _ _ _ _ _ Hreads Hi) as (v' & Hv' & Hread2).
  assert (v' = v) as -> by congruence.
  exists v. split.
  - by rewrite (on_emu_read_register t1 e1 _ Ht1 He1).
  - rewrite Hfin.
    rewrite (on_emu_read_register _ e' _ (x64_profile_set_uc t2 e' Ht2) eq_refl).
    exact Hread2.
Qed.


End RoundTrip.

(** * The examples *)

Import reference.

Lemma machine_register_file (ids : list Z) : register_file (E:=machine) ids.
Proof.
  intros e r v _ Hv. exists (set_reg e r v). split; [reflexivity|]. split.
  - cbn. unfold read_reg, set_reg. cbn [registers].
    rewrite lookup_insert_eq. cbn. f_equal. apply Z.mod_small. lia.
  - intros r' _ Hne. cbn. unfold read_reg, set_reg. cbn [registers].
    by rewrite lookup_insert_ne.
Qed.

Lemma x64_ids_NoDup : NoDup (@x64_ids unicorn_1_0).
Proof. apply (bool_decide_unpack _). vm_compute. exact I. Qed.

(** C1, counterexample: a range outside every declared area and the stack
    is read, and written, with the empty string as result and no error. *)
Lemma C1_counterexample :
  ~ (inside_area demo.x64_ready 0x5000 (0x5000 + 4)
     \/ inside_stack demo.x64_ready 0x5000 (0x5000 + 4))
  /\ res (read_memory 0x5000 4 demo.x64_ready) = inr ""
  /\ res (write_memory 0x5000 demo.stub demo.x64_ready) = inr (Some "").
Proof.
  split; [|split; vm_compute; reflexivity].
  rewrite <- is_valid_memory_range_spec. vm_compute. discriminate.
Qed.

(** C1, on the prepared x64 session. *)
Lemma C1_witness :
  read_memory 0x5000 4 demo.x64_ready = Outcome (inr "") demo.x64_ready []
  /\ write_memory 0x5000 demo.stub demo.x64_ready
     = Outcome (inr (Some "")) demo.x64_ready []
  /\ read_memory 0x1000 3 demo.x64_ready
     = Outcome (inr demo.stub) demo.x64_ready [uc_mem_read 0x1000 3].
Proof.
  destruct (C1_invalid_range_reads_empty demo.x64_ready 0x5000 4 demo.stub)
    as (Hread & Hwrite & _).
  destruct (C1_invalid_range_reads_empty demo.x64_ready 0x1000 3 demo.stub)
    as (_ & _ & Hin & _).
  split; [|split].
  - apply Hread. rewrite <- is_valid_memory_range_spec. vm_compute. discriminate.
  - apply Hwrite. rewrite <- is_valid_memory_range_spec. vm_compute. discriminate.
  - rewrite (Hin (demo.engine_of demo.x64_ready)).
    + vm_compute. reflexivity.
    + vm_compute. reflexivity.
    + rewrite <- is_valid_memory_range_spec. vm_compute. reflexivity.
Defined.

(** C2, counterexample: the upper-case spelling of a name of the table, and
    a name that the table does not have, both get the sentinel id, which
    is then handed to the engine. *)
Lemma C2_counterexample :
  res (_reg_map "rax" demo.x64) = inr 35
  /\ res (_reg_map "RAX" demo.x64) = inr 0x11223344
  /\ res (_reg_map "RAX" demo.x64) <> res (_reg_map "rax" demo.x64)
  /\ res (_reg_map "cr3" demo.x64) = inr 0x11223344
  /\ trace (read_register "cr3" demo.x64_ready) = [uc_reg_read 0x11223344].
Proof. repeat apply conj; try (vm_compute; reflexivity). vm_compute. discriminate. Qed.

(** C2, on the prepared x64 session. *)
Lemma C2_witness :
  _reg_map "RAX" demo.x64_ready = Outcome (inr 0x11223344) demo.x64_ready []
  /\ reg_map_X86_64 !! upper "rax" = None
  /\ read_register "RAX" demo.x64_ready
     = Outcome (inr 0) demo.x64_ready [uc_reg_read 0x11223344].
Proof.
  destruct (C2_lookup_is_exact demo.x64_ready reg_map_X86_64)
    as (_ & Hmap & Hupper & Hread); [vm_compute; reflexivity|].
  split; [|split].
  - rewrite Hmap. vm_compute. reflexivity.
  - apply Hupper. vm_compute. eexists. reflexivity.
  - destruct (Hread "RAX" (demo.engine_of demo.x64_ready)) as [-> _];
      vm_compute; reflexivity.
Defined.

(** C3: the regions that [__initialize_memory] requests overlap for two
    declared areas that touch, so that the engine refuses the second and
    [init] fails; and the region requested for an area that does not start
    on a page boundary can end before the area does, so that a byte of the
    area that passes the range check is not mapped. *)
Theorem C3_requested_regions_overlap_or_fall_short :
  __memory_areas demo.contiguous = [(0x1000, 0x1000); (0x2000, 0x1000)]
  /\ (area_request <$> __memory_areas demo.contiguous)
     = [uc_mem_map 0x1000 0x2000 (Some uc.UC_PROT_ALL);
        uc_mem_map 0x2000 0x2000 (Some uc.UC_PROT_ALL)]
  /\ mapped_regions (trace (init demo.contiguous))
     = [(0x70000000, 0x1000); (0x1000, 0x2000); (0x2000, 0x2000)]
  /\ res (init demo.contiguous) = inl (UcError UC_ERR_MAP)
  /\ __memory_areas demo.straddling = [(0xFFF, 0x1002)]
  /\ res (init demo.straddling) = inr tt
  /\ mapped_regions (trace (init demo.straddling))
     = [(0x70000000, 0x1000); (0, 0x2000)]
  /\ __is_valid_memory_range demo.straddling 0x2000 (0x2000 + 1) = true
  /\ res (read_memory 0x2000 1 (final (init demo.straddling)))
     = inl (UcError UC_ERR_READ_UNMAPPED).
Proof. repeat apply conj; vm_compute; reflexivity. Qed.



(** C5, counterexample: the engine refuses to fetch at an unmapped start
    address, and [start] returns [None]. *)
Lemma C5_counterexample :
  res (emu_start run_hook 0x5000 0x1003 0 0 demo.x64_astray)
    = inl (UcError UC_ERR_FETCH_UNMAPPED)
  /\ res (start 0 0 demo.x64_astray) = inr tt.
Proof. split; vm_compute; reflexivity. Qed.

(** C5, on the x64 session whose start address is unmapped. *)
Lemma C5_witness :
  res (start 0 0 demo.x64_astray) = inr tt
  /\ head (trace (start 0 0 demo.x64_astray)) = Some (uc_emu_start 0x5000 0x1003 0 0).
Proof.
  destruct (C5_engine_error_is_swallowed demo.x64_astray 0 0 0x5000 0x1003
              UC_ERR_FETCH_UNMAPPED (demo.engine_of demo.x64_astray)
              (final (emu_start run_hook 0x5000 0x1003 0 0 demo.x64_astray))
              (trace (emu_start run_hook 0x5000 0x1003 0 0 demo.x64_astray)))
    as (Hstart & _ & _).
  - reflexivity.
  - reflexivity.
  - vm_compute. reflexivity.
  - rewrite <- (outcome_eta (emu_start _ _ _ _ _ _)) at 1.
    f_equal; vm_compute; reflexivity.
  - rewrite Hstart. split; [vm_compute; reflexivity|reflexivity].
Defined.

(** C6, counterexample: the adapter over a 32-bit x86 session is
    initialised, has its register list and an engine, and
    [getRegisterContext] raises on it without a request to the engine:
    between two sessions of this profile no context is carried over.
    [setRegisterContext] raises as well, for a context of one word. *)
Lemma C6_counterexample :
  res (target.init true true (demo.new_target (target.Target__init__ demo.x86_32)))
    = inr tt
  /\ _arch (target.emu demo.gdb32) = Some uc.UC_ARCH_X86
  /\ _mode (target.emu demo.gdb32) = Some uc.UC_MODE_32
  /\ bool_decide (is_Some (__uc (target.emu demo.gdb32))) = true
  /\ target.register_list demo.gdb32 = Some target.regs_general
  /\ target.getRegisterContext demo.gdb32
     = Outcome (inl (Exception "Register map not implemented")) demo.gdb32 []
  /\ res (target.setRegisterContext "01000000" demo.gdb32)
     = inl (Exception "Register map not implemented").
Proof. repeat apply conj; vm_compute; reflexivity. Qed.

(** C6, between two x64 adapters over the reference engine. *)
Lemma C6_witness :
  let blob :=
    "8877665544332211" +:+ "0000000000000000" +:+ "0000000000000000"
    +:+ "0000000000000000" +:+ "0200000000000000" +:+ "0100000000000000"
    +:+ "0000000000000000" +:+ "0010007000000000" +:+ "0000000000000000"
    +:+ "0000000000000000" +:+ "0000000000000000" +:+ "0000000000000000"
    +:+ "0000000000000000" +:+ "0000000000000000" +:+ "0000000000000000"
    +:+ "ffffffffffffffff" +:+ "0000000000000000" in
  res (target.getRegisterContext demo.gdb1) = inr blob
  /\ res (target.setRegisterContext blob demo.gdb2) = inr tt
  /\ res (target.on_emu (read_register "rax")
            (final (target.setRegisterContext blob demo.gdb2)))
     = inr 0x1122334455667788
  /\ res (target.on_emu (read_register "r15")
            (final (target.setRegisterContext blob demo.gdb2)))
     = inr 0xFFFFFFFFFFFFFFFF.
Proof.
  intros blob.
  assert (Hget : res (target.getRegisterContext demo.gdb1) = inr blob)
    by (vm_compute; reflexivity).
  destruct (C6_register_context_round_trip demo.gdb1 demo.gdb2
              (demo.engine_of (target.emu demo.gdb1))
              (demo.engine_of (target.emu demo.gdb2)) blob
              (machine_register_file _) x64_ids_NoDup) as (Hset & Hsame);
    [repeat apply conj; reflexivity | repeat apply conj; reflexivity
    | vm_compute; reflexivity | vm_compute; reflexivity | exact Hget |].
  split; [exact Hget|]. split; [exact Hset|]. split.
  - destruct (Hsame (target.RegisterInfo__init__ "rax" 32 "int" "general"))
      as (v & Hv1 & Hv2); [apply list_elem_of_here|].
    etrans; [exact Hv2|]. rewrite <- Hv1. vm_compute. reflexivity.
  - destruct (Hsame (target.RegisterInfo__init__ "r15" 32 "code_ptr" "general"))
      as (v & Hv1 & Hv2); [do 15 apply list_elem_of_further; apply list_elem_of_here|].
    etrans; [exact Hv2|]. rewrite <- Hv1. vm_compute. reflexivity.
Defined.

(** C7, counterexample: the second [init] succeeds, creates the engine and
    maps the memory again. *)
Lemma C7_counterexample :
  res (init demo.x64) = inr tt
  /\ res (init (final (init demo.x64))) = inr tt
  /\ head (trace (init (final (init demo.x64)))) = Some (uc_Uc uc.UC_ARCH_X86 uc.UC_MODE_64)
  /\ mapped_regions (trace (init (final (init demo.x64))))
     = [(0x70000000, 0x1000); (0x1000, 0x1000)].
Proof. repeat apply conj; vm_compute; reflexivity. Qed.


(** C10, for the requested stack base [0x70000800]. *)
Lemma C10_witness :
  let s := demo.new (PimpMyRide__init__ "x64" 64 true 0x70000800 1 COMPILE_GCC) in
  stack s = 0x70000000 /\ stack s < 0x70000800
  /\ __is_valid_memory_range demo.x64_powered 0x70000000 0x70001000 = true
  /\ head (trace (__initialize_memory demo.x64_powered))
     = Some (uc_mem_map 0x70000000 0x1000 None)
  /\ uc_reg_write (UC_X86_REG_RSP : Z) 0x70001000
       ∈ trace (__initialize_memory demo.x64_powered).
Proof.
  cbv zeta.
  destruct (C10_stack_base_is_aligned "x64" 64 true 0x70000800 1 COMPILE_GCC
              (demo.new (PimpMyRide__init__ "x64" 64 true 0x70000800 1 COMPILE_GCC)))
    as (Hstack & _ & _ & Hbelow & Hlater); [reflexivity|].
  destruct (Hlater demo.x64_powered) as (Hvalid & Hmem); [reflexivity..|].
  destruct Hmem as (sp & rest & Hsp & Htr); [vm_compute; reflexivity|].
  split; [rewrite Hstack; reflexivity|].
  split; [apply Hbelow; vm_compute; discriminate|].
  split; [apply Hvalid; vm_compute; discriminate|].
  rewrite Htr. split; [reflexivity|].
  apply list_elem_of_further, elem_of_app. right.
  injection Hsp as <-. apply list_elem_of_here.
Defined.

(** C8, counterexample: after setting an address twice the list is not the
    list after setting it once, and it holds the address twice. *)
Lemma C8_counterexample :
  let s1 := final (set_breakpoint 0x2000 demo.x64) in
  let s2 := final (set_breakpoint 0x2000 s1) in
  ~ (breakpoints s2 = breakpoints s1 /\ NoDup (breakpoints s2)).
Proof.
  intros s1 s2 [Heq _]. vm_compute in Heq. discriminate Heq.
Qed.

(** C8, on the x64 session with one breakpoint at [0x1001]. *)
Lemma C8_witness :
  remove_breakpoint 0x3000 demo.x64 = Outcome (inr tt) demo.x64 []
  /\ breakpoints (final (remove_breakpoint 0x1001 demo.x64)) = [].
Proof.
  destruct (C8_breakpoints_are_a_list demo.x64 0x3000) as (_ & _ & _ & _ & _ & H & _).
  destruct (C8_breakpoints_are_a_list demo.x64 0x1001) as (_ & _ & _ & _ & _ & _ & H').
  split.
  - apply H. vm_compute. intros Hin. apply list_elem_of_singleton in Hin. discriminate Hin.
  - destruct H' as (_ & -> & _).
    + vm_compute. apply list_elem_of_here.
    + reflexivity.
Defined.

(** * Further properties of the session and of the adapter *)

(** ** The flag bits *)

Lemma land_pow2 (value offset : Z) :
  0 <= offset ->
  Z.land value (2 ^ offset) = if Z.testbit value offset then 2 ^ offset else 0.
Proof.
  intros Ho. apply Z.bits_inj'. intros n Hn.
  rewrite Z.land_spec, Z.pow2_bits_eqb by done.
  destruct (Z.eqb_spec offset n) as [->|Hne].
  - destruct (Z.testbit value n) eqn:Hb.
    + by rewrite Z.pow2_bits_true.
    + by rewrite Z.bits_0.
  - rewrite andb_false_r. destruct (Z.testbit value offset).
    + rewrite Z.pow2_bits_false; done.
    + by rewrite Z.bits_0.
Qed.

Lemma _get_bit_run (value offset : Z) :
  0 <= offset -> _get_bit value offset = Some (Z.b2z (Z.testbit value offset)).
Proof.
  intros Ho. unfold _get_bit. rewrite bool_decide_eq_false_2 by lia.
  cbv zeta. rewrite Z.shiftl_1_l, land_pow2 by done.
  pose proof (Z.pow_pos_nonneg 2 offset ltac:(lia) Ho).
  destruct (Z.testbit value offset); cbn [Z.b2z].
  - by rewrite bool_decide_eq_true_2 by lia.
  - by rewrite bool_decide_eq_false_2 by lia.
Qed.

(** X1: [_get_bit] raises for a negative offset, and for every other
    offset returns the bit of the value at that offset, 1 or 0, of a
    negative value (in two's complement) as of a positive one; the level
    that [__show_regs] prints as IOPL from the bits 12 and 13 is the
    two-bit field of the flags at offset 12. *)
Theorem X1_get_bit_is_the_bit (value offset : Z) :
  _get_bit value offset =
    (if bool_decide (offset < 0) then None
     else Some (if Z.testbit value offset then 1 else 0))
  /\ IOPL value = Some (Z.land (Z.shiftr value 12) 3).
Proof.
  split.
  - case_bool_decide as Ho.
    + unfold _get_bit. by rewrite bool_decide_eq_true_2.
    + rewrite _get_bit_run by lia. by destruct (Z.testbit value offset).
  - unfold IOPL. rewrite !_get_bit_run by lia. f_equal.
    change 3 with (Z.ones 2). rewrite Z.land_ones by lia.
    rewrite Z.shiftr_div_pow2 by lia.
    rewrite !Z.testbit_spec' by lia.
    replace (value `div` 2 ^ 13) with ((value `div` 2 ^ 12) `div` 2)
      by (rewrite Z.div_div by lia; reflexivity).
    generalize (value `div` 2 ^ 12). intros q.
    change (2 ^ 2) with 4.
    pose proof (Z.div_mod q 2 ltac:(lia)).
    pose proof (Z.div_mod (q `div` 2) 2 ltac:(lia)).
    pose proof (Z.div_mod q 4 ltac:(lia)).
    pose proof (Z.mod_pos_bound q 2 ltac:(lia)).
    pose proof (Z.mod_pos_bound (q `div` 2) 2 ltac:(lia)).
    pose proof (Z.mod_pos_bound q 4 ltac:(lia)).
    lia.
Qed.

(** ** The constructor and the checks of [init] *)

(** A string that is none of the strings of a list. *)
Ltac not_listed H :=
  repeat (apply elem_of_cons in H as [H|H]; [congruence|]);
  by apply elem_of_nil in H.

Ltac listed :=
  repeat (first [apply list_elem_of_here | apply list_elem_of_further]).

Section Constructor.
Context {E : Type} `{!Unicorn E} `{!Capstone} `{!RegIds}.
Implicit Type s : PimpMyRide E.

(** X2: the constructor returns a session for the architecture names
    MIPS, ARM, AArch64 and x64 whatever the number of bits, and for x86
    with 32 bits; the names are case-sensitive.  For x86 with 16 bits it
    raises [NameError]: the register setup, which it calls last,
    evaluates [UC_X86_REG_PC], a name that is not defined.  Every other
    call raises a [PimpMyRideException].  A new session has no engine, no
    disassembler, no start or return address, no memory areas or
    contents, no breakpoints, no breakpoint callbacks, no preset
    registers and no hooks. *)
Theorem X2_constructor_architectures (architecture : string) (bits : Z)
    (little : bool) (stack0 stack_size0 compiler0 : Z) :
  let new := PimpMyRide__init__ (E:=E) architecture bits little stack0
                                stack_size0 compiler0 in
  ((exists s, new = inr s) <->
     architecture ∈ ["MIPS"; "ARM"; "AArch64"; "x64"]
     \/ (architecture = "x86" /\ bits = 32))
  /\ (architecture = "x86" -> bits = 16 -> new = inl (NameError "UC_X86_REG_PC"))
  /\ (forall e, new = inl e -> ~ (architecture = "x86" /\ bits = 16) ->
        exists msg, e = PimpMyRideException msg)
  /\ (forall s, new = inr s ->
        __uc s = None /\ __cs s = None
        /\ _start_address s = None /\ _return_address s = None
        /\ __memory_areas s = [] /\ __memory_contents s = []
        /\ breakpoints s = [] /\ breakpoints_callback s = []
        /\ __regs s = ∅ /\ __hooks s = ∅
        /\ stack_size s = stack_size0 /\ compiler s = compiler0).
Proof.
  cbv zeta. unfold PimpMyRide__init__.
  destruct (String.eqb_spec architecture "ppc") as [->|Hppc].
  { split; [|split; [|split]];
      [|intros [=]|intros e [= <-] _; by eexists|intros s [=]].
    split; [intros [s [=]]|].
    intros [Hin|[[=] _]]. not_listed Hin. }
  destruct (String.eqb_spec architecture "MIPS") as [->|Hmips].
  { split; [|split; [|split]]; [|intros [=]|intros e [=]|intros s [= <-]; done].
    split; [intros _; left; listed|intros _; by eexists]. }
  destruct (String.eqb_spec architecture "ARM") as [->|Harm].
  { split; [|split; [|split]]; [|intros [=]|intros e [=]|intros s [= <-]; done].
    split; [intros _; left; listed|intros _; by eexists]. }
  destruct (String.eqb_spec architecture "AArch64") as [->|Ha64].
  { split; [|split; [|split]]; [|intros [=]|intros e [=]|intros s [= <-]; done].
    split; [intros _; left; listed|intros _; by eexists]. }
  destruct (String.eqb_spec architecture "x86") as [->|Hx86].
  { repeat case_bool_decide.
    - split; [|split; [|split]];
        [|intros _ ?; lia|intros e [=]|intros s [= <-]; done].
      split; [intros _; right; tauto|intros _; by eexists].
    - split; [|split; [|split]];
        [|done|intros e _ []; done|intros s [=]].
      split; [intros [s [=]]|]. intros [Hin|[_ ?]]; [not_listed Hin|lia].
    - split; [|split; [|split]];
        [|intros _ ?; lia|intros e [= <-] _; by eexists|intros s [=]].
      split; [intros [s [=]]|]. intros [Hin|[_ ?]]; [not_listed Hin|lia]. }
  destruct (String.eqb_spec architecture "x64") as [->|Hx64].
  { split; [|split; [|split]]; [|intros [=]|intros e [=]|intros s [= <-]; done].
    split; [intros _; left; listed|intros _; by eexists]. }
  split; [|split; [|split]];
    [|intros ?; done|intros e [= <-] _; by eexists|intros s [=]].
  split; [intros [s [=]]|]. intros [Hin|[? _]]; [not_listed Hin|done].
Qed.

End Constructor.

(** ** [init]: its checks, and what it leaves alone *)

(** Preservation by the structure of the computation, where [known]
    settles the calls it knows. *)
Ltac preserves_by known :=
  repeat first
    [ known
    | apply preserves_ret | apply preserves_raise | apply preserves_gets
    | apply preserves_emit | apply preserves_attr
    | apply preserves_bind; [|intros ?]
    | apply preserves_try_except; [|intros ?]
    | apply preserves_for_each; intros ?
    | apply preserves_modify; intros ?; reflexivity
    | match goal with
      | |- preserves _ (match ?x with _ => _ end) => destruct x
      | |- preserves _ (if ?b then _ else _) => destruct b
      | |- preserves _ (let '(_, _) := ?x in _) => destruct x
      end ].

Section InitChecks.
Context {E : Type} `{!Unicorn E} `{!Capstone} `{!RegIds}.
Implicit Type s : PimpMyRide E.

(** X3: [init] checks the session before it creates anything.  When the
    architecture or the mode is unset, or the start address, the return
    address, the memory areas or the memory contents are missing, it
    raises a [PimpMyRideException], asks nothing of the engine or of the
    disassembler and leaves the session as it was; otherwise the first
    thing it does is to create the engine for the architecture and the
    mode of the session. *)
Theorem X3_init_checks_first s :
  (_arch s = None \/ _arch s = Some 0 \/ _mode s = None
   \/ _start_address s = None \/ _return_address s = None
   \/ __memory_areas s = [] \/ __memory_contents s = [] ->
   exists msg, init s = Outcome (inl (PimpMyRideException msg)) s [])
  /\ (forall arch mode,
        _arch s = Some arch -> arch <> 0 -> _mode s = Some mode ->
        _start_address s <> None -> _return_address s <> None ->
        __memory_areas s <> [] -> __memory_contents s <> [] ->
        head (trace (init s)) = Some (uc_Uc arch mode)).
Proof.
  split.
  - intros Hmiss. unfold init. rewrite !bind_gets.
    destruct (_arch s) as [[|arch|arch]|]; try (by eexists);
      (destruct (_mode s) as [mode|]; [|by eexists]).
    all: repeat (case_bool_decide; [by eexists|]).
    all: exfalso; destruct Hmiss as [?|[?|[?|[?|[?|[?|?]]]]]]; done.
  - intros arch mode Ha Hne Hm Hsa Hra Hareas Hcontents.
    unfold init. rewrite !bind_gets, Ha, Hm.
    destruct arch as [|arch|arch]; [done|..].
    all: rewrite !bool_decide_eq_false_2 by done.
    all: by rewrite bind_emit.
Qed.

Lemma uc_update_has_engine (n : string) (ev : event) (op : E -> exn + E) :
  preserves (fun s => bool_decide (is_Some (__uc s))) (uc_update n ev op).
Proof.
  intros s. destruct (__uc s) as [e|] eqn:He.
  - rewrite (uc_update_run _ _ _ _ _ He).
    destruct (op e); cbn [final]; [by rewrite He|].
    cbn [__uc set___uc]. rewrite !bool_decide_eq_true_2; [done|by eexists..].
  - rewrite (uc_update_none _ _ _ _ He). cbn [final]. by rewrite He.
Qed.

Lemma uc_update_cs (n : string) (ev : event) (op : E -> exn + E) :
  preserves __cs (uc_update n ev op).
Proof. unfold uc_update. preserves. Qed.

Lemma after_the_instances {K} (keep : PimpMyRide E -> K) :
  (forall n ev op, preserves keep (uc_update n ev op)) ->
  preserves keep (__initialize_memory ;; __initialize_hooks ;; __initialize_registers).
Proof.
  intros Hup.
  assert (Hq : forall A n ev (op : E -> exn + A), preserves keep (uc_query n ev op)).
  { intros. unfold uc_query. preserves. }
  unfold __initialize_memory, __initialize_hooks, __initialize_registers,
    write_memory, _memory_map, write_register, _reg_map, _reg_map_table.
  preserves_by ltac:(first [apply Hup | apply Hq]).
Qed.

Lemma init_sets_the_instances s :
  res (init s) = inr tt ->
  is_Some (__uc (final (init s)))
  /\ __cs (final (init s)) = Some (_cs_arch s, _cs_mode s).
Proof.
  unfold init. rewrite !bind_gets.
  destruct (_arch s) as [[|arch|arch]|]; try discriminate;
    (destruct (_mode s) as [mode|]; [|discriminate]).
  all: repeat (case_bool_decide; [discriminate|]).
  all: rewrite bind_emit; cbn [res final].
  all: destruct (Uc _ mode) as [err|e]; [discriminate|].
  all: rewrite bind_modify, !bind_gets, bind_emit; cbn [res final].
  all: cbn [_cs_arch _cs_mode set___uc].
  all: destruct (Cs _ _) as [err|[]]; [discriminate|].
  all: rewrite bind_modify; intros _.
  all: set (s2 := set___cs _ _).
  all: pose proof (after_the_instances _ uc_update_has_engine s2) as Huc.
  all: pose proof (after_the_instances _ uc_update_cs s2) as Hcs.
  all: cbv beta in Huc, Hcs.
  all: split; [|exact Hcs].
  all: by apply bool_decide_eq_true in Huc.
Qed.

(** X8: [init] changes nothing of the session but its engine and its
    disassembler: the addresses, the memory areas and contents, the
    stack, the breakpoints and their callbacks, the preset registers and
    the hooks are as before, whether it returns or raises.  When it
    returns, the session has an engine and the disassembler of its
    architecture and mode. *)
Theorem X8_init_keeps_the_configuration s :
  configuration (final (init s)) = configuration s
  /\ (res (init s) = inr tt ->
      is_Some (__uc (final (init s)))
      /\ __cs (final (init s)) = Some (_cs_arch s, _cs_mode s)).
Proof. split; [apply init_configuration|apply init_sets_the_instances]. Qed.

End InitChecks.

(** ** The register setup and the adapter's constructor *)

Ltac setup_named :=
  split; [eexists; reflexivity|]; split; [eexists; reflexivity|];
  split; [reflexivity|].

Section Setup.
Context {E : Type} `{!Unicorn E} `{!Capstone} `{!RegIds}.
Implicit Type s : PimpMyRide E.

(** X4: for every session that the constructor returns, the register
    setup names a program counter and a stack pointer and the byte order
    ["<"], also for a big-endian MIPS session.  The word format is set
    except for big-endian MIPS, whose mode is none of the modes that
    [_setup_registers] knows: there the adapter's constructor raises an
    [AttributeError] on [pack_format].  For every other session the
    adapter is created, holds the session with the adapter's callback
    registered last, is in no state yet and has no register list, and its
    [step] is the size in bytes of its pack format. *)
Theorem X4_adapter_word_format (architecture : string) (bits : Z)
    (little : bool) (stack0 stack_size0 compiler0 : Z) s :
  PimpMyRide__init__ architecture bits little stack0 stack_size0 compiler0 = inr s ->
  is_Some (REG_PC (setup s)) /\ is_Some (REG_SP (setup s))
  /\ pack_endian (setup s) = Some "<"
  /\ (architecture = "MIPS" /\ little = false ->
      target.Target__init__ s = inl (AttributeError "pack_format"))
  /\ (~ (architecture = "MIPS" /\ little = false) ->
      exists t c,
        target.Target__init__ s = inr t
        /\ target.emu t = set_breakpoints_callback [bound_breakpoint_callback] s
        /\ target.endian t = "<"
        /\ target.pack_format t = String c ""
        /\ format_size c = Some (Z.to_nat (target.step t))
        /\ target._state t = None /\ target.register_list t = None).
Proof.
  unfold PimpMyRide__init__.
  destruct (String.eqb_spec architecture "ppc") as [->|Hppc]; [discriminate|].
  destruct (String.eqb_spec architecture "MIPS") as [->|Hmips].
  { destruct little; intros [= <-].
    - setup_named.
      split; [by intros [_ [=]]|]. intros _. eexists _, _.
      repeat apply conj; reflexivity.
    - setup_named.
      split; [reflexivity|]. by intros []. }
  assert (Hnot : ~ (architecture = "MIPS" /\ little = false)) by (by intros [? _]).
  destruct (String.eqb_spec architecture "ARM") as [->|Harm].
  { intros [= <-]. setup_named.
    split; [by intros [[=] _]|]. intros _. eexists _, _.
    repeat apply conj; reflexivity. }
  destruct (String.eqb_spec architecture "AArch64") as [->|Ha64].
  { intros [= <-]. setup_named.
    split; [by intros [[=] _]|]. intros _. eexists _, _.
    repeat apply conj; reflexivity. }
  destruct (String.eqb_spec architecture "x86") as [->|Hx86].
  { repeat case_bool_decide; [..|discriminate]; intros [= <-].
    all: setup_named.
    all: split; [by intros [[=] _]|]; intros _; eexists _, _.
    all: repeat apply conj; reflexivity. }
  destruct (String.eqb_spec architecture "x64") as [->|Hx64]; [|discriminate].
  intros [= <-]. setup_named.
  split; [by intros [[=] _]|]. intros _. eexists _, _.
  repeat apply conj; reflexivity.
Qed.

End Setup.

(** ** Declaring memory *)

Section Declaring.
Context {E : Type} `{!Unicorn E} `{!Capstone} `{!RegIds}.
Implicit Type s : PimpMyRide E.

Lemma len_0 (content : string) : len content = 0 <-> content = "".
Proof. unfold len. destruct content; cbn [String.length]; split; (done || lia). Qed.

(** X5: [add_memory_area] refuses a size that is not positive with a
    [PimpMyRideException] and leaves the session as it was.  Every other
    area is appended, whatever its address and whether or not it is
    aligned or overlaps an area declared before; from then on every range
    within the area passes the range check, and so does every range that
    passed it before. *)
Theorem X5_add_memory_area s (address size : Z) :
  (size <= 0 ->
   exists msg,
     add_memory_area address size s = Outcome (inl (PimpMyRideException msg)) s [])
  /\ (0 < size ->
      let s' := final (add_memory_area address size s) in
      add_memory_area address size s = Outcome (inr tt) s' []
      /\ __memory_areas s' = __memory_areas s ++ [(address, size)]
      /\ (forall a b, address <= a -> b <= address + size ->
            __is_valid_memory_range s' a b = true)
      /\ (forall a b, __is_valid_memory_range s a b = true ->
            __is_valid_memory_range s' a b = true)).
Proof.
  split.
  - intros Hsize. unfold add_memory_area. rewrite bool_decide_eq_true_2 by done.
    by eexists.
  - intros Hsize. cbv zeta. unfold add_memory_area.
    rewrite bool_decide_eq_false_2 by lia. cbn [modify final].
    split; [done|]. split; [done|]. split.
    + intros a b Ha Hb. apply is_valid_memory_range_spec. left.
      exists address, size. cbn. rewrite elem_of_app, list_elem_of_singleton. tauto.
    + intros a b. rewrite !is_valid_memory_range_spec.
      intros [(a0 & n0 & Hin & Hle)|Hstack]; [left|by right].
      exists a0, n0. cbn. rewrite elem_of_app. tauto.
Qed.

(** X6: the range check is kept by shrinking: every range within a range
    that passes it passes it too, a range with no byte or whose end lies
    before its start included. *)
Theorem X6_valid_range_shrinks s (a b a' b' : Z) :
  __is_valid_memory_range s a b = true -> a <= a' -> b' <= b ->
  __is_valid_memory_range s a' b' = true.
Proof.
  rewrite !is_valid_memory_range_spec. unfold inside_area, inside_stack.
  intros [(a0 & n0 & Hin & Hle)|Hstack] Ha Hb; [left|right; lia].
  exists a0, n0. split; [done|lia].
Qed.

(** X7: [add_memory_content] does not look at the memory areas.  It
    raises for an empty content, a [NameError] since the message it
    builds names a variable that the method does not have, and appends
    every other content.  When [__initialize_memory] then returns, it has
    written a declared content to the engine exactly when the range of
    the content passes the range check: a content outside every area and
    the stack is dropped without an error. *)
Theorem X7_content_outside_is_dropped s (address : Z) (content : string) :
  (content = "" ->
   add_memory_content address content s = Outcome (inl (NameError "size")) s [])
  /\ (content <> "" ->
      add_memory_content address content s =
        Outcome (inr tt)
          (set___memory_contents (__memory_contents s ++ [(address, content)]) s) [])
  /\ (res (__initialize_memory s) = inr tt ->
      (address, content) ∈ __memory_contents s ->
      (uc_mem_write address content ∈ trace (__initialize_memory s)
       <-> __is_valid_memory_range s address (address + len content) = true)).
Proof.
  split; [|split].
  - intros ->. reflexivity.
  - intros Hne. unfold add_memory_content.
    rewrite bool_decide_eq_false_2; [done|]. by rewrite len_0.
  - intros Hok Hin. destruct (initialize_memory_requests s Hok) as (sp & _ & ->).
    split.
    + intros Hw. apply elem_of_cons in Hw as [[=]|Hw].
      apply elem_of_app in Hw as [Hw|Hw].
      { unfold stack_fill in Hw.
        destruct (__is_valid_memory_range s (stack s) _) eqn:Hv;
          [|by apply elem_of_nil in Hw].
        apply list_elem_of_singleton in Hw. injection Hw as -> ->. exact Hv. }
      apply elem_of_cons in Hw as [[=]|Hw].
      apply elem_of_app in Hw as [Hw|Hw].
      { apply list_elem_of_fmap in Hw as (x & Hx & _). discriminate Hx. }
      apply list_elem_of_In, in_flat_map in Hw as ([a c] & _ & Hw).
      unfold content_request in Hw. cbn [fst snd] in Hw.
      destruct (__is_valid_memory_range s a _) eqn:Hv; [|done].
      destruct Hw as [[= <- <-]|[]]. exact Hv.
    + intros Hv. do 2 (apply list_elem_of_further, elem_of_app; right).
      apply list_elem_of_In, in_flat_map. exists (address, content).
      split; [by apply list_elem_of_In|].
      unfold content_request. cbn [fst snd]. rewrite Hv. by left.
Qed.

(** X9: the region that [__initialize_memory] asks the engine to map for
    a declared area starts at the page of the area's address and is one
    page longer than the size aligned down.  It holds the whole area
    exactly when the offset of the address in its page and the size
    modulo the page size add up to a page at most, so always for an
    area whose address or whose size is a multiple of the page size. *)
Theorem X9_region_of_an_area s (address size : Z) :
  res (__initialize_memory s) = inr tt ->
  (address, size) ∈ __memory_areas s ->
  let base := _align_address address in
  let mapped := _align_address size + PAGE_SIZE in
  uc_mem_map base mapped (Some uc.UC_PROT_ALL) ∈ trace (__initialize_memory s)
  /\ base `mod` PAGE_SIZE = 0 /\ mapped `mod` PAGE_SIZE = 0
  /\ base <= address
  /\ (address + size <= base + mapped <->
      address `mod` PAGE_SIZE + size `mod` PAGE_SIZE <= PAGE_SIZE)
  /\ (address `mod` PAGE_SIZE = 0 \/ size `mod` PAGE_SIZE = 0 ->
      address + size <= base + mapped).
Proof.
  intros Hok Hin. cbv zeta.
  destruct (area_request_spec address size) as (Hreq & Hb & Hm & Hle & Hsz & Hcover).
  cbv zeta in Hreq, Hb, Hm, Hle, Hsz, Hcover.
  split.
  { destruct (initialize_memory_requests s Hok) as (sp & _ & ->).
    apply list_elem_of_further, elem_of_app. right.
    apply list_elem_of_further, elem_of_app. left.
    rewrite <- Hreq. apply list_elem_of_fmap. by exists (address, size). }
  split; [done|]. split; [done|]. split; [done|]. split; [by symmetry|].
  pose proof (Z.mod_pos_bound address PAGE_SIZE ltac:(done)).
  pose proof (Z.mod_pos_bound size PAGE_SIZE ltac:(done)).
  unfold _align_address in *.
  pose proof (Z.div_mod address PAGE_SIZE ltac:(done)).
  pose proof (Z.div_mod size PAGE_SIZE ltac:(done)).
  unfold PAGE_SIZE in *. lia.
Qed.

End Declaring.

(** ** Hooks and preset registers *)

Section Presets.
Context {E : Type} `{!Unicorn E} `{!Capstone} `{!RegIds}.
Implicit Type s : PimpMyRide E.

(** X10: the session keeps one code hook.  [add_code_hook] replaces the
    hook that was there, so that of two calls the second wins, and
    [trace_instructions] replaces a hook of the user by the session's own
    trace callback.  For a session that has had no other kind of hook,
    [__initialize_hooks] then installs that one hook in the engine and
    nothing else. *)
Theorem X10_one_code_hook s (cb1 cb2 : hook_cb) :
  __hooks (final (add_code_hook cb2 (final (add_code_hook cb1 s))))
    = __hooks (final (add_code_hook cb2 s))
  /\ __hooks (final (trace_instructions (final (add_code_hook cb1 s))))
       !! uc.UC_HOOK_CODE = Some bound___code_callback
  /\ (forall e,
        (forall k, k <> uc.UC_HOOK_CODE -> __hooks s !! k = None) ->
        __uc s = Some e ->
        let s' := final (add_code_hook cb1 s) in
        __initialize_hooks s' =
          match hook_add e uc.UC_HOOK_CODE cb1 with
          | inl err => Outcome (inl err) s' [uc_hook_add uc.UC_HOOK_CODE cb1]
          | inr e' => Outcome (inr tt) (set___uc (Some e') s')
                              [uc_hook_add uc.UC_HOOK_CODE cb1]
          end).
Proof.
  split; [|split].
  - change (<[uc.UC_HOOK_CODE := cb2]> (<[uc.UC_HOOK_CODE := cb1]> (__hooks s))
            = <[uc.UC_HOOK_CODE := cb2]> (__hooks s)).
    apply insert_insert_eq.
  - change (<[uc.UC_HOOK_CODE := bound___code_callback]>
              (<[uc.UC_HOOK_CODE := cb1]> (__hooks s)) !! uc.UC_HOOK_CODE
            = Some bound___code_callback).
    apply lookup_insert_eq.
  - intros e Hone He. cbv zeta. unfold __initialize_hooks. rewrite bind_gets.
    assert (Hhooks : __hooks (final (add_code_hook cb1 s))
                     = {[uc.UC_HOOK_CODE := cb1]}).
    { change (__hooks (final (add_code_hook cb1 s)))
        with (<[uc.UC_HOOK_CODE := cb1]> (__hooks s)).
      apply map_eq. intros k.
      destruct (decide (k = uc.UC_HOOK_CODE)) as [->|Hne].
      - by rewrite lookup_insert_eq, lookup_singleton_eq.
      - by rewrite lookup_insert_ne, lookup_singleton_ne, Hone. }
    rewrite Hhooks, map_to_list_singleton. cbn [for_each].
    unfold bind.
    rewrite (uc_update_run _ _ _ (final (add_code_hook cb1 s)) e He).
    destruct (hook_add e uc.UC_HOOK_CODE cb1); [done|].
    cbn [res final trace ret]. by rewrite app_nil_r.
Qed.

Lemma _reg_map_table_configuration s s' :
  configuration s' = configuration s ->
  res (_reg_map_table s') = res (_reg_map_table s).
Proof.
  intros Hcfg. unfold _reg_map_table. rewrite !bind_gets.
  rewrite (f_equal _arch Hcfg : _arch s' = _arch s).
  rewrite (f_equal _mode Hcfg : _mode s' = _mode s).
  repeat (match goal with |- context [if ?b then _ else _] => destruct b end;
          try reflexivity).
Qed.

Lemma write_register_ok s (tbl : gmap string Z) (register : string) (value : Z) :
  res (_reg_map_table s) = inr (Some tbl) ->
  res (write_register register value s) = inr tt ->
  trace (write_register register value s)
    = [uc_reg_write (default 0x11223344 (tbl !! register)) value].
Proof.
  intros Htbl Hok. destruct (__uc s) as [e|] eqn:He.
  - rewrite (write_register_run s tbl register value e Htbl He).
    by destruct (reg_write e _ value).
  - unfold write_register in Hok.
    rewrite (bind_run _ _ _ _ _ _ (_reg_map_run s tbl register Htbl)) in Hok.
    cbn [res] in Hok. by rewrite (uc_update_none _ _ _ _ He) in Hok.
Qed.

(** X11: [init_register] keeps one value for each register name, the
    last one given, and does not look the name up.  When the session has
    a register table and [__initialize_registers] returns, it has asked
    the engine for one write for each preset name and for nothing else:
    the preset value goes to the register that the table binds to the
    name, and to the register [0x11223344] for a name that the table does
    not have. *)
Theorem X11_preset_registers s (tbl : gmap string Z) :
  (forall n v1 v2,
     __regs (final (init_register n v2 (final (init_register n v1 s))))
       = __regs (final (init_register n v2 s)))
  /\ (forall n v n',
        __regs (final (init_register n v s)) !! n'
          = if decide (n' = n) then Some v else __regs s !! n')
  /\ (res (_reg_map_table s) = inr (Some tbl) ->
      res (__initialize_registers s) = inr tt ->
      List.length (trace (__initialize_registers s)) = size (__regs s)
      /\ forall n v, __regs s !! n = Some v ->
           uc_reg_write (default 0x11223344 (tbl !! n)) v
             ∈ trace (__initialize_registers s)).
Proof.
  split; [|split].
  - intros n v1 v2.
    change (<[n := v2]> (<[n := v1]> (__regs s)) = <[n := v2]> (__regs s)).
    apply insert_insert_eq.
  - intros n v n'.
    change (__regs (final (init_register n v s))) with (<[n := v]> (__regs s)).
    destruct (decide (n' = n)) as [->|Hne].
    + apply lookup_insert_eq.
    + by apply lookup_insert_ne.
  - intros Htbl Hok. unfold __initialize_registers in Hok |- *.
    rewrite bind_gets in Hok |- *.
    rewrite (for_each_requests _ _
               (fun x => [uc_reg_write (default 0x11223344 (tbl !! x.1)) x.2]) s);
      [| | |done|done].
    + split.
      * rewrite <- (length_map_to_list (__regs s)).
        generalize (map_to_list (__regs s)). intros l.
        induction l as [|x l IH]; [done|]. cbn [flat_map app List.length].
        by rewrite IH.
      * intros n v Hnv. apply list_elem_of_In, in_flat_map. exists (n, v).
        split; [by apply list_elem_of_In, elem_of_map_to_list|]. by left.
    + intros [n v]. apply write_register_configuration.
    + intros [n v] s' Hcfg Hx. cbn [fst snd].
      apply write_register_ok; [|done].
      by rewrite (_reg_map_table_configuration s s').
Qed.

End Presets.

(** ** What a computation asks *)

Section Asks.
Context {S : Type} (P : event -> Prop).

Lemma asks_only_ret {A} (a : A) : asks_only P (@ret S A a).
Proof. intros s. constructor. Qed.

Lemma asks_only_raise {A} (e : exn) : asks_only P (@raise S A e).
Proof. intros s. constructor. Qed.

Lemma asks_only_gets {A} (f : S -> A) : asks_only P (gets f).
Proof. intros s. constructor. Qed.

Lemma asks_only_modify (f : S -> S) : asks_only P (modify f).
Proof. intros s. constructor. Qed.

Lemma asks_only_attr {A} (n : string) (f : S -> option A) : asks_only P (attr n f).
Proof. intros s. unfold attr. destruct (f s); constructor. Qed.

Lemma asks_only_emit (ev : event) : P ev -> asks_only P (@emit S ev).
Proof. intros Hev s. by repeat constructor. Qed.

Lemma asks_only_bind {A B} (m : M S A) (f : A -> M S B) :
  asks_only P m -> (forall a, asks_only P (f a)) -> asks_only P (bind m f).
Proof.
  intros Hm Hf s. unfold bind. destruct (res (m s)); cbn [trace]; [apply Hm|].
  apply Forall_app. split; [apply Hm|apply Hf].
Qed.

Lemma asks_only_try_except {A} (m : M S A) (handles : exn -> bool) (h : exn -> M S A) :
  asks_only P m -> (forall e, asks_only P (h e)) ->
  asks_only P (try_except m handles h).
Proof.
  intros Hm Hh s. unfold try_except.
  destruct (res (m s)) as [e|]; [|apply Hm].
  destruct (handles e); cbn [trace]; [|apply Hm].
  apply Forall_app. split; [apply Hm|apply Hh].
Qed.

Lemma asks_only_for_each {A} (l : list A) (body : A -> M S unit) :
  (forall x, asks_only P (body x)) -> asks_only P (for_each l body).
Proof.
  intros Hb. induction l as [|x l IH]; cbn [for_each].
  - apply asks_only_ret.
  - apply asks_only_bind; [apply Hb|]. intros _. apply IH.
Qed.

End Asks.

(** The requests of a computation, by its structure; [known] settles the
    events and the calls it knows. *)
Ltac asks_only_by known :=
  repeat first
    [ known
    | apply asks_only_ret | apply asks_only_raise | apply asks_only_gets
    | apply asks_only_modify | apply asks_only_attr
    | apply asks_only_emit
    | apply asks_only_bind; [|intros ?]
    | apply asks_only_try_except; [|intros ?]
    | apply asks_only_for_each; intros ?
    | match goal with
      | |- asks_only _ (match ?x with _ => _ end) => destruct x
      | |- asks_only _ (if ?b then _ else _) => destruct b
      | |- asks_only _ (let '(_, _) := ?x in _) => destruct x
      end ].

Section Showing.
Context {E : Type} `{!Unicorn E} `{!Capstone} `{!RegIds}.
Implicit Type s : PimpMyRide E.

(** X12: [result] only reads registers of the engine.  It leaves the
    session as it was, asks the engine for nothing but the values of
    registers, and never lets an error of the engine through as such.  On
    a session that is neither MIPS nor x86, an ARM or AArch64 session
    among them, it asks nothing at all and returns. *)
Theorem X12_result_only_reads s :
  final (result s) = s
  /\ Forall reads_a_register (trace (result s))
  /\ (forall errno, res (result s) <> inl (UcError errno))
  /\ (eqv (_arch s) uc.UC_ARCH_MIPS = false ->
      eqv (_arch s) uc.UC_ARCH_X86 = false ->
      result s = Outcome (inr tt) s []).
Proof.
  unfold result. split; [apply __show_regs_same|]. split; [|split].
  - revert s. change (asks_only reads_a_register (__show_regs (E:=E))).
    unfold __show_regs, reg_reads, uc_query.
    asks_only_by ltac:(exact I).
  - intros errno. apply __show_regs_never_UcError.
  - apply __show_regs_elsewhere.
Qed.

End Showing.

(** ** Sessions without a register table *)

Section NoTable.
Context {E : Type} `{!Unicorn E} `{!Capstone} `{!RegIds}.
Implicit Type s : PimpMyRide E.

Lemma reg_reads_run (regs : list Z) s :
  exists r tr, reg_reads regs s = Outcome r s tr
               /\ (forall e, __uc s = Some e ->
                   (forall reg, reg ∈ regs -> exists v, reg_read e reg = inr v)
                   -> r = inr tt).
Proof.
  unfold reg_reads. induction regs as [|reg regs IH]; cbn [for_each].
  { eexists _, _. split; [reflexivity|]. done. }
  destruct IH as (r & tr & Heq & Hr).
  destruct (__uc s) as [e|] eqn:He.
  - rewrite bind_assoc.
    rewrite (bind_run _ _ _ _ _ _ (uc_query_run _ _ _ _ _ He)).
    destruct (reg_read e reg) as [err|v] eqn:Hread.
    + eexists _, _. split; [reflexivity|]. intros e' [= <-] Hall.
      destruct (Hall reg) as [? Hsome]; [apply list_elem_of_here|].
      by rewrite Hread in Hsome.
    + rewrite bind_ret, Heq. cbn [res final trace].
      eexists _, _. split; [reflexivity|]. intros e' [= <-] Hall.
      apply (Hr e); [done|]. intros reg' Hin. apply Hall. by apply list_elem_of_further.
  - rewrite bind_assoc.
    rewrite (bind_run _ _ _ _ _ _ (uc_query_none _ _ _ _ He)).
    eexists _, _. split; [reflexivity|]. intros e' [=].
Qed.

Lemma reg_reads_granted (regs : list Z) s e :
  __uc s = Some e ->
  (forall reg, reg ∈ regs -> exists v, reg_read e reg = inr v) ->
  reg_reads regs s = Outcome (inr tt) s (uc_reg_read <$> regs).
Proof.
  intros He. unfold reg_reads.
  induction regs as [|reg regs IH]; intros Hall; cbn [for_each]; [done|].
  destruct (Hall reg) as [v Hv]; [apply list_elem_of_here|].
  rewrite bind_assoc.
  rewrite (bind_run _ _ _ _ _ _ (uc_query_run _ _ _ _ _ He)), Hv.
  rewrite bind_ret, IH; [reflexivity|].
  intros reg' Hin. apply Hall. by apply list_elem_of_further.
Qed.

(** X13: an x86 session in 16-bit or 32-bit mode has no register table.
    [read_register] and [write_register] raise "Register map not
    implemented" for every name, without asking the engine and leaving
    the session as it was; so does [__initialize_registers] as soon as
    one register is preset.  In 16-bit mode [result] never returns: when
    the engine grants the reads of AX, BX, CX, DX, SI, DI, BP and SP, it
    makes these eight reads and raises a [NameError] for the ninth, which
    names [UC_X86_REG_PC], leaving the session as it was. *)
Theorem X13_x86_without_register_table s :
  _arch s = Some uc.UC_ARCH_X86 ->
  _mode s = Some uc.UC_MODE_16 \/ _mode s = Some uc.UC_MODE_32 ->
  (forall reg_name,
     read_register reg_name s
       = Outcome (inl (Exception "Register map not implemented")) s [])
  /\ (forall register value,
        write_register register value s
          = Outcome (inl (Exception "Register map not implemented")) s [])
  /\ (__regs s <> ∅ ->
      __initialize_registers s
        = Outcome (inl (Exception "Register map not implemented")) s [])
  /\ (_mode s = Some uc.UC_MODE_16 ->
      (exists err, res (result s) = inl err)
      /\ forall e, __uc s = Some e ->
           (forall reg,
              reg ∈ [UC_X86_REG_AX : Z; UC_X86_REG_BX : Z; UC_X86_REG_CX : Z;
                     UC_X86_REG_DX : Z; UC_X86_REG_SI : Z; UC_X86_REG_DI : Z;
                     UC_X86_REG_BP : Z; UC_X86_REG_SP : Z] ->
              exists v, reg_read e reg = inr v) ->
           result s =
             Outcome (inl (NameError "UC_X86_REG_PC")) s
                     (uc_reg_read <$>
                        [UC_X86_REG_AX : Z; UC_X86_REG_BX : Z; UC_X86_REG_CX : Z;
                         UC_X86_REG_DX : Z; UC_X86_REG_SI : Z; UC_X86_REG_DI : Z;
                         UC_X86_REG_BP : Z; UC_X86_REG_SP : Z])).
Proof.
  intros Ha Hm.
  assert (Htbl : _reg_map_table s
                 = Outcome (inl (Exception "Register map not implemented")) s []).
  { unfold _reg_map_table. rewrite !bind_gets, Ha.
    destruct Hm as [-> | ->]; reflexivity. }
  assert (Hmap : forall n, _reg_map n s
                 = Outcome (inl (Exception "Register map not implemented")) s []).
  { intros n. unfold _reg_map. by rewrite (bind_run _ _ _ _ _ _ Htbl). }
  assert (Hwrite : forall register value,
     write_register register value s
       = Outcome (inl (Exception "Register map not implemented")) s []).
  { intros register value. unfold write_register.
    by rewrite (bind_run _ _ _ _ _ _ (Hmap register)). }
  split; [|split; [exact Hwrite|split]].
  - intros reg_name. unfold read_register.
    by rewrite (bind_run _ _ _ _ _ _ (Hmap reg_name)).
  - intros Hregs. unfold __initialize_registers. rewrite bind_gets.
    destruct (map_to_list (__regs s)) as [|[n v] l] eqn:Hl.
    { by apply map_to_list_empty_iff in Hl. }
    cbn [for_each]. by rewrite (bind_run _ _ _ _ _ _ (Hwrite n v)).
  - intros H16. unfold result, __show_regs.
    match goal with |- context [try_except ?m _ _ s] => set (body := m) end.
    set (regs := [UC_X86_REG_AX : Z; UC_X86_REG_BX : Z; UC_X86_REG_CX : Z;
                  UC_X86_REG_DX : Z; UC_X86_REG_SI : Z; UC_X86_REG_DI : Z;
                  UC_X86_REG_BP : Z; UC_X86_REG_SP : Z]).
    assert (Hbody : body s = (reg_reads regs ;;
                              uc_attr <- attr "reg_read" __uc ;;
                              raise (NameError "UC_X86_REG_PC")) s).
    { unfold body. rewrite !bind_gets, Ha, H16. reflexivity. }
    split.
    + destruct (reg_reads_run regs s) as (r & tr & Hreads & Hr).
      rewrite (bind_run _ _ _ _ _ _ Hreads) in Hbody.
      unfold try_except. rewrite Hbody.
      destruct r as [err|[]]; cbn [res final trace].
      * destruct (is_UcError err); cbn [res]; by eexists.
      * rewrite bind_attr. destruct (__uc s); cbn [res raise]; by eexists.
    + intros e He Hall.
      rewrite (bind_run _ _ _ _ _ _ (reg_reads_granted regs s e He Hall)) in Hbody.
      rewrite bind_attr, He in Hbody. cbn [res final trace raise] in Hbody.
      rewrite app_nil_r in Hbody.
      by rewrite (try_except_run _ _ _ _ _ _ _ Hbody).
Qed.

End NoTable.

(** ** The trace callback off a breakpoint *)

Section Tracing.
Context {E : Type} `{!Unicorn E} `{!Capstone} `{!RegIds}.
Implicit Type s : PimpMyRide E.

Lemma code_callback_new_pc_asks (address size : Z) :
  asks_only (fun ev => ~ halts_or_notifies ev) (code_callback_new_pc (E:=E) address size).
Proof.
  unfold code_callback_new_pc, __show_regs, reg_reads, _show_disasm_inst,
    read_register, uc_query, _reg_map, _reg_map_table.
  asks_only_by ltac:(by intros []).
Qed.

(** X14: at an address that is not in the breakpoint list the trace
    callback never stops the engine and never calls a breakpoint
    callback, on any architecture and whatever the engine and the
    disassembler answer; and it leaves the breakpoint list and the
    registered callbacks as they were. *)
Theorem X14_no_stop_off_a_breakpoint s (address size : Z) :
  address ∉ breakpoints s ->
  Forall (fun ev => ~ halts_or_notifies ev) (trace (__code_callback address size s))
  /\ breakpoints (final (__code_callback address size s)) = breakpoints s
  /\ breakpoints_callback (final (__code_callback address size s))
     = breakpoints_callback s.
Proof.
  intros Hout. split.
  - unfold __code_callback.
    pose proof (run_outcome _ s (code_callback_new_pc_same address size)) as Hnew.
    pose proof (code_callback_new_pc_asks address size s) as Hasks.
    rewrite (try_except_run _ _ _ s
               (match res (code_callback_new_pc address size s) with
                | inl e => inl e | inr _ => inr tt end)
               (match res (code_callback_new_pc address size s) with
                | inl _ => s | inr pc => set_start_address (Some pc) s end)
               (trace (code_callback_new_pc address size s))).
    + destruct (res (code_callback_new_pc address size s)) as [e|pc]; [|done].
      destruct (is_UcError e); cbn [trace ret]; [by rewrite app_nil_r|done].
    + rewrite (bind_run _ _ _ _ _ _ Hnew).
      destruct (res (code_callback_new_pc address size s)) as [e|pc]; [done|].
      rewrite bind_modify. unfold code_callback_breakpoint. rewrite bind_gets.
      cbn [breakpoints set_start_address].
      rewrite bool_decide_eq_false_2 by done. cbn [ret res final trace].
      by rewrite app_nil_r.
  - assert (Hkeep : preserves (fun s => (breakpoints s, breakpoints_callback s))
                      (__code_callback (E:=E) address size)).
    { unfold __code_callback, code_callback_breakpoint, call, code_callback_new_pc,
        __show_regs, reg_reads, _show_disasm_inst, read_register, uc_query,
        uc_update, _reg_map, _reg_map_table.
      preserves_by fail. }
    specialize (Hkeep s). cbv beta in Hkeep. by injection Hkeep as -> ->.
Qed.

(** X15: the trace callback swallows an error of the engine.  When the
    engine cannot read the bytes of the instruction, the callback returns
    as if nothing had happened: it does not raise, does not record a new
    start address, and does not look at the breakpoints. *)
Theorem X15_callback_swallows_read_error s (address size errno : Z) e :
  res (__show_regs s) = inr tt ->
  __uc s = Some e ->
  mem_read e address size = inl (UcError errno) ->
  __code_callback address size s
    = Outcome (inr tt) s (trace (__show_regs s) ++ [uc_mem_read address size]).
Proof.
  intros Hshow He Hread. unfold __code_callback.
  pose proof (run_outcome _ s __show_regs_same) as Hregs. rewrite Hshow in Hregs.
  rewrite (try_except_run _ _ _ s (inl (UcError errno)) s
             (trace (__show_regs s) ++ [uc_mem_read address size])).
  - cbn [is_UcError ret res final trace]. by rewrite app_nil_r.
  - unfold code_callback_new_pc.
    rewrite bind_assoc. rewrite (bind_run _ _ _ _ _ _ Hregs).
    rewrite bind_assoc.
    rewrite (bind_run _ _ _ _ _ _ (uc_query_run _ _ _ _ _ He)), Hread.
    reflexivity.
Qed.

(** X27: when the disassembler finds no instruction in the bytes that
    the engine has read, the trace callback of an x64 session raises an
    [IndexError], which is not an error of the engine and is not caught:
    it has read the program counter, but it records no new start address
    and does not look at the breakpoints. *)
Theorem X27_callback_without_instruction s (address size pc : Z) e handle
    (opcodes : string) :
  _arch s = Some uc.UC_ARCH_X86 -> _mode s = Some uc.UC_MODE_64 ->
  res (__show_regs s) = inr tt ->
  __uc s = Some e -> mem_read e address size = inr opcodes ->
  __cs s = Some handle -> disasm handle opcodes address = inr [] ->
  reg_read e UC_X86_REG_RIP = inr pc ->
  __code_callback address size s
    = Outcome (inl (IndexError "list index out of range")) s
              (trace (__show_regs s)
               ++ [uc_mem_read address size; cs_disasm opcodes address;
                   uc_reg_read UC_X86_REG_RIP]).
Proof.
  intros Ha Hm Hshow He Hread Hcs Hdis Hpc. unfold __code_callback.
  pose proof (run_outcome _ s __show_regs_same) as Hregs. rewrite Hshow in Hregs.
  rewrite (try_except_run _ _ _ s (inl (IndexError "list index out of range")) s
             (trace (__show_regs s)
              ++ [uc_mem_read address size; cs_disasm opcodes address;
                  uc_reg_read UC_X86_REG_RIP])); [done|].
  unfold code_callback_new_pc.
  rewrite bind_assoc. rewrite (bind_run _ _ _ _ _ _ Hregs).
  rewrite bind_assoc.
  rewrite (bind_run _ _ _ _ _ _ (uc_query_run _ _ _ _ _ He)), Hread.
  assert (Hinst : _show_disasm_inst opcodes address s
                  = Outcome (inr []) s [cs_disasm opcodes address]).
  { by rewrite _show_disasm_inst_run, Hcs, Hdis. }
  rewrite bind_assoc. rewrite (bind_run _ _ _ _ _ _ Hinst).
  rewrite bind_assoc, bind_gets, bind_assoc, bind_gets, Ha, Hm.
  change (eqv (Some uc.UC_ARCH_X86) uc.UC_ARCH_MIPS) with false.
  change (eqv (Some uc.UC_ARCH_X86) uc.UC_ARCH_X86) with true.
  change (eqv (Some uc.UC_MODE_64) uc.UC_MODE_16) with false.
  change (eqv (Some uc.UC_MODE_64) uc.UC_MODE_32) with false.
  change (eqv (Some uc.UC_MODE_64) uc.UC_MODE_64) with true.
  cbv beta iota. rewrite bind_assoc, bind_assoc.
  rewrite (bind_run _ _ _ _ _ _
             (read_register_run s reg_map_X86_64 "rip" e (x64_table s Ha Hm) He)).
  change (default 0x11223344 (reg_map_X86_64 !! "rip")) with (UC_X86_REG_RIP : Z).
  rewrite Hpc. cbn [res final trace]. rewrite bind_ret.
  cbn [bind raise res final trace]. reflexivity.
Qed.

End Tracing.

(** ** Register names and indexes of the adapter *)

Lemma lower_upper_char (c : ascii) : lower_char (upper_char c) = lower_char c.
Proof.
  destruct c as [[] [] [] [] [] [] [] []]; vm_compute; reflexivity.
Qed.

Lemma lower_upper (s : string) : lower (upper s) = lower s.
Proof.
  induction s as [|c s IH]; [done|]. cbn [upper lower].
  by rewrite lower_upper_char, IH.
Qed.

(** X16: [registerNameToIndex] looks a name up whatever its case, and
    returns an index as it is given, valid or not.  It never finds the
    index 0: for [rax], the register of index 0, it answers [None] as it
    does for a name that is not a register, and for every other register
    of [regs_general] it answers the register's number. *)
Theorem X16_register_name_to_index (name : string) (n : Z) :
  target.registerNameToIndex (inl (upper name)) = target.registerNameToIndex (inl name)
  /\ target.registerNameToIndex (inl name) <> Some 0
  /\ target.registerNameToIndex (inl "rax") = None
  /\ (target.CORE_REGISTER !! lower name = None ->
      target.registerNameToIndex (inl name) = None)
  /\ (forall reg, reg ∈ target.regs_general -> target.name reg <> "rax" ->
        target.registerNameToIndex (inl (target.name reg)) = Some (target.reg_num reg))
  /\ target.registerNameToIndex (inr n) = Some n.
Proof.
  split; [|split; [|split; [|split; [|split]]]].
  - unfold target.registerNameToIndex. by rewrite lower_upper.
  - unfold target.registerNameToIndex.
    destruct (target.CORE_REGISTER !! lower name) as [i|]; [|done].
    case_bool_decide; [done|congruence].
  - reflexivity.
  - unfold target.registerNameToIndex. by intros ->.
  - intros reg Hin Hne.
    repeat (apply elem_of_cons in Hin as [->|Hin]; [done || reflexivity|]).
    by apply elem_of_nil in Hin.
  - reflexivity.
Qed.

(** X17: [readCoreRegistersRaw] does not read a register.  What it
    returns for a list of registers, named or numbered, known or not, is
    the list of their positions in the list: 0, 1, 2 and so on. *)
Theorem X17_read_core_registers_raw (reg_list : list (string + Z)) :
  target.readCoreRegistersRaw reg_list
    = Z.of_nat <$> seq 0 (List.length reg_list).
Proof.
  unfold target.readCoreRegistersRaw. cbv zeta.
  rewrite <- (length_fmap target.registerNameToIndex reg_list).
  generalize (target.registerNameToIndex <$> reg_list). intros l.
  rewrite imap_seq_0. reflexivity.
Qed.

(** ** The adapter: state, memory, profile *)

Section Remote.
Context {E : Type} `{!Unicorn E} `{!Capstone} `{!RegIds}.
Implicit Type s : PimpMyRide E.
Implicit Type t : target.Target E.

Lemma dispatch_app (tr1 tr2 : list event) t :
  target.dispatch (tr1 ++ tr2) t = target.dispatch tr2 (target.dispatch tr1 t).
Proof. unfold target.dispatch. apply foldl_app. Qed.

(** The bound callback only sets the state. *)
Lemma dispatch_frame (tr : list event) t :
  target.emu (target.dispatch tr t) = target.emu t
  /\ target.endian (target.dispatch tr t) = target.endian t
  /\ target.pack_format (target.dispatch tr t) = target.pack_format t
  /\ target.step (target.dispatch tr t) = target.step t
  /\ target.register_list (target.dispatch tr t) = target.register_list t.
Proof.
  unfold target.dispatch. revert t.
  induction tr as [|ev tr IH]; intros t; [done|]. cbn [foldl].
  destruct ev as [| | | | | | | | | | |[|id raises] address|]; try apply IH.
  destruct (IH (final (target.breakpoint_callback address t))) as (-> & -> & -> & -> & ->).
  done.
Qed.

Lemma dispatch_quiet (tr : list event) t :
  (forall address, call_callback bound_breakpoint_callback address ∉ tr) ->
  target.dispatch tr t = t.
Proof.
  unfold target.dispatch. revert t.
  induction tr as [|ev tr IH]; intros t Hq; [done|]. cbn [foldl].
  assert (Hq' : forall address, call_callback bound_breakpoint_callback address ∉ tr).
  { intros address Hin. apply (Hq address). by apply list_elem_of_further. }
  destruct ev as [| | | | | | | | | | |[|id raises] address|]; try by apply IH.
  exfalso. apply (Hq address). apply list_elem_of_here.
Qed.

(** X18: [halt] sets the state of the adapter to HALTED and asks nothing
    of the engine, which goes on as before since the session's [stop]
    does nothing.  [resume] sets the state to RUNNING and starts the
    session with no timeout; it returns and raises what [start] does,
    and when it is over the state is HALTED if the adapter's breakpoint
    callback was called during the run, and RUNNING still if it was not,
    also when the run has come to its end or has failed. *)
Theorem X18_adapter_state t (count : Z) :
  target.halt t = Outcome (inr tt) (target.set_state (Some target.TARGET_HALTED) t) []
  /\ res (target.resume count t) = res (start count 0 (target.emu t))
  /\ trace (target.resume count t) = trace (start count 0 (target.emu t))
  /\ target.emu (final (target.resume count t)) = final (start count 0 (target.emu t))
  /\ ((exists address,
         call_callback bound_breakpoint_callback address
           ∈ trace (start count 0 (target.emu t))) ->
      target._state (final (target.resume count t)) = Some target.TARGET_HALTED)
  /\ ((forall address,
         call_callback bound_breakpoint_callback address
           ∉ trace (start count 0 (target.emu t))) ->
      target._state (final (target.resume count t)) = Some target.TARGET_RUNNING).
Proof.
  split.
  { unfold target.halt. rewrite bind_modify. unfold target.on_emu, stop.
    cbn [ret res final trace target.dispatch foldl].
    by rewrite set_emu_emu. }
  unfold target.resume. rewrite bind_modify. unfold target.on_emu.
  cbn [res final trace target.emu target.set_state].
  split; [done|]. split; [done|]. split; [|split].
  - by destruct (dispatch_frame (trace (start count 0 (target.emu t)))
                  (target.set_emu (final (start count 0 (target.emu t)))
                     (target.set_state (Some target.TARGET_RUNNING) t))) as (-> & _).
  - intros [address Hin]. by apply dispatch_halts with address.
  - intros Hq. by rewrite dispatch_quiet.
Qed.

Lemma on_emu_quiet {A} (m : M (PimpMyRide E) A) t :
  (forall address, call_callback bound_breakpoint_callback address ∉ trace (m (target.emu t))) ->
  target.on_emu m t
    = Outcome (res (m (target.emu t)))
              (target.set_emu (final (m (target.emu t))) t)
              (trace (m (target.emu t))).
Proof. intros Hq. unfold target.on_emu. by rewrite dispatch_quiet. Qed.

(** X19: the adapter's [writeMemory] returns [None] whether or not the
    bytes were written.  For a range that does not pass the session's
    range check it asks nothing of the engine and leaves the adapter as
    it was, and [readMemory] answers the empty string; for a range that
    passes it, the bytes go to the engine, whose error is raised, and
    [readMemory] asks the engine for [transfer_size] bytes at the
    address. *)
Theorem X19_adapter_memory t (addr transfer_size : Z) (value : string) :
  (__is_valid_memory_range (target.emu t) addr (addr + len value) = false ->
   target.writeMemory addr value t = Outcome (inr tt) t [])
  /\ (__is_valid_memory_range (target.emu t) addr (addr + transfer_size) = false ->
      target.readMemory addr transfer_size t = Outcome (inr "") t [])
  /\ (forall e, __uc (target.emu t) = Some e ->
      __is_valid_memory_range (target.emu t) addr (addr + len value) = true ->
      target.writeMemory addr value t =
        match mem_write e addr value with
        | inl err => Outcome (inl err) t [uc_mem_write addr value]
        | inr e' =>
            Outcome (inr tt) (target.set_emu (set___uc (Some e') (target.emu t)) t)
                    [uc_mem_write addr value]
        end)
  /\ (forall e, __uc (target.emu t) = Some e ->
      __is_valid_memory_range (target.emu t) addr (addr + transfer_size) = true ->
      target.readMemory addr transfer_size t =
        Outcome (mem_read e addr transfer_size) t [uc_mem_read addr transfer_size]).
Proof.
  split; [|split; [|split]].
  - intros Hv. unfold target.writeMemory. unfold bind at 1.
    unfold target.on_emu. cbv beta zeta. rewrite write_memory_run, Hv.
    cbn [res final trace ret target.dispatch foldl app]. by rewrite set_emu_emu.
  - intros Hv. unfold target.readMemory, target.on_emu.
    rewrite read_memory_run, Hv.
    cbn [res final trace target.dispatch foldl]. by rewrite set_emu_emu.
  - intros e He Hv. unfold target.writeMemory. unfold bind at 1.
    unfold target.on_emu. cbv beta zeta. rewrite write_memory_run, Hv.
    unfold bind. rewrite (uc_update_run _ _ _ _ _ He).
    destruct (mem_write e addr value) as [err|e'];
      cbn [res final trace ret target.dispatch foldl app];
      [by rewrite set_emu_emu|done].
  - intros e He Hv. unfold target.readMemory, target.on_emu.
    rewrite read_memory_run, Hv.
    rewrite (uc_query_run _ _ (fun e => mem_read e addr transfer_size) _ e He).
    cbn [res final trace target.dispatch foldl]. by rewrite set_emu_emu.
Qed.

End Remote.

Section Profile.
Context {E : Type} `{!Unicorn E} `{!Capstone} `{!RegIds}.
Implicit Type s : PimpMyRide E.
Implicit Type t : target.Target E.

(** X20: over an x64 session with the register setup of the constructor,
    the adapter is created with 8-byte little-endian words and no
    register list, so that [getRegisterContext] raises an
    [AttributeError] until [init] has run.  The adapter's [init] runs the
    session's [init]; when that returns and the bus is accessible, the
    adapter has the register list [regs_general] over a session with an
    engine: it is an initialised x64 adapter.  When the session's [init]
    raises, or the bus is not accessible, the register list stays
    unset. *)
Theorem X20_adapter_profile s (initial_setup : bool) :
  _arch s = Some uc.UC_ARCH_X86 -> _mode s = Some uc.UC_MODE_64 ->
  _setup_registers (_arch s) (_mode s) (compiler s) = inr (setup s) ->
  exists t,
    target.EmulatedTargetX86_64__init__ s = inr t
    /\ target.emu t = final (add_breakpoint_callback bound_breakpoint_callback s)
    /\ target.endian t = "<" /\ target.pack_format t = "Q" /\ target.step t = 8
    /\ target.getRegisterContext t
       = Outcome (inl (AttributeError "register_list")) t []
    /\ (res (target.init initial_setup true t) = inr tt ->
        x64_profile (final (target.init initial_setup true t))
        /\ is_Some (__uc (target.emu (final (target.init initial_setup true t)))))
    /\ (res (target.init initial_setup true t) <> inr tt ->
        target.register_list (final (target.init initial_setup true t)) = None)
    /\ target.register_list (final (target.init initial_setup false t)) = None.
Proof.
  intros Ha Hm Hsetup.
  set (s' := final (add_breakpoint_callback bound_breakpoint_callback s)).
  assert (Hs' : setup s' = match _setup_registers (Some uc.UC_ARCH_X86)
                                   (Some uc.UC_MODE_64) (compiler s) with
                           | inr registers => registers
                           | inl _ => no_setup
                           end).
  { subst s'. cbn [add_breakpoint_callback modify final setup set_breakpoints_callback].
    rewrite Ha, Hm in Hsetup. by rewrite Hsetup. }
  exists {| target.emu := s'; target.endian := "<"; target.pack_format := "Q";
            target.step := 8; target._state := None; target.register_list := None |}.
  split.
  { unfold target.EmulatedTargetX86_64__init__, target.Target__init__.
    fold s'. cbv zeta. rewrite Hs'. reflexivity. }
  split; [done|]. split; [done|]. split; [done|]. split; [done|]. split; [done|].
  set (t := {| target.emu := s' |}).
  assert (Hinit : forall b,
    target.init initial_setup b t
    = match res (init s') with
      | inl e => Outcome (inl e)
                   (target.dispatch (trace (init s')) (target.set_emu (final (init s')) t))
                   (trace (init s'))
      | inr _ => Outcome (inr tt)
                   ((if b then target.set_register_list (Some target.regs_general)
                     else fun t => t)
                      (target.dispatch (trace (init s'))
                         (target.set_emu (final (init s')) t)))
                   (trace (init s'))
      end).
  { intros b. unfold target.init, bind, target.on_emu. cbn [res final trace target.emu t].
    destruct (res (init s')) as [e|[]]; [done|].
    destruct b; cbn [modify ret res final trace]; by rewrite app_nil_r. }
  pose proof (dispatch_frame (trace (init s')) (target.set_emu (final (init s')) t))
    as (Hemu & Hend & Hfmt & Hstep & Hlist).
  pose proof (init_configuration s') as Hcfg.
  split; [|split].
  - rewrite Hinit. intros Hok.
    destruct (res (init s')) as [e|[]] eqn:Hres; [discriminate|].
    cbn [final target.emu target.set_register_list]. rewrite Hemu.
    cbn [target.set_emu target.emu]. split.
    + unfold x64_profile.
      cbn [target.emu target.endian target.pack_format target.step
           target.register_list target.set_register_list].
      rewrite Hemu, Hend, Hfmt, Hstep. cbn [target.set_emu target.emu target.endian
        target.pack_format target.step t].
      rewrite (f_equal _arch Hcfg : _arch (final (init s')) = _arch s').
      rewrite (f_equal _mode Hcfg : _mode (final (init s')) = _mode s').
      subst s'. cbn [add_breakpoint_callback modify final _arch _mode
                     set_breakpoints_callback].
      by rewrite Ha, Hm.
    + by apply init_sets_the_instances.
  - rewrite Hinit. intros Hko.
    destruct (res (init s')) as [e|[]] eqn:Hres; [|done].
    cbn [final]. by rewrite Hlist.
  - rewrite Hinit. destruct (res (init s')) as [e|[]]; cbn [final]; by rewrite Hlist.
Qed.

End Profile.

(** ** The register context and the stop reply *)

Lemma len_hex_encode (s : string) : len (hex_encode s) = 2 * len s.
Proof.
  unfold len. induction s as [|c s IH]; [done|].
  cbn [hex_encode String.length]. lia.
Qed.

Lemma len_register_context (vs : list Z) :
  len (register_context vs) = 16 * Z.of_nat (List.length vs).
Proof.
  induction vs as [|v vs IH]; [done|].
  cbn [register_context foldr List.length]. fold (register_context vs).
  rewrite len_app, len_hex_encode, len_pack8, IH. lia.
Qed.

Lemma bind_ext {S A B} (m : M S A) (f g : A -> M S B) (s : S) :
  (forall a s', f a s' = g a s') -> bind m f s = bind m g s.
Proof. intros Hfg. unfold bind. destruct (res (m s)); [done|]. by rewrite Hfg. Qed.

Lemma for_each_app {S A} (l1 l2 : list A) (body : A -> M S unit) (s : S) :
  for_each (l1 ++ l2) body s = (for_each l1 body ;; for_each l2 body) s.
Proof.
  revert s. induction l1 as [|x l1 IH]; intros s; cbn [app for_each].
  - by rewrite bind_ret.
  - rewrite bind_assoc. apply bind_ext. intros _ s'. apply IH.
Qed.

Section Context.
Context {E : Type} `{!Unicorn E} `{!Capstone} `{!RegIds}.
Implicit Type s : PimpMyRide E.
Implicit Type t : target.Target E.

Lemma getRegisterContext_loop_all t e (regs : list target.RegisterInfo)
    (vs : list Z) (resp : string) :
  x64_profile t -> __uc (target.emu t) = Some e ->
  Forall2 (fun reg v => reg_read e (reg_index (target.name reg)) = inr v
                        /\ 0 <= v < 2 ^ 64) regs vs ->
  target.getRegisterContext_loop regs resp t
    = Outcome (inr (resp +:+ register_context vs)) t
              ((fun reg => uc_reg_read (reg_index (target.name reg))) <$> regs).
Proof.
  intros Ht He Hvs. revert resp.
  induction Hvs as [|reg v regs vs [Hread Hv] _ IH]; intros resp.
  - cbn [target.getRegisterContext_loop ret register_context foldr fmap list_fmap].
    by rewrite append_nil_r.
  - cbn [target.getRegisterContext_loop].
    rewrite (bind_run _ _ _ _ _ _ (on_emu_read_register t e _ Ht He)), Hread.
    rewrite bind_gets.
    pose proof Ht as (_ & _ & Hend & Hfmt & _).
    rewrite Hend, Hfmt, struct_pack_Q, bool_decide_eq_true_2 by done.
    rewrite IH. cbn [res final trace register_context foldr fmap list_fmap app].
    fold (register_context vs). by rewrite append_assoc.
Qed.

(** X21: on an initialised x64 adapter whose engine grants the read of
    each exposed register with a value of 64 bits, [getRegisterContext]
    reads the seventeen registers once each, in the order of
    [regs_general], leaves the adapter as it was, and returns the
    hexadecimal digits of the values, sixteen for each register, 272 in
    all. *)
Theorem X21_register_context_shape t e (vs : list Z) :
  x64_profile t -> __uc (target.emu t) = Some e ->
  Forall2 (fun id v => reg_read e id = inr v /\ 0 <= v < 2 ^ 64) x64_ids vs ->
  target.getRegisterContext t
    = Outcome (inr (register_context vs)) t (uc_reg_read <$> x64_ids)
  /\ len (register_context vs) = 272
  /\ List.length (uc_reg_read <$> x64_ids) = 17%nat.
Proof.
  intros Ht He Hvs.
  pose proof Ht as (_ & _ & _ & _ & _ & Hlist).
  split; [|split].
  - unfold target.getRegisterContext. rewrite bind_attr, Hlist.
    rewrite (getRegisterContext_loop_all t e _ vs "" Ht He).
    + rewrite append_nil_l. unfold x64_ids. by rewrite <- list_fmap_compose.
    + unfold x64_ids in Hvs. by apply Forall2_fmap_l in Hvs.
  - rewrite len_register_context, <- (Forall2_length _ _ _ Hvs). reflexivity.
  - reflexivity.
Qed.

End Context.

Lemma zip_seq_app {A} (k : nat) (l1 l2 : list A) :
  zip (seq k (List.length (l1 ++ l2))) (l1 ++ l2)
    = zip (seq k (List.length l1)) l1
      ++ zip (seq (k + List.length l1) (List.length l2)) l2.
Proof.
  rewrite length_app, seq_app. unfold zip.
  apply zip_with_app. by rewrite length_seq.
Qed.

Section Restore.
Context {E : Type} `{!Unicorn E} `{!Capstone} `{!RegIds}.
Implicit Type s : PimpMyRide E.
Implicit Type t : target.Target E.

(** X22: [setRegisterContext] takes a context of any number of values.
    On an initialised x64 adapter whose engine keeps the seventeen
    exposed registers as a register file, the values of the context go
    to the first registers of [regs_general], one each in order, and the
    other exposed registers keep their values; nothing is written for an
    empty context.  A context of more than seventeen values raises an
    [IndexError], after the seventeen registers have been written. *)
Theorem X22_context_of_any_length t e (vs : list Z) :
  register_file x64_ids -> NoDup x64_ids ->
  x64_profile t -> __uc (target.emu t) = Some e ->
  Forall (fun v => 0 <= v < 2 ^ 64) vs ->
  exists e',
    __uc (target.emu (final (target.setRegisterContext (register_context vs) t)))
      = Some e'
    /\ Forall2 (fun id v => reg_read e' id = inr v)
               (take (List.length vs) x64_ids) (take 17 vs)
    /\ (forall r, r ∈ x64_ids -> r ∉ take (List.length vs) x64_ids ->
                  reg_read e' r = reg_read e r)
    /\ res (target.setRegisterContext (register_context vs) t)
       = if bool_decide (List.length vs <= 17)%nat then inr tt
         else inl (IndexError "list index out of range").
Proof.
  intros Hfile Hnodup Ht He Hrange.
  pose proof Ht as (_ & _ & Hend & Hfmt & Hstep & _).
  set (body := fun '(i, value) =>
                 match target.regs_general !! i with
                 | None => raise (IndexError "list index out of range")
                 | Some reg => target.on_emu (write_register (target.name reg) value)
                 end : M (target.Target E) unit).
  assert (Hset : target.setRegisterContext (register_context vs) t =
                 for_each (zip (seq 0 (List.length vs)) vs) body t).
  { unfold target.setRegisterContext. rewrite hexDecode_register_context.
    rewrite !bind_gets, Hend, Hfmt, Hstep.
    rewrite bool_decide_eq_false_2 by lia.
    by rewrite struct_unpack_packed. }
  rewrite Hset. clear Hset.
  set (regs1 := take (List.length vs) target.regs_general).
  set (vs1 := take 17 vs).
  assert (Hlen : List.length regs1 = List.length vs1).
  { subst regs1 vs1. rewrite !length_take.
    change (List.length target.regs_general) with 17%nat. lia. }
  assert (Hids : take (List.length vs) x64_ids
                 = (fun reg => reg_index (target.name reg)) <$> regs1).
  { subst regs1. unfold x64_ids. by rewrite fmap_take. }
  destruct (setRegisterContext_loop_run x64_ids regs1 vs1 Hfile)
    with (k := 0%nat) (t := t) (e := e) as (e' & Hres & Hfin & Hreads & Hothers);
    [| | exact Ht | exact He | |].
  { apply Forall2_same_length_lookup. split; [done|]. intros i reg v Hreg Hv. split.
    - unfold x64_ids. apply list_elem_of_fmap. exists reg. split; [done|].
      subst regs1. apply lookup_take_Some in Hreg as [Hreg _].
      by apply list_elem_of_lookup_2 with i.
    - subst vs1. apply lookup_take_Some in Hv as [Hv _].
      by apply (Forall_lookup_1 _ _ _ _ Hrange Hv). }
  { rewrite <- Hids. rewrite <- (take_drop (List.length vs) x64_ids) in Hnodup.
    by apply NoDup_app in Hnodup as [? _]. }
  { intros i reg Hreg. subst regs1. by apply lookup_take_Some in Hreg as [Hreg _]. }
  cbv zeta in Hres, Hfin. fold body in Hres, Hfin.
  assert (Hzip : zip (seq 0 (List.length vs)) vs
                 = zip (seq 0 (List.length vs1)) vs1
                   ++ zip (seq (List.length vs1) (List.length (drop 17 vs)))
                          (drop 17 vs)).
  { change (List.length vs1) with (0 + List.length vs1)%nat at 2.
    rewrite <- (zip_seq_app 0 vs1 (drop 17 vs)). subst vs1. by rewrite take_drop. }
  rewrite Hzip, for_each_app.
  unfold bind. rewrite Hres. cbn [res final trace].
  exists e'. rewrite Hids.
  destruct (drop 17 vs) as [|v rest] eqn:Hdrop.
  - cbn [List.length seq zip zip_with for_each ret res final trace].
    rewrite Hfin. split; [done|].
    split; [by apply Forall2_fmap_l|]. split; [exact Hothers|].
    rewrite bool_decide_eq_true_2; [done|].
    apply (f_equal List.length) in Hdrop. rewrite length_drop in Hdrop.
    cbn [List.length] in Hdrop. lia.
  - assert (Hlong : (17 < List.length vs)%nat).
    { apply (f_equal List.length) in Hdrop. rewrite length_drop in Hdrop.
      cbn [List.length] in Hdrop. lia. }
    assert (Hvs1 : List.length vs1 = 17%nat).
    { subst vs1. rewrite length_take. lia. }
    rewrite Hfin, Hvs1. cbn [List.length seq zip zip_with for_each].
    unfold bind. cbn [body].
    change (target.regs_general !! 17%nat) with (@None target.RegisterInfo).
    cbn [raise res final trace].
    split; [done|]. split; [by apply Forall2_fmap_l|]. split; [exact Hothers|].
    by rewrite bool_decide_eq_false_2 by lia.
Qed.

End Restore.

Lemma unpack_values_too_long (k : nat) (data : list ascii) :
  (8 * k < List.length data)%nat ->
  unpack_values true (repeat "Q"%char k) data = None.
Proof.
  revert data. induction k as [|k IH]; intros data Hlen.
  - destruct data; [cbn in Hlen; lia|done].
  - cbn [repeat unpack_values]. change (format_size "Q") with (Some 8%nat).
    cbv beta match. rewrite bool_decide_eq_true_2 by lia.
    rewrite IH; [done|]. rewrite length_drop. lia.
Qed.

Section Reply.
Context {E : Type} `{!Unicorn E} `{!Capstone} `{!RegIds}.
Implicit Type s : PimpMyRide E.
Implicit Type t : target.Target E.

(** X23: [setRegisterContext] unpacks the whole context before it writes
    a register.  On an x64 adapter a context whose bytes are not a whole
    number of 8-byte words raises a [struct.error]; nothing is asked of
    the engine and the adapter is as it was. *)
Theorem X23_context_of_broken_words t (blob data : string) :
  x64_profile t -> hexDecode blob = inr data -> len data `mod` 8 <> 0 ->
  exists msg,
    target.setRegisterContext blob t = Outcome (inl (struct_error msg)) t [].
Proof.
  intros (_ & _ & Hend & Hfmt & Hstep & _) Hdata Hmod.
  unfold target.setRegisterContext. rewrite Hdata, !bind_gets, Hend, Hfmt, Hstep.
  rewrite bool_decide_eq_false_2 by lia.
  assert (Hk : len data `div` 8 = Z.of_nat (Z.to_nat (len data `div` 8))).
  { rewrite Z2Nat.id; [done|]. apply Z.div_pos; unfold len; lia. }
  rewrite Hk, str_mul_repeat, append_cons, append_nil_l.
  cbn [struct_unpack]. change (byte_order "<") with (Some true). cbv beta match.
  rewrite list_ascii_of_string_of_list_ascii, unpack_values_too_long; [by eexists|].
  assert (Hlen : Z.of_nat (List.length (list_ascii_of_string data)) = len data).
  { unfold len. f_equal. clear. induction data as [|c data IH]; [done|].
    cbn. by rewrite IH. }
  pose proof (Z.div_mod (len data) 8 ltac:(lia)).
  pose proof (Z.mod_pos_bound (len data) 8 ltac:(lia)).
  lia.
Qed.

(** X24: the stop reply of an initialised x64 adapter.  [getTResponse]
    reads the engine's stack pointer and then its program counter, and
    leaves the adapter as it was; whatever [gdbInterrupt] is, the reply
    is the signal 05, then the stack pointer under the register number 07
    and the program counter under the number 10, each as the sixteen
    hexadecimal digits of its 8 bytes, least significant byte first, then
    a fixed thread and core. *)
Theorem X24_stop_reply t e (gdbInterrupt : bool) (sp pc : Z) :
  x64_profile t -> __uc (target.emu t) = Some e ->
  reg_read e UC_X86_REG_RSP = inr sp -> 0 <= sp < 2 ^ 64 ->
  reg_read e UC_X86_REG_RIP = inr pc -> 0 <= pc < 2 ^ 64 ->
  target.getTResponse gdbInterrupt t
    = Outcome (inr ("T0506:0 *,;07:" +:+ hex_encode (pack8 sp)
                    +:+ ";10:" +:+ hex_encode (pack8 pc)
                    +:+ ";thread:26a ;core:1"))
              t [uc_reg_read UC_X86_REG_RSP; uc_reg_read UC_X86_REG_RIP]
  /\ le_value (list_ascii_of_string (pack8 sp)) = sp
  /\ le_value (list_ascii_of_string (pack8 pc)) = pc.
Proof.
  intros Ht He Hsp Hsp64 Hpc Hpc64.
  pose proof Ht as (_ & _ & Hend & Hfmt & _).
  assert (Henc : forall v, 0 <= v < 2 ^ 64 ->
            target.encode_register v t = Outcome (inr (hex_encode (pack8 v))) t []).
  { intros v Hv. unfold target.encode_register.
    rewrite bind_gets, Hend, Hfmt, struct_pack_Q.
    by rewrite bool_decide_eq_true_2. }
  split; [|split].
  - unfold target.getTResponse.
    rewrite (bind_run _ _ _ _ _ _ (on_emu_read_register t e "rsp" Ht He)).
    change (reg_index "rsp") with (UC_X86_REG_RSP : Z). rewrite Hsp.
    rewrite (bind_run _ _ _ _ _ _ (Henc sp Hsp64)).
    rewrite (bind_run _ _ _ _ _ _ (on_emu_read_register t e "rip" Ht He)).
    change (reg_index "rip") with (UC_X86_REG_RIP : Z). rewrite Hpc.
    rewrite (bind_run _ _ _ _ _ _ (Henc pc Hpc64)).
    cbn [res final trace ret app str_join].
    by rewrite !append_cons, !append_nil_l.
  - unfold pack8. rewrite list_ascii_of_string_of_list_ascii.
    by apply le_value_le_bytes.
  - unfold pack8. rewrite list_ascii_of_string_of_list_ascii.
    by apply le_value_le_bytes.
Qed.

End Reply.

(** ** Starting, and breakpoints through the adapter *)

Section Starting.
Context {E : Type} `{!Unicorn E} `{!Capstone} `{!RegIds}.
Implicit Type s : PimpMyRide E.
Implicit Type t : target.Target E.

(** X25: [start] needs a start address, an engine and a return address.
    When one of them is missing it raises, an error that is not the
    engine's and that it does not catch, before it has asked anything of
    the engine, and the session is as it was.  When they are there and
    the run of the engine returns, [start] returns with the session as
    the run has left it, having asked for nothing but the run. *)
Theorem X25_start_needs_init s (count timeout : Z) :
  (_start_address s = None \/ __uc s = None \/ _return_address s = None ->
   exists err,
     start count timeout s = Outcome (inl err) s [] /\ is_UcError err = false)
  /\ (forall sa ra e s1 tr1,
        _start_address s = Some sa -> _return_address s = Some ra ->
        __uc s = Some e ->
        emu_start run_hook sa ra timeout count s = Outcome (inr tt) s1 tr1 ->
        start count timeout s
          = Outcome (inr tt) s1 (uc_emu_start sa ra timeout count :: tr1)).
Proof.
  split.
  - intros Hmiss. unfold start, try_except. rewrite bind_gets.
    destruct (_start_address s) as [sa|]; [|by eexists].
    rewrite bind_attr. destruct (__uc s) as [e|]; [|by eexists].
    rewrite bind_gets. destruct (_return_address s) as [ra|]; [|by eexists].
    by destruct Hmiss as [?|[?|?]].
  - intros sa ra e s1 tr1 Hsa Hra He Hrun. unfold start.
    rewrite (try_except_run _ _ _ s (inr tt) s1 (uc_emu_start sa ra timeout count :: tr1));
      [done|].
    by rewrite bind_gets, Hsa, bind_attr, He, bind_gets, Hra, bind_emit, Hrun.
Qed.

Lemma list_remove_app_fresh (x : Z) (l : list Z) :
  x ∉ l -> list_remove x (l ++ [x]) = l.
Proof.
  induction l as [|y l IH]; intros Hx; cbn [app list_remove].
  - by rewrite bool_decide_eq_true_2.
  - apply not_elem_of_cons in Hx as [Hne Hx].
    rewrite bool_decide_eq_false_2 by congruence. by rewrite IH.
Qed.

Lemma list_remove_Permutation (x : Z) (l : list Z) :
  x ∈ l -> x :: list_remove x l ≡ₚ l.
Proof.
  induction l as [|y l IH]; intros Hx; [by apply elem_of_nil in Hx|].
  cbn [list_remove]. destruct (bool_decide_reflect (y = x)) as [->|Hne]; [done|].
  apply elem_of_cons in Hx as [->|Hx]; [done|].
  rewrite Permutation_swap. by rewrite IH.
Qed.

(** X26: through the adapter, [setBreakpoint] followed by
    [removeBreakpoint] of the same address asks nothing of the engine and
    leaves the adapter as it was but for the order of the breakpoint
    list: the list holds the same addresses as often as before, and is
    the list of before when the address was not in it. *)
Theorem X26_breakpoint_set_then_removed t (address : Z) :
  let o := (target.setBreakpoint address ;; target.removeBreakpoint address) t in
  res o = inr tt /\ trace o = []
  /\ breakpoints (target.emu (final o)) ≡ₚ breakpoints (target.emu t)
  /\ final o = target.set_emu
                 (set_breakpoints (breakpoints (target.emu (final o))) (target.emu t)) t
  /\ (address ∉ breakpoints (target.emu t) -> final o = t).
Proof.
  cbv zeta. unfold target.setBreakpoint, target.removeBreakpoint, bind, target.on_emu.
  unfold set_breakpoint, remove_breakpoint, bind, gets, modify.
  cbn [res final trace target.dispatch foldl target.emu target.set_emu breakpoints
       set_breakpoints app].
  rewrite bool_decide_eq_true_2
    by (apply elem_of_app; right; apply list_elem_of_here).
  cbn [res final trace target.dispatch foldl target.emu target.set_emu breakpoints
       set_breakpoints app].
  split; [done|]. split; [done|]. split; [|split].
  - destruct (decide (address ∈ breakpoints (target.emu t))) as [Hin|Hout].
    + apply (Permutation_cons_inv (a := address)).
      rewrite list_remove_Permutation by (apply elem_of_app; by left).
      by rewrite Permutation_app_comm.
    + by rewrite list_remove_app_fresh.
  - by destruct t as [[] ? ? ? ? ?].
  - intros Hout. rewrite list_remove_app_fresh by done.
    by destruct t as [[] ? ? ? ? ?].
Qed.

End Starting.

(** ** Examples of the further properties *)

(** X2, for the names ["x64"] and ["X64"], and for ["x86"] with 16
    bits. *)
Lemma X2_witness :
  (exists s, PimpMyRide__init__ (E:=machine) "x64" 64 true 0x70000000 1 COMPILE_GCC = inr s)
  /\ ~ (exists s, PimpMyRide__init__ (E:=machine) "X64" 64 true 0x70000000 1 COMPILE_GCC
                  = inr s)
  /\ PimpMyRide__init__ (E:=machine) "x86" 16 true 0x70000000 1 COMPILE_GCC
     = inl (NameError "UC_X86_REG_PC")
  /\ breakpoints demo.fresh = [].
Proof.
  destruct (X2_constructor_architectures (E:=machine) "x64" 64 true 0x70000000 1 COMPILE_GCC)
    as (Hyes & _ & _ & Hnew).
  destruct (X2_constructor_architectures (E:=machine) "X64" 64 true 0x70000000 1 COMPILE_GCC)
    as (Hno & _ & _).
  destruct (X2_constructor_architectures (E:=machine) "x86" 16 true 0x70000000 1 COMPILE_GCC)
    as (_ & H16 & _).
  split; [|split; [|split]].
  - apply Hyes. left. listed.
  - intros Hs. apply Hno in Hs as [Hin|[[=] _]]. not_listed Hin.
  - by apply H16.
  - by destruct (Hnew demo.fresh eq_refl) as (_ & _ & _ & _ & _ & _ & ? & _).
Defined.

(** X3, on a new session and on a configured one. *)
Lemma X3_witness :
  (exists msg, init demo.fresh = Outcome (inl (PimpMyRideException msg)) demo.fresh [])
  /\ head (trace (init demo.x64)) = Some (uc_Uc uc.UC_ARCH_X86 uc.UC_MODE_64).
Proof.
  split.
  - apply (X3_init_checks_first demo.fresh). right. right. right. by left.
  - by apply (X3_init_checks_first demo.x64).
Defined.

(** X4, for a big-endian MIPS session and for an x64 session. *)
Lemma X4_witness :
  target.Target__init__ demo.mips_be = inl (AttributeError "pack_format")
  /\ exists t, target.Target__init__ demo.fresh = inr t /\ target.step t = 8.
Proof.
  split.
  - by apply (X4_adapter_word_format "MIPS" 32 false 0x70000000 1 COMPILE_GCC
                demo.mips_be eq_refl).
  - destruct (X4_adapter_word_format "x64" 64 true 0x70000000 1 COMPILE_GCC
                demo.fresh eq_refl) as (_ & _ & _ & _ & Hnew).
    destruct Hnew as (t & c & Ht & _ & _ & Hfmt & Hsize & _); [by intros [[=] _]|].
    exists t. split; [exact Ht|].
    vm_compute in Ht. injection Ht as <-. reflexivity.
Defined.

(** X5, for an area of no byte and an area of sixteen. *)
Lemma X5_witness :
  (exists msg,
     add_memory_area 0x3000 0 demo.x64
       = Outcome (inl (PimpMyRideException msg)) demo.x64 [])
  /\ __is_valid_memory_range (final (add_memory_area 0x3000 16 demo.x64))
       0x3004 0x3008 = true.
Proof.
  destruct (X5_add_memory_area demo.x64 0x3000 0) as (Hno & _).
  destruct (X5_add_memory_area demo.x64 0x3000 16) as (_ & Hyes).
  split; [apply Hno; lia|].
  destruct Hyes as (_ & _ & Hin & _); [lia|]. apply Hin; lia.
Defined.

(** X6, in the code area of the configured session. *)
Lemma X6_witness : __is_valid_memory_range demo.x64 0x1010 0x1020 = true.
Proof.
  apply (X6_valid_range_shrinks demo.x64 0x1000 0x1100); [reflexivity|lia|lia].
Defined.

(** X7, for the content declared at [0x5000], where no area is. *)
Lemma X7_witness :
  (uc_mem_write 0x1000 demo.stub ∈ trace (__initialize_memory demo.x64_adrift))
  /\ (uc_mem_write 0x5000 demo.stub ∉ trace (__initialize_memory demo.x64_adrift))
  /\ res (__initialize_memory demo.x64_adrift) = inr tt.
Proof.
  destruct (X7_content_outside_is_dropped demo.x64_adrift 0x1000 demo.stub)
    as (_ & _ & Hin).
  destruct (X7_content_outside_is_dropped demo.x64_adrift 0x5000 demo.stub)
    as (_ & _ & Hout).
  assert (Hok : res (__initialize_memory demo.x64_adrift) = inr tt)
    by (vm_compute; reflexivity).
  assert (Hmem1 : (0x1000, demo.stub) ∈ __memory_contents demo.x64_adrift)
    by (vm_compute; listed).
  assert (Hmem2 : (0x5000, demo.stub) ∈ __memory_contents demo.x64_adrift)
    by (vm_compute; listed).
  split; [|split; [|exact Hok]].
  - apply (proj2 (Hin Hok Hmem1)). vm_compute. reflexivity.
  - intros Hw. apply (proj1 (Hout Hok Hmem2)) in Hw.
    vm_compute in Hw. discriminate Hw.
Defined.

(** X8, on the configured session. *)
Lemma X8_witness :
  is_Some (__uc (final (init demo.x64)))
  /\ configuration (final (init demo.x64)) = configuration demo.x64.
Proof.
  pose proof (X8_init_keeps_the_configuration demo.x64) as [Hcfg Hok].
  split; [|exact Hcfg]. apply Hok. vm_compute. reflexivity.
Defined.

(** X9, for the code area of 256 bytes at [0x1000]. *)
Lemma X9_witness :
  uc_mem_map 0x1000 0x1000 (Some uc.UC_PROT_ALL)
    ∈ trace (__initialize_memory demo.x64_powered).
Proof.
  destruct (X9_region_of_an_area demo.x64_powered 0x1000 0x100) as (Hreq & _).
  - vm_compute. reflexivity.
  - vm_compute. listed.
  - exact Hreq.
Defined.

(** X10, for a hook of the user on a session with an engine. *)
Lemma X10_witness :
  trace (__initialize_hooks (final (add_code_hook (hook_function 3) demo.bare)))
    = [uc_hook_add uc.UC_HOOK_CODE (hook_function 3)].
Proof.
  destruct (X10_one_code_hook demo.bare (hook_function 3) (hook_function 3))
    as (_ & _ & Hinit).
  rewrite (Hinit (demo.engine_of demo.bare)); [reflexivity|done|reflexivity].
Defined.

(** X11, for a preset of [rax] and of [cr3], which the table lacks. *)
Lemma X11_witness :
  let s := final (init_register "cr3" 2 (final (init_register "rax" 1 demo.bare))) in
  uc_reg_write 0x11223344 2 ∈ trace (__initialize_registers s)
  /\ List.length (trace (__initialize_registers s)) = 2%nat.
Proof.
  intros s.
  destruct (X11_preset_registers s reg_map_X86_64) as (_ & _ & Hinit).
  destruct Hinit as (Hlen & Hin); [vm_compute; reflexivity..|].
  split.
  - apply (Hin "cr3" 2). vm_compute. reflexivity.
  - rewrite Hlen. vm_compute. reflexivity.
Defined.

(** X12, on the AArch64 session. *)
Lemma X12_witness : result demo.aarch64 = Outcome (inr tt) demo.aarch64 [].
Proof.
  destruct (X12_result_only_reads demo.aarch64) as (_ & _ & _ & Hnone).
  apply Hnone; reflexivity.
Defined.

(** X13, on the session switched to 16-bit mode. *)
Lemma X13_witness :
  res (read_register "ax" demo.x86_16) = inl (Exception "Register map not implemented")
  /\ res (__initialize_registers demo.x86_16)
     = inl (Exception "Register map not implemented")
  /\ res (result demo.x86_16) = inl (NameError "UC_X86_REG_PC")
  /\ List.length (trace (result demo.x86_16)) = 8%nat.
Proof.
  destruct (X13_x86_without_register_table demo.x86_16)
    as (Hread & _ & Hinit & Hshow); [reflexivity|by left|].
  split; [by rewrite Hread|]. split.
  - rewrite Hinit; [reflexivity|]. intros Hempty.
    apply (f_equal (fun m => m !! "ax")) in Hempty. vm_compute in Hempty.
    discriminate Hempty.
  - destruct (Hshow eq_refl) as (_ & Hraise).
    rewrite (Hraise (demo.engine_of demo.x86_16)); [by split|reflexivity|].
    intros reg _. by eexists.
Defined.

(** X14, at the first instruction, which is not a breakpoint. *)
Lemma X14_witness :
  Forall (fun ev => ~ halts_or_notifies ev) (trace (__code_callback 0x1000 1 demo.x64_ready)).
Proof.
  apply (X14_no_stop_off_a_breakpoint demo.x64_ready 0x1000 1).
  vm_compute. intros Hin. not_listed Hin.
Defined.

(** X15, at an address that is not mapped. *)
Lemma X15_witness :
  res (__code_callback 0x5000 1 demo.x64_ready) = inr tt
  /\ final (__code_callback 0x5000 1 demo.x64_ready) = demo.x64_ready.
Proof.
  rewrite (X15_callback_swallows_read_error demo.x64_ready 0x5000 1 UC_ERR_READ_UNMAPPED
             (demo.engine_of demo.x64_ready)); [done|vm_compute; reflexivity..].
Defined.

(** X16, for the upper-case spelling of [rsp]. *)
Lemma X16_witness : target.registerNameToIndex (inl "RSP") = Some 7.
Proof.
  destruct (X16_register_name_to_index "rsp" 0) as (Hcase & _ & _ & _ & Hreg & _).
  change "RSP" with (upper "rsp"). rewrite Hcase.
  apply (Hreg (target.RegisterInfo__init__ "rsp" 32 "int" "general")); [listed|done].
Defined.

(** X18, for a run that hits the breakpoint at [0x1001]. *)
Lemma X18_witness :
  target._state (final (target.resume 0 demo.gdb2)) = Some target.TARGET_HALTED.
Proof.
  destruct (X18_adapter_state demo.gdb2 0) as (_ & _ & _ & _ & Hhalt & _).
  apply Hhalt. exists 0x1001. vm_compute. listed.
Defined.

(** X19, for a write outside the areas and a read inside. *)
Lemma X19_witness :
  target.writeMemory 0x5000 demo.stub demo.gdb2 = Outcome (inr tt) demo.gdb2 []
  /\ target.readMemory 0x1000 3 demo.gdb2
     = Outcome (inr demo.stub) demo.gdb2 [uc_mem_read 0x1000 3].
Proof.
  destruct (X19_adapter_memory demo.gdb2 0x5000 0 demo.stub) as (Hout & _).
  destruct (X19_adapter_memory demo.gdb2 0x1000 3 demo.stub) as (_ & _ & _ & Hin).
  split; [apply Hout; reflexivity|].
  rewrite (Hin (demo.engine_of (target.emu demo.gdb2))); [|reflexivity..].
  f_equal; vm_compute; reflexivity.
Defined.

(** X20, over the configured session. *)
Lemma X20_witness :
  exists t,
    target.EmulatedTargetX86_64__init__ demo.x64 = inr t
    /\ x64_profile (final (target.init true true t)).
Proof.
  destruct (X20_adapter_profile demo.x64 true) as (t & Ht & _ & _ & _ & _ & _ & Hok & _);
    [reflexivity..|].
  exists t. split; [exact Ht|]. apply Hok.
  vm_compute in Ht. injection Ht as <-. vm_compute. reflexivity.
Defined.

(** X21, on the adapter whose registers were preset. *)
Lemma X21_witness :
  let vs := [0x1122334455667788; 0; 0; 0; 2; 1; 0; 0x70001000; 0; 0; 0; 0; 0; 0; 0;
             0xFFFFFFFFFFFFFFFF; 0] in
  target.getRegisterContext demo.gdb1
    = Outcome (inr (register_context vs)) demo.gdb1 (uc_reg_read <$> x64_ids).
Proof.
  intros vs.
  destruct (X21_register_context_shape demo.gdb1
              (demo.engine_of (target.emu demo.gdb1)) vs) as (Hget & _).
  - repeat apply conj; reflexivity.
  - reflexivity.
  - repeat (constructor; [split; [vm_compute; reflexivity|lia]|]). constructor.
  - exact Hget.
Defined.

(** X22, for a context of two values. *)
Lemma X22_witness :
  let o := target.setRegisterContext (register_context [7; 9]) demo.gdb2 in
  res o = inr tt
  /\ exists e',
       __uc (target.emu (final o)) = Some e'
       /\ reg_read e' (UC_X86_REG_RAX : Z) = inr 7
       /\ reg_read e' (UC_X86_REG_RCX : Z) = inr 9
       /\ reg_read e' (UC_X86_REG_RSP : Z)
          = reg_read (demo.engine_of (target.emu demo.gdb2)) (UC_X86_REG_RSP : Z).
Proof.
  intros o.
  destruct (X22_context_of_any_length demo.gdb2
              (demo.engine_of (target.emu demo.gdb2)) [7; 9]
              (machine_register_file _) x64_ids_NoDup)
    as (e' & He' & Hreads & Hothers & Hres).
  - repeat apply conj; reflexivity.
  - reflexivity.
  - repeat constructor; lia.
  - split; [exact Hres|]. exists e'. split; [exact He'|].
    change (take (List.length [7; 9]) x64_ids)
      with [UC_X86_REG_RAX : Z; UC_X86_REG_RCX : Z] in Hreads, Hothers.
    change (take 17 [7; 9]) with [7; 9] in Hreads.
    apply Forall2_cons_1 in Hreads as [Hrax Hreads].
    apply Forall2_cons_1 in Hreads as [Hrcx _].
    split; [exact Hrax|]. split; [exact Hrcx|].
    apply Hothers.
    + rewrite x64_ids_unfold. listed.
    + intros Hin. vm_compute in Hin. not_listed Hin.
Defined.

(** X23, for a context of one byte. *)
Lemma X23_witness :
  exists msg,
    target.setRegisterContext "00" demo.gdb2
      = Outcome (inl (struct_error msg)) demo.gdb2 [].
Proof.
  apply (X23_context_of_broken_words demo.gdb2 "00" NUL).
  - repeat apply conj; reflexivity.
  - reflexivity.
  - vm_compute. discriminate.
Defined.

(** X24, on the adapter whose registers were preset. *)
Lemma X24_witness :
  res (target.getTResponse false demo.gdb1)
    = inr "T0506:0 *,;07:0010007000000000;10:0000000000000000;thread:26a ;core:1".
Proof.
  destruct (X24_stop_reply demo.gdb1 (demo.engine_of (target.emu demo.gdb1)) false
              0x70001000 0) as (Hreply & _).
  - repeat apply conj; reflexivity.
  - reflexivity.
  - vm_compute. reflexivity.
  - lia.
  - vm_compute. reflexivity.
  - lia.
  - rewrite Hreply. cbn [res]. f_equal; vm_compute; reflexivity.
Defined.

(** X25, on a new session. *)
Lemma X25_witness :
  exists err, start 0 0 demo.fresh = Outcome (inl err) demo.fresh []
              /\ is_UcError err = false.
Proof. apply (X25_start_needs_init demo.fresh 0 0). by left. Defined.

(** X27, for an instruction of no byte. *)
Lemma X27_witness :
  res (__code_callback 0x1000 0 demo.x64_ready)
    = inl (IndexError "list index out of range").
Proof.
  rewrite (X27_callback_without_instruction demo.x64_ready 0x1000 0 0
             (demo.engine_of demo.x64_ready) (cs.CS_ARCH_X86, cs.CS_MODE_64) "");
    [done|vm_compute; reflexivity..].
Defined.
